(** * SchoolLink: the application state and data-synchronisation layer

    A shallow embedding of [src/App.jsx]: the retry wrapper, the seed/live
    event merge, the authentication observer, the snapshot listeners, the
    view switch with its role guard, the calendar's month filter, the
    details view's in-place sort and grouping, the score publication and
    the mock login check.

    Conventions.
    - A JavaScript string on which the source only uses [===] and
      truthiness is a [string].  An absent field is written [""]: the two
      are alike under truthiness and under [===] with the non-empty strings
      the source compares fields with.  The login inputs, on which the
      source calls [trim] and [toLowerCase], are sequences of UTF-16 code
      units.
    - React state is a record; a state setter is a record update.
    - A JavaScript array that can be reached through two names lives in a
      heap of arrays and is named by its location. *)

From Stdlib Require Import ZArith List String Ascii Bool Lia Sorted Permutation.
From stdpp Require Import base option gmap strings list fin_maps.
Import ListNotations.

Local Open Scope string_scope.
Local Open Scope list_scope.
Local Open Scope Z_scope.

(** ** Utility: exponential backoff ([withRetry], App.jsx 51-61) *)

Module Retry.

(** What a promise settles to. *)
Inductive Completion (E A : Type) : Type :=
| Fulfilled (a : A)
| Rejected (e : E).
Arguments Fulfilled {E A} a.
Arguments Rejected {E A} e.

(** What the wrapper does that an observer can see: it calls [fn], and it
    waits on [setTimeout(resolve, delay)]. *)
Inductive Effect : Type :=
| Invoke
| Sleep (ms : Z).

#[global] Instance Effect_eq_dec : EqDecision Effect.
Proof. solve_decision. Defined.

Section WithOperation.
Context {W E A : Type}.

(** [fn] is an operation with side effects on a world [W]. *)
Variable fn : W -> Completion E A * W.

(** [const delay = Math.pow(2, i) * 1000] *)
Definition delay (i : nat) : Z := 2 ^ Z.of_nat i * 1000.

(** The [for] loop from index [i], with [remaining = maxRetries - i]
    iterations left.  The result [Fulfilled None] is the [undefined] a
    call returns when the loop ends without [return] or [throw]. *)
Fixpoint loop (maxRetries i remaining : nat) (w : W)
  : Completion E (option A) * W * list Effect :=
  match remaining with
  | O => (Fulfilled None, w, [])
  | S remaining' =>
      match fn w with
      | (Fulfilled a, w') => (Fulfilled (Some a), w', [Invoke])
      | (Rejected error, w') =>
          if Nat.eqb i (maxRetries - 1)
          then (Rejected error, w', [Invoke])
          else
            let '(r, w'', tr) := loop maxRetries (S i) remaining' w' in
            (r, w'', Invoke :: Sleep (delay i) :: tr)
      end
  end.

Definition withRetry (maxRetries : nat) (w : W)
  : Completion E (option A) * W * list Effect :=
  loop maxRetries 0 maxRetries w.

(** The operation fails whenever it is called. *)
Definition always_fails : Prop :=
  forall w, exists e w', fn w = (Rejected e, w').

Definition invocations (tr : list Effect) : nat :=
  length (List.filter (fun x => bool_decide (x = Invoke)) tr).

End WithOperation.

(** The default parameter value, [maxRetries = 3]. *)
Definition default_maxRetries : nat := 3.

(** An operation that counts its calls and rejects each time with the
    number of the call. *)
Definition failing_counter (n : nat) : Completion nat unit * nat :=
  (Rejected (S n), S n).

End Retry.

(** ** The JavaScript built-ins the source relies on *)

Module Js.

(** *** Strings under [===] and truthiness *)

(** [ToBoolean] of a string: only the empty string is falsy. *)
Definition truthy (s : string) : bool := negb (String.eqb s "").

(** [a || b] on strings. *)
Definition or_else (a b : string) : string := if truthy a then a else b.

(** *** Strings as UTF-16 code units ([trim], [toLowerCase]) *)

Definition ustring : Type := list N.

(** The code units of a literal of the source (all of them ASCII). *)
Definition units (s : string) : ustring :=
  List.map N_of_ascii (list_ascii_of_string s).

(** WhiteSpace and LineTerminator of ECMA-262: TAB, LF, VT, FF, CR, SP,
    NBSP, the Unicode space separators, LS, PS and the BOM. *)
Definition isWhiteSpace (c : N) : bool :=
  ((9 <=? c) && (c <=? 13) || (c =? 32) || (c =? 160) || (c =? 5760)
   || (8192 <=? c) && (c <=? 8202) || (c =? 8232) || (c =? 8233)
   || (c =? 8239) || (c =? 8287) || (c =? 12288) || (c =? 65279))%N.

Fixpoint trimStart (s : ustring) : ustring :=
  match s with
  | c :: s' => if isWhiteSpace c then trimStart s' else s
  | [] => []
  end.

Definition trimEnd (s : ustring) : ustring := rev (trimStart (rev s)).

(** [String.prototype.trim] *)
Definition trim (s : ustring) : ustring := trimEnd (trimStart s).

(** [String.prototype.toLowerCase], one code unit at a time.  [A]-[Z]
    map to [a]-[z]; KELVIN SIGN (U+212A) maps to [k] and capital I with
    dot (U+0130) to [i] followed by U+0307: these are the code points
    outside ASCII whose lower-case form holds an ASCII letter.  Every
    other unit outside ASCII is kept: its lower-case form lies outside
    ASCII as well, which is all a comparison with an ASCII literal
    observes. *)
Definition lowerUnit (c : N) : list N :=
  (if (65 <=? c) && (c <=? 90) then [c + 32]
   else if c =? 8490 then [107]
   else if c =? 304 then [105; 775]
   else [c])%N.

Definition toLowerCase (s : ustring) : ustring := List.concat (List.map lowerUnit s).

Definition ustring_eqb (a b : ustring) : bool := bool_decide (a = b).

(** *** Own property keys of an ordinary object *)

Definition digit_of (a : ascii) : option N :=
  let n := N_of_ascii a in
  if ((48 <=? n) && (n <=? 57))%N then Some (n - 48)%N else None.

Fixpoint digits_value (acc : N) (s : string) : option N :=
  match s with
  | EmptyString => Some acc
  | String a s' =>
      match digit_of a with
      | Some d => digits_value (acc * 10 + d)%N s'
      | None => None
      end
  end.

(** An array index is a canonical numeric string below [2^32 - 1]:
    [Object.keys] and [Object.entries] list such keys first, in numeric
    order, and the other string keys after them in insertion order. *)
Definition array_index (k : string) : option N :=
  match k with
  | EmptyString => None
  | String a rest =>
      if Ascii.eqb a "0" && negb (String.eqb rest "") then None
      else
        match digits_value 0 k with
        | Some n => if (n <? 4294967295)%N then Some n else None
        | None => None
        end
  end.

(** The names [{}] inherits from [Object.prototype]: [acc[k]] is truthy
    for them although [acc] has no such own property. *)
Definition object_prototype_names : list string :=
  [ "constructor"; "__defineGetter__"; "__defineSetter__"; "hasOwnProperty";
    "__lookupGetter__"; "__lookupSetter__"; "isPrototypeOf";
    "propertyIsEnumerable"; "toString"; "valueOf"; "__proto__";
    "toLocaleString" ].

Definition inherited (k : string) : bool :=
  existsb (String.eqb k) object_prototype_names.

(** *** [Array.prototype.sort] *)

Section Sort.
Context {A : Type}.
(** The comparator's result after [ToNumber], [NaN] read as [+0]. *)
Variable cmp : A -> A -> Z.

Fixpoint insert_sorted (x : A) (l : list A) : list A :=
  match l with
  | [] => [x]
  | y :: l' => if cmp x y <=? 0 then x :: l else y :: insert_sorted x l'
  end.

(** The sort is stable (ECMAScript 2019): an element stays before the
    later elements it compares equal to.  For a consistent comparator
    that fixes the result, which this insertion sort computes. *)
Definition sort (l : list A) : list A := fold_right insert_sorted [] l.
End Sort.

End Js.

(** *** [Date] *)

Module JsDate.

Definition msPerDay : Z := 86400000.

Definition is_leap (y : Z) : bool :=
  (y mod 4 =? 0) && (negb (y mod 100 =? 0) || (y mod 400 =? 0)).

Definition days_in_month (y m : Z) : Z :=
  if m =? 2 then (if is_leap y then 29 else 28)
  else if (m =? 4) || (m =? 6) || (m =? 9) || (m =? 11) then 30
  else 31.

(** The year counted from March that starts in [y'] ends with a leap day. *)
Definition leap_next (y' : Z) : Prop :=
  (y' + 1) mod 4 = 0 /\ ((y' + 1) mod 100 <> 0 \/ (y' + 1) mod 400 = 0).

(** Day number of a date of the proleptic Gregorian calendar, day 0
    being 1970-01-01; years are counted from March, in eras of 400. *)
Definition days_from_civil (y m d : Z) : Z :=
  let y' := if m <=? 2 then y - 1 else y in
  let era := y' / 400 in
  let yoe := y' - era * 400 in
  let mp := (m + 9) mod 12 in
  let doy := (153 * mp + 2) / 5 + d - 1 in
  let doe := yoe * 365 + yoe / 4 - yoe / 100 + doy in
  era * 146097 + doe - 719468.

(** The date of a day number: (year, month 1-12, day 1-31). *)
Definition civil_from_days (z : Z) : Z * Z * Z :=
  let z' := z + 719468 in
  let era := z' / 146097 in
  let doe := z' - era * 146097 in
  let yoe := (doe - doe / 1460 + doe / 36524 - doe / 146096) / 365 in
  let doy := doe - (365 * yoe + yoe / 4 - yoe / 100) in
  let mp := (5 * doy + 2) / 153 in
  let d := doy - (153 * mp + 2) / 5 + 1 in
  let m := if mp <? 10 then mp + 3 else mp - 9 in
  (if m <=? 2 then yoe + era * 400 + 1 else yoe + era * 400, m, d).

Definition digit (a : ascii) : option Z := option_map Z.of_N (Js.digit_of a).

Definition num2 (a b : ascii) : option Z :=
  match digit a, digit b with
  | Some x, Some y => Some (10 * x + y)
  | _, _ => None
  end.

Definition num4 (a b c d : ascii) : option Z :=
  match num2 a b, num2 c d with
  | Some x, Some y => Some (100 * x + y)
  | _, _ => None
  end.

(** The calendar date a date-only string [YYYY-MM-DD] denotes, the form
    the seed data has and [<input type="date">] produces. *)
Definition parse_ymd (s : string) : option (Z * Z * Z) :=
  match s with
  | String y1 (String y2 (String y3 (String y4 (String s1
      (String m1 (String m2 (String s2 (String d1 (String d2 EmptyString))))))))) =>
      if Ascii.eqb s1 "-" && Ascii.eqb s2 "-" then
        match num4 y1 y2 y3 y4, num2 m1 m2, num2 d1 d2 with
        | Some y, Some m, Some d =>
            if (1 <=? m) && (m <=? 12) && (1 <=? d) && (d <=? days_in_month y m)
            then Some (y, m, d) else None
        | _, _, _ => None
        end
      else None
  | _ => None
  end.

(** The time value of a [Date]: milliseconds since the epoch, or [None]
    for the [NaN] of an Invalid Date. *)
Definition Date : Type := option Z.

(** [new Date(s)]: a date-only string is read as midnight UTC of that
    day.  The other forms [Date.parse] accepts (some of them left to the
    host) are outside this model and read as Invalid Date; the results
    below that depend on it assume [YYYY-MM-DD] dates. *)
Definition new_Date (s : string) : Date :=
  match parse_ymd s with
  | Some (y, m, d) => Some (days_from_civil y m d * msPerDay)
  | None => None
  end.

(** [a - b] on dates; [None] is [NaN]. *)
Definition minus (a b : Date) : option Z :=
  match a, b with
  | Some x, Some y => Some (x - y)
  | _, _ => None
  end.

Section LocalTime.
(** The host's local time zone adjustment: the milliseconds to add to
    a UTC time value to get local time (negative west of Greenwich). *)
Variable localTZA : Z -> Z.

Definition local_civil (t : Z) : Z * Z * Z :=
  civil_from_days ((t + localTZA t) / msPerDay).

(** [Date.prototype.getFullYear] (local time). *)
Definition getFullYear (dt : Date) : option Z :=
  match dt with
  | Some t => let '(y, _, _) := local_civil t in Some y
  | None => None
  end.

(** [Date.prototype.getMonth] (local time), January being 0. *)
Definition getMonth (dt : Date) : option Z :=
  match dt with
  | Some t => let '(_, m, _) := local_civil t in Some (m - 1)
  | None => None
  end.
End LocalTime.

(** [x === n] for a number [n] and an [x] that may be [NaN]. *)
Definition strict_eq_num (x : option Z) (n : Z) : bool :=
  match x with
  | Some v => v =? n
  | None => false
  end.

Definition utc : Z -> Z := fun _ => 0.
(** Five hours behind UTC, New York in winter. *)
Definition new_york_winter : Z -> Z := fun _ => -5 * 3600000.

End JsDate.

(** ** Data *)

Inductive Role : Type := Teacher | Student.

#[global] Instance Role_eq_dec : EqDecision Role.
Proof. solve_decision. Defined.

(** [const MOCK_CREDENTIALS] *)
Module Credentials.
Record t : Type := { username : string; password : string }.
End Credentials.

Definition MOCK_CREDENTIALS (r : Role) : Credentials.t :=
  match r with
  | Teacher => {| Credentials.username := "teacher"; Credentials.password := "pass" |}
  | Student => {| Credentials.username := "student"; Credentials.password := "pass" |}
  end.

Module Event.
(** An event object.  The seed events have no [createdAt] and no
    [createdBy]. *)
Record t : Type := {
  id : string;
  title : string;
  date : string;
  description : string;
  category : string;
  createdAt : string;
  createdBy : string
}.

#[global] Instance eq_dec : EqDecision t.
Proof. solve_decision. Defined.

Definition has_title (s : string) (e : t) : bool := String.eqb (title e) s.
End Event.

(** [const MOCK_EVENTS] *)
Definition seed (i t d descr c : string) : Event.t :=
  {| Event.id := i; Event.title := t; Event.date := d; Event.description := descr;
     Event.category := c; Event.createdAt := ""; Event.createdBy := "" |}.

Definition MOCK_EVENTS : list Event.t :=
  [ seed "1" "Sports Day" "2025-10-15"
      "Annual sports meet with various competitions like relay, sprints, and long jump."
      "Sports";
    seed "2" "Essay Writing Competition" "2025-11-05"
      "A creative writing competition for all grades. Topic: The Future of AI."
      "Academic";
    seed "3" "Model United Nations (MUN)" "2025-11-20"
      "Simulating UN procedures, focused on debate and diplomacy."
      "Club";
    seed "4" "Photography Contest" "2025-12-01"
      "Capture moments around the campus. Theme: Everyday Heroes."
      "Art";
    seed "5" "Talent Hunt" "2025-12-15"
      "Showcase your skills in singing, dancing, or stand-up comedy."
      "Culture" ].

Definition EventCategories : list string :=
  ["Sports"; "Academic"; "Club"; "Art"; "Culture"; "Other"].

Module Notice.
Record t : Type := {
  id : string;
  content : string;
  createdAt : string;
  createdBy : string
}.
End Notice.

Module Result.
(** One row of the score form, and of a publication's [results]. *)
Record t : Type := {
  studentId : string;
  studentName : string;
  score : string;
  rank : string
}.

#[global] Instance eq_dec : EqDecision t.
Proof. solve_decision. Defined.
End Result.

Module ScorePayload.
(** The document [handleSubmit] of the score form writes. *)
Record t : Type := {
  eventId : string;
  eventTitle : string;
  results : list Result.t;
  publishedAt : string;
  teacherId : option string
}.

#[global] Instance eq_dec : EqDecision t.
Proof. solve_decision. Defined.
End ScorePayload.

(** *** Arrays that are shared

    The arrays of events ([MOCK_EVENTS], each merged list, each month
    selection) and the [results] array of each score object are reached
    through more than one name, and two views sort such an array in place.
    They live in a heap; a location is an index into it, allocation
    appends, and nothing is freed. *)
Module Heap.
Definition loc : Type := nat.

Record t : Type := {
  arrays : list (list Event.t);
  resultArrays : list (list Result.t)
}.

Definition read (h : t) (l : loc) : list Event.t := default [] (arrays h !! l).

Definition write (h : t) (l : loc) (a : list Event.t) : t :=
  {| arrays := <[l := a]> (arrays h); resultArrays := resultArrays h |}.

Definition alloc (h : t) (a : list Event.t) : t * loc :=
  ({| arrays := arrays h ++ [a]; resultArrays := resultArrays h |}, length (arrays h)).

Definition readResults (h : t) (l : loc) : list Result.t :=
  default [] (resultArrays h !! l).

Definition writeResults (h : t) (l : loc) (a : list Result.t) : t :=
  {| arrays := arrays h; resultArrays := <[l := a]> (resultArrays h) |}.

Definition allocResults (h : t) (a : list Result.t) : t * loc :=
  ({| arrays := arrays h; resultArrays := resultArrays h ++ [a] |},
   length (resultArrays h)).
End Heap.

Module Score.
(** A score object as a listener hands it to the views: the stored
    fields, [results] being an array of its own. *)
Record t : Type := {
  id : string;
  eventId : string;
  eventTitle : string;
  results : Heap.loc;
  publishedAt : string;
  teacherId : option string
}.
End Score.

(** *** Snapshots *)

Module Doc.
(** A document of a snapshot: [doc.id], and [doc.data()], in which a
    stored field named [id] may be present. *)
Record t (D : Type) : Type := { id : string; id_field : option string; data : D }.
Arguments id {D} _.
Arguments id_field {D} _.
Arguments data {D} _.

(** The [id] of [{ id: doc.id, ...doc.data() }]: the spread comes last. *)
Definition entity_id {D} (d : t D) : string := default (id d) (id_field d).
End Doc.

(** [snapshot.docs.map(doc => ({ id: doc.id, ...doc.data() }))], events:
    the stored data is the event without its [id]. *)
Definition event_of_doc (d : Doc.t Event.t) : Event.t :=
  let e := Doc.data d in
  {| Event.id := Doc.entity_id d; Event.title := Event.title e;
     Event.date := Event.date e; Event.description := Event.description e;
     Event.category := Event.category e; Event.createdAt := Event.createdAt e;
     Event.createdBy := Event.createdBy e |}.

Definition notice_of_doc (d : Doc.t Notice.t) : Notice.t :=
  let n := Doc.data d in
  {| Notice.id := Doc.entity_id d; Notice.content := Notice.content n;
     Notice.createdAt := Notice.createdAt n; Notice.createdBy := Notice.createdBy n |}.

Definition score_of_doc (h : Heap.t) (d : Doc.t ScorePayload.t) : Heap.t * Score.t :=
  let p := Doc.data d in
  let '(h', l) := Heap.allocResults h (ScorePayload.results p) in
  (h', {| Score.id := Doc.entity_id d; Score.eventId := ScorePayload.eventId p;
          Score.eventTitle := ScorePayload.eventTitle p; Score.results := l;
          Score.publishedAt := ScorePayload.publishedAt p;
          Score.teacherId := ScorePayload.teacherId p |}).

(** [snapshot.docs.map(...)] for the scores, one object after the other. *)
Fixpoint scores_of_docs (h : Heap.t) (docs : list (Doc.t ScorePayload.t))
  : Heap.t * list Score.t :=
  match docs with
  | [] => (h, [])
  | d :: docs' =>
      let '(h1, s) := score_of_doc h d in
      let '(h2, ss) := scores_of_docs h1 docs' in
      (h2, s :: ss)
  end.

(** *** The merge of the events listener (App.jsx 850)

    [[...MOCK_EVENTS.filter(m => !fetchedEvents.some(f => f.title === m.title)),
      ...fetchedEvents]] *)
Definition mergedEvents (mock fetchedEvents : list Event.t) : list Event.t :=
  List.filter
    (fun m => negb (existsb (fun f => String.eqb (Event.title f) (Event.title m)) fetchedEvents))
    mock
  ++ fetchedEvents.

(** A live event with a title and a date. *)
Definition live (i t d : string) : Event.t :=
  {| Event.id := i; Event.title := t; Event.date := d; Event.description := "";
     Event.category := "Other"; Event.createdAt := "2025-09-01T08:00:00.000Z";
     Event.createdBy := "Teacher" |}.

(** ** The document store, as far as the score form writes to it *)

Module Firestore.
(** The [scores] collection, keyed by document id, and the faults ahead:
    one flag for each coming write, [true] when that write is going to be
    rejected. *)
Record t : Type := {
  scores : gmap string ScorePayload.t;
  faults : list bool
}.

(** [setDoc(doc(collection, id), data)]: creates the document or replaces
    it whole. *)
Definition setDoc (id : string) (data : ScorePayload.t) (fs : t)
  : Retry.Completion string unit * t :=
  match faults fs with
  | true :: rest => (Retry.Rejected "unavailable", {| scores := scores fs; faults := rest |})
  | _ :: rest => (Retry.Fulfilled tt, {| scores := <[id := data]> (scores fs); faults := rest |})
  | [] => (Retry.Fulfilled tt, {| scores := <[id := data]> (scores fs); faults := [] |})
  end.

(** One of the first [n] writes goes through. *)
Fixpoint goes_through (n : nat) (fl : list bool) : bool :=
  match n with
  | O => false
  | S n' =>
      match fl with
      | true :: rest => goes_through n' rest
      | _ => true
      end
  end.
End Firestore.

(** ** The application component ([App], App.jsx 791-999) *)

Module App.

(** The names [setView] is called with. *)
Inductive View : Type :=
| InitialRoleChoice | Login | TeacherDashboard | StudentDashboard
| EventCalendar | EventDetails | AddEvent | AddScores
| ViewResults | NoticeBoard | StudentProfile.

#[global] Instance View_eq_dec : EqDecision View.
Proof. solve_decision. Defined.

Definition all_views : list View :=
  [ InitialRoleChoice; Login; TeacherDashboard; StudentDashboard; EventCalendar;
    EventDetails; AddEvent; AddScores; ViewResults; NoticeBoard; StudentProfile ].

(** The Firestore handle of [getFirestore]. *)
Inductive Db : Type := firestore.

(** The [useState] cells of [App] ([auth] is written and never read). *)
Record State : Type := {
  db : option Db;
  isAuthReady : bool;
  userRole : option Role;
  targetRole : option Role;
  userId : option string;
  view : View;
  selectedEvent : option Heap.loc;
  events : Heap.loc;
  notices : list Notice.t;
  scores : list Score.t;
  error : option string
}.

Definition setDb (x : option Db) (s : State) : State :=
  {| db := x; isAuthReady := isAuthReady s; userRole := userRole s;
     targetRole := targetRole s; userId := userId s; view := view s;
     selectedEvent := selectedEvent s; events := events s; notices := notices s;
     scores := scores s; error := error s |}.
Definition setIsAuthReady (x : bool) (s : State) : State :=
  {| db := db s; isAuthReady := x; userRole := userRole s;
     targetRole := targetRole s; userId := userId s; view := view s;
     selectedEvent := selectedEvent s; events := events s; notices := notices s;
     scores := scores s; error := error s |}.
Definition setUserRole (x : option Role) (s : State) : State :=
  {| db := db s; isAuthReady := isAuthReady s; userRole := x;
     targetRole := targetRole s; userId := userId s; view := view s;
     selectedEvent := selectedEvent s; events := events s; notices := notices s;
     scores := scores s; error := error s |}.
Definition setTargetRole (x : option Role) (s : State) : State :=
  {| db := db s; isAuthReady := isAuthReady s; userRole := userRole s;
     targetRole := x; userId := userId s; view := view s;
     selectedEvent := selectedEvent s; events := events s; notices := notices s;
     scores := scores s; error := error s |}.
Definition setUserId (x : option string) (s : State) : State :=
  {| db := db s; isAuthReady := isAuthReady s; userRole := userRole s;
     targetRole := targetRole s; userId := x; view := view s;
     selectedEvent := selectedEvent s; events := events s; notices := notices s;
     scores := scores s; error := error s |}.
Definition setView (x : View) (s : State) : State :=
  {| db := db s; isAuthReady := isAuthReady s; userRole := userRole s;
     targetRole := targetRole s; userId := userId s; view := x;
     selectedEvent := selectedEvent s; events := events s; notices := notices s;
     scores := scores s; error := error s |}.
Definition setSelectedEvent (x : option Heap.loc) (s : State) : State :=
  {| db := db s; isAuthReady := isAuthReady s; userRole := userRole s;
     targetRole := targetRole s; userId := userId s; view := view s;
     selectedEvent := x; events := events s; notices := notices s;
     scores := scores s; error := error s |}.
Definition setEvents (x : Heap.loc) (s : State) : State :=
  {| db := db s; isAuthReady := isAuthReady s; userRole := userRole s;
     targetRole := targetRole s; userId := userId s; view := view s;
     selectedEvent := selectedEvent s; events := x; notices := notices s;
     scores := scores s; error := error s |}.
Definition setNotices (x : list Notice.t) (s : State) : State :=
  {| db := db s; isAuthReady := isAuthReady s; userRole := userRole s;
     targetRole := targetRole s; userId := userId s; view := view s;
     selectedEvent := selectedEvent s; events := events s; notices := x;
     scores := scores s; error := error s |}.
Definition setScores (x : list Score.t) (s : State) : State :=
  {| db := db s; isAuthReady := isAuthReady s; userRole := userRole s;
     targetRole := targetRole s; userId := userId s; view := view s;
     selectedEvent := selectedEvent s; events := events s; notices := notices s;
     scores := x; error := error s |}.
Definition setError (x : option string) (s : State) : State :=
  {| db := db s; isAuthReady := isAuthReady s; userRole := userRole s;
     targetRole := targetRole s; userId := userId s; view := view s;
     selectedEvent := selectedEvent s; events := events s; notices := notices s;
     scores := scores s; error := x |}.

(** The module-level array [MOCK_EVENTS] is the first array of the heap;
    [useState(MOCK_EVENTS)] makes the [events] cell name that very array. *)
Definition MOCK_EVENTS_loc : Heap.loc := 0%nat.

Definition initial_heap : Heap.t :=
  {| Heap.arrays := [MOCK_EVENTS]; Heap.resultArrays := [] |}.

Definition initial : State :=
  {| db := None; isAuthReady := false; userRole := None; targetRole := None;
     userId := None; view := InitialRoleChoice; selectedEvent := None;
     events := MOCK_EVENTS_loc; notices := []; scores := []; error := None |}.

(** *** 1. Initialisation and authentication (App.jsx 811-838) *)

(** The [try] block up to [setAuth]; [ok] tells whether [initializeApp],
    [getFirestore] and [getAuth] returned. *)
Definition initialize (ok : bool) (s : State) : State :=
  if ok then setDb (Some firestore) s
  else setError (Some "Failed to initialize Firebase services.") s.

Section AuthObserver.
Context {E : Type}.
(** [__initial_auth_token], or [null]. *)
Variable initialAuthToken : option string.
(** What the two sign-in promises of the provider settle to. *)
Variable signInWithCustomToken : string -> Retry.Completion E unit.
Variable signInAnonymously : Retry.Completion E unit.

(** The [async (user) => ...] callback given to [onAuthStateChanged];
    [user] is [Some uid] or [null].  An awaited promise that rejects
    throws at the [await]: the callback's own promise rejects and the
    statements after the [await] do not run. *)
Definition signIn : Retry.Completion E unit :=
  match initialAuthToken with
  | Some token =>
      if Js.truthy token then signInWithCustomToken token else signInAnonymously
  | None => signInAnonymously
  end.

Definition authObserver (user : option string) (s : State)
  : Retry.Completion E unit * State :=
  match user with
  | Some uid => (Retry.Fulfilled tt, setIsAuthReady true (setUserId (Some uid) s))
  | None =>
      match signIn with
      | Retry.Fulfilled _ => (Retry.Fulfilled tt, setIsAuthReady true s)
      | Retry.Rejected e => (Retry.Rejected e, s)
      end
  end.
End AuthObserver.

(** *** 2. The listeners (App.jsx 841-882) *)

(** The effect's guard and its first statement: [None] when the effect
    returns without subscribing. *)
Definition subscribe (s : State) : option State :=
  match db s with
  | Some _ => if isAuthReady s then Some (setError None s) else None
  | None => None
  end.

Definition onEventsSnapshot (docs : list (Doc.t Event.t)) (h : Heap.t) (s : State)
  : Heap.t * State :=
  let fetchedEvents := List.map event_of_doc docs in
  let merged := mergedEvents (Heap.read h MOCK_EVENTS_loc) fetchedEvents in
  let '(h', l) := Heap.alloc h merged in
  (h', setEvents l s).

Definition onEventsError (s : State) : State :=
  setError (Some "Could not load events.") s.

Definition onNoticesSnapshot (docs : list (Doc.t Notice.t)) (s : State) : State :=
  setNotices (List.map notice_of_doc docs) s.

Definition onNoticesError (s : State) : State :=
  setError (Some "Could not load notices.") s.

Definition onScoresSnapshot (docs : list (Doc.t ScorePayload.t)) (h : Heap.t) (s : State)
  : Heap.t * State :=
  let '(h', fetchedScores) := scores_of_docs h docs in
  (h', setScores fetchedScores s).

Definition onScoresError (s : State) : State :=
  setError (Some "Could not load scores.") s.

(** The three collections a listener can fail for. *)
Inductive Collection : Type := Events | Notices | Scores.

Definition onError (c : Collection) : State -> State :=
  match c with
  | Events => onEventsError
  | Notices => onNoticesError
  | Scores => onScoresError
  end.

Definition errorMessage (c : Collection) : string :=
  match c with
  | Events => "Could not load events."
  | Notices => "Could not load notices."
  | Scores => "Could not load scores."
  end.

(** *** Handlers *)

Definition handleRoleSelect (role : Role) (s : State) : State :=
  setView Login (setTargetRole (Some role) s).

Definition dashboardOf (role : option Role) : View :=
  match role with
  | Some Teacher => TeacherDashboard
  | _ => StudentDashboard
  end.

Definition handleLogin (role : Role) (s : State) : State :=
  setView (dashboardOf (Some role)) (setTargetRole None (setUserRole (Some role) s)).

(** The [Log Out] button of both dashboards (App.jsx 733, 748). *)
Definition dashboardLogOut (s : State) : State := setView InitialRoleChoice s.

(** The button of the fixed header (App.jsx 985). *)
Definition headerLogOut (s : State) : State :=
  setView InitialRoleChoice (setUserRole None s).

(** *** [renderView] (App.jsx 898-948) *)

(** What [renderView] returns: the component, with the props the results
    below look at. *)
Inductive Element : Type :=
| ErrorScreen (message : string)
| LoadingScreen
| El_InitialRoleChoiceView
| El_LoginView (targetRole : option Role)
| El_TeacherDashboard
| El_StudentDashboard
| El_EventCalendarView (events : Heap.loc) (userRole : option Role)
| El_EventDetailsView (events : Heap.loc) (userRole : option Role)
| El_AddEventView (userRole : option Role)
| El_AddScoresView (events : Heap.loc) (userId : option string)
| AccessDenied
| El_ViewResultsView (userRole : option Role) (scores : list Score.t) (events : Heap.loc)
| El_NoticeBoardView (notices : list Notice.t) (userRole : option Role)
    (userId : option string)
| LoadingNotices
| El_StudentProfileView (userId : option string).

(** [if (error)]: [null] and the empty string are falsy. *)
Definition error_set (s : State) : option string :=
  match error s with
  | Some msg => if Js.truthy msg then Some msg else None
  | None => None
  end.

Definition is_teacher (r : option Role) : bool :=
  match r with
  | Some Teacher => true
  | _ => false
  end.

Definition has_db (s : State) : bool :=
  match db s with
  | Some _ => true
  | None => false
  end.

Definition renderView (s : State) : Element :=
  match error_set s with
  | Some msg => ErrorScreen msg
  | None =>
      if negb (isAuthReady s) then LoadingScreen
      else
        match view s with
        | InitialRoleChoice => El_InitialRoleChoiceView
        | Login => El_LoginView (targetRole s)
        | TeacherDashboard => El_TeacherDashboard
        | StudentDashboard => El_StudentDashboard
        | EventCalendar => El_EventCalendarView (events s) (userRole s)
        | EventDetails =>
            (* [selectedEvent || events]: an array is truthy, [null] is not *)
            El_EventDetailsView (default (events s) (selectedEvent s)) (userRole s)
        | AddEvent =>
            if is_teacher (userRole s) && has_db s
            then El_AddEventView (userRole s) else AccessDenied
        | AddScores =>
            if is_teacher (userRole s) && has_db s
            then El_AddScoresView (events s) (userId s) else AccessDenied
        | ViewResults => El_ViewResultsView (userRole s) (scores s) (events s)
        | NoticeBoard =>
            match db s with
            | Some _ => El_NoticeBoardView (notices s) (userRole s) (userId s)
            | None => LoadingNotices
            end
        | StudentProfile => El_StudentProfileView (userId s)
        end
  end.

(** The component of a view. *)
Definition renders (v : View) (el : Element) : bool :=
  match v, el with
  | InitialRoleChoice, El_InitialRoleChoiceView
  | Login, El_LoginView _
  | TeacherDashboard, El_TeacherDashboard
  | StudentDashboard, El_StudentDashboard
  | EventCalendar, El_EventCalendarView _ _
  | EventDetails, El_EventDetailsView _ _
  | AddEvent, El_AddEventView _
  | AddScores, El_AddScoresView _ _
  | ViewResults, El_ViewResultsView _ _ _
  | NoticeBoard, El_NoticeBoardView _ _ _
  | StudentProfile, El_StudentProfileView _ => true
  | _, _ => false
  end.

(** The views [renderView] guards by role. *)
Definition guarded (v : View) : bool :=
  match v with
  | AddEvent | AddScores => true
  | _ => false
  end.

(** The view a collection is looked at in. *)
Definition shows (c : Collection) (el : Element) : bool :=
  match c, el with
  | Events, (El_EventCalendarView _ _ | El_EventDetailsView _ _) => true
  | Notices, El_NoticeBoardView _ _ _ => true
  | Scores, El_ViewResultsView _ _ _ => true
  | _, _ => false
  end.

End App.

(** ** The views that compute *)

(** *** The calendar ([EventCalendarView], App.jsx 242-316) *)

Module EventCalendarView.

Definition digit_char (d : Z) : ascii := ascii_of_N (Z.to_N (48 + d)).

Fixpoint decimal (fuel : nat) (n : Z) (acc : string) : string :=
  match fuel with
  | O => acc
  | S fuel' =>
      let acc' := String (digit_char (n mod 10)) acc in
      if n / 10 =? 0 then acc' else decimal fuel' (n / 10) acc'
  end.

(** [n.toString()] for a whole number [0 <= n < 10^20]. *)
Definition toString (n : Z) : string := decimal 20 n "".

(** [day.toString().padStart(2, '0')] *)
Definition formatDay (day : Z) : string :=
  let s := toString day in
  if (String.length s <? 2)%nat then "0" +:+ s else s.

(** [getEventsForDay]: the number of events on a day of the displayed
    month, found by comparing date strings. *)
Definition getEventsForDay (currentYear currentMonth : Z) (events : list Event.t)
  (day : Z) : nat :=
  let dayString :=
    toString currentYear +:+ "-" +:+ formatDay (currentMonth + 1) +:+ "-" +:+ formatDay day in
  length (List.filter (fun e => String.eqb (Event.date e) dayString) events).

Section GoToDetails.
Variable localTZA : Z -> Z.

(** The test of [goToDetails]:
    [new Date(e.date).getMonth() === currentMonth &&
     new Date(e.date).getFullYear() === currentYear] *)
Definition inCurrentMonth (currentYear currentMonth : Z) (e : Event.t) : bool :=
  JsDate.strict_eq_num
    (JsDate.getMonth localTZA (JsDate.new_Date (Event.date e))) currentMonth
  && JsDate.strict_eq_num
       (JsDate.getFullYear localTZA (JsDate.new_Date (Event.date e))) currentYear.

(** [goToDetails]; [filter] makes a new array. *)
Definition goToDetails (currentYear currentMonth : Z) (events : Heap.loc)
  (h : Heap.t) (s : App.State) : Heap.t * App.State :=
  let currentMonthEvents :=
    List.filter (inCurrentMonth currentYear currentMonth) (Heap.read h events) in
  let '(h', l) := Heap.alloc h currentMonthEvents in
  (h', App.setView App.EventDetails (App.setSelectedEvent (Some l) s)).
End GoToDetails.

End EventCalendarView.

(** *** The details ([EventDetailsView], App.jsx 318-366) *)

Module EventDetailsView.

(** [(a, b) => new Date(a.date) - new Date(b.date)], [NaN] read as [+0]. *)
Definition byDate (a b : Event.t) : Z :=
  default 0 (JsDate.minus (JsDate.new_Date (Event.date a))
                          (JsDate.new_Date (Event.date b))).

(** The accumulator of the [reduce]: the own properties of [acc] in the
    order they were created. *)
Definition Groups : Type := list (string * list Event.t).

Definition own (acc : Groups) (k : string) : bool :=
  existsb (fun p => String.eqb (fst p) k) acc.

(** [acc[dateKey].push(event)] on an own property. *)
Fixpoint push (k : string) (e : Event.t) (acc : Groups) : Groups :=
  match acc with
  | [] => []
  | (k', l) :: acc' =>
      if String.eqb k' k then (k', (l ++ [e])%list) :: acc' else (k', l) :: push k e acc'
  end.

(** [const dateKey = event.date || 'TBD'] *)
Definition dateKey (event : Event.t) : string := Js.or_else (Event.date event) "TBD".

(** One step of the [reduce].  [None] is the [TypeError] of calling
    [push] on what [acc] inherits under that name. *)
Definition step (acc : option Groups) (event : Event.t) : option Groups :=
  match acc with
  | None => None
  | Some acc =>
      if own acc (dateKey event) then Some (push (dateKey event) event acc)
      else if Js.inherited (dateKey event) then None
      else Some (acc ++ [(dateKey event, [event])])%list
  end.

Definition groupedEvents (sortedEvents : list Event.t) : option Groups :=
  fold_left step sortedEvents (Some []).

(** [Object.entries]: array-index keys first, by value, then the other
    keys in creation order. *)
Definition index_of (p : string * list Event.t) : Z :=
  match Js.array_index (fst p) with
  | Some n => Z.of_N n
  | None => 0
  end.

Definition Object_entries (acc : Groups) : Groups :=
  (Js.sort (fun p q => index_of p - index_of q)
     (List.filter (fun p => bool_decide (is_Some (Js.array_index (fst p)))) acc)
   ++ List.filter (fun p => negb (bool_decide (is_Some (Js.array_index (fst p))))) acc)%list.

(** The body of the component: [events] is always an array here, so
    [listToDisplay] is [events]; [sort] sorts that array where it is and
    returns it.  The result is the heap after rendering and the date
    groups in display order. *)
Definition render (h : Heap.t) (events : Heap.loc) : Heap.t * option Groups :=
  let listToDisplay := events in
  let sortedEvents := Js.sort byDate (Heap.read h listToDisplay) in
  let h' := Heap.write h listToDisplay sortedEvents in
  (h', option_map Object_entries (groupedEvents sortedEvents)).

(** The [Back to Dashboard] button. *)
Definition backToDashboard (s : App.State) : App.State :=
  App.setSelectedEvent None (App.setView (App.dashboardOf (App.userRole s)) s).

End EventDetailsView.

(** *** The results ([ViewResultsView], App.jsx 570-628) *)

Module ViewResultsView.

Section ResultModal.
(** [String.prototype.localeCompare] with
    [{ numeric: true, sensitivity: 'base' }]: the host's collation. *)
Variable localeCompare : string -> string -> Z.

Definition byRank (a b : Result.t) : Z :=
  localeCompare (Js.or_else (Result.rank a) "") (Js.or_else (Result.rank b) "").

(** [ResultModal]: [score.results.sort(...)] sorts the array of the
    score object where it is; the rows are then listed in that order. *)
Definition ResultModal (h : Heap.t) (score : Score.t) : Heap.t * list Result.t :=
  let sorted := Js.sort byRank (Heap.readResults h (Score.results score)) in
  (Heap.writeResults h (Score.results score) sorted, sorted).
End ResultModal.

(** The number a string starts with. *)
Fixpoint leading_number (acc : N) (s : string) : N :=
  match s with
  | EmptyString => acc
  | String a s' =>
      match Js.digit_of a with
      | Some d => leading_number (acc * 10 + d)%N s'
      | None => acc
      end
  end.

(** A collation that orders ranks such as [1st], [2nd], [10th] by the
    number they start with. *)
Definition by_leading_number (a b : string) : Z :=
  Z.of_N (leading_number 0 a) - Z.of_N (leading_number 0 b).

End ViewResultsView.

(** *** The score form ([AddScoresView], App.jsx 448-568) *)

Module AddScoresView.

Record Form : Type := {
  selectedEventId : string;
  scoreData : list Result.t;
  loading : bool;
  message : string
}.

Definition mockStudents : list (string * string) :=
  [ ("student-A", "Alfie B."); ("student-B", "Betty C.");
    ("student-C", "Charlie D."); ("student-D", "Dana E.") ].

(** The rows the effect on [selectedEventId] starts the form with. *)
Definition initialScores : list Result.t :=
  List.map (fun st => {| Result.studentId := fst st; Result.studentName := snd st;
                         Result.score := ""; Result.rank := "" |}) mockStudents.

Inductive Field : Type := score | rank.

(** [handleScoreChange] *)
Definition handleScoreChange (studentId : string) (field : Field) (value : string)
  (f : Form) : Form :=
  {| selectedEventId := selectedEventId f;
     scoreData :=
       List.map (fun s =>
         if String.eqb (Result.studentId s) studentId then
           match field with
           | score => {| Result.studentId := Result.studentId s;
                         Result.studentName := Result.studentName s;
                         Result.score := value; Result.rank := Result.rank s |}
           | rank => {| Result.studentId := Result.studentId s;
                        Result.studentName := Result.studentName s;
                        Result.score := Result.score s; Result.rank := value |}
           end
         else s) (scoreData f);
     loading := loading f; message := message f |}.

(** [s => s.score || s.rank] *)
Definition filled (s : Result.t) : bool :=
  Js.truthy (Result.score s) || Js.truthy (Result.rank s).

Definition validScores (f : Form) : list Result.t := List.filter filled (scoreData f).

(** [events.find(e => e.id === selectedEventId)?.title || 'Unknown Event'] *)
Definition eventTitle (events : list Event.t) (f : Form) : string :=
  Js.or_else
    (match List.find (fun e => String.eqb (Event.id e) (selectedEventId f)) events with
     | Some e => Event.title e
     | None => ""
     end)
    "Unknown Event".

(** [scorePayload]; [now] is [new Date().toISOString()]. *)
Definition scorePayload (events : list Event.t) (userId : option string) (now : string)
  (f : Form) : ScorePayload.t :=
  {| ScorePayload.eventId := selectedEventId f;
     ScorePayload.eventTitle := eventTitle events f;
     ScorePayload.results := validScores f;
     ScorePayload.publishedAt := now;
     ScorePayload.teacherId := userId |}.

Definition published : string := "Scores successfully published/updated!".
Definition failed : string := "Failed to publish scores. Please try again.".

(** [handleSubmit]: the form, the store and the calls and waits of the
    retry wrapper afterwards. *)
Definition handleSubmit (events : list Event.t) (userId : option string) (now : string)
  (f : Form) (fs : Firestore.t) : Form * Firestore.t * list Retry.Effect :=
  if negb (Js.truthy (selectedEventId f)) then (f, fs, [])
  else
    let docId := selectedEventId f in
    let payload := scorePayload events userId now f in
    match Retry.withRetry (Firestore.setDoc docId payload) Retry.default_maxRetries fs with
    | (Retry.Fulfilled _, fs', tr) =>
        ({| selectedEventId := ""; scoreData := []; loading := false;
            message := published |}, fs', tr)
    | (Retry.Rejected _, fs', tr) =>
        ({| selectedEventId := selectedEventId f; scoreData := scoreData f;
            loading := false; message := failed |}, fs', tr)
    end.

End AddScoresView.

(** *** The login form ([LoginView], App.jsx 147-235) *)

Module LoginView.

Record Form : Type := {
  username : Js.ustring;
  password : Js.ustring;
  error : string;
  loading : bool
}.

Definition invalid : string := "Invalid credentials. Please try again.".

(** The test of [handleSubmit]. *)
Definition accepts (role : Role) (f : Form) : bool :=
  let inputUsername := Js.toLowerCase (Js.trim (username f)) in
  let inputPassword := Js.trim (password f) in
  let expected := MOCK_CREDENTIALS role in
  Js.ustring_eqb inputUsername (Js.units (Credentials.username expected))
  && Js.ustring_eqb inputPassword (Js.units (Credentials.password expected)).

(** [handleSubmit], with [onLogin = handleLogin].  [None] is the
    [TypeError] of reading [expected.username] when [targetRole] is
    [null]. *)
Definition handleSubmit (targetRole : option Role) (f : Form) (s : App.State)
  : option (Form * App.State) :=
  match targetRole with
  | None => None
  | Some role =>
      if accepts role f
      then Some ({| username := username f; password := password f; error := "";
                    loading := false |}, App.handleLogin role s)
      else Some ({| username := username f; password := password f; error := invalid;
                    loading := false |}, s)
  end.

End LoginView.

(** ** The collections written with [addDoc] *)

Module Collection.
(** A collection of the store: its documents in the order they were added,
    the number of document ids given out so far, and the faults ahead (one
    flag for each coming write, [true] when that write is rejected). *)
Record t (D : Type) : Type := {
  docs : list (Doc.t D);
  issued : nat;
  faults : list bool
}.
Arguments docs {D} _.
Arguments issued {D} _.
Arguments faults {D} _.

Section AddDoc.
Context {D : Type}.
(** The ids [addDoc] makes up, one for each call. *)
Variable autoId : nat -> string.

(** [addDoc(collection, data)]: a new document under a new id.  A rejected
    write leaves no document. *)
Definition addDoc (data : D) (c : t D) : Retry.Completion string unit * t D :=
  let added := {| Doc.id := autoId (issued c); Doc.id_field := None; Doc.data := data |} in
  match faults c with
  | true :: rest =>
      (Retry.Rejected "unavailable",
       {| docs := docs c; issued := S (issued c); faults := rest |})
  | _ :: rest =>
      (Retry.Fulfilled tt,
       {| docs := docs c ++ [added]; issued := S (issued c); faults := rest |})
  | [] =>
      (Retry.Fulfilled tt,
       {| docs := docs c ++ [added]; issued := S (issued c); faults := [] |})
  end.
End AddDoc.

(** A collection that refuses the next [n] writes. *)
Definition refusing (n : nat) : t Event.t :=
  {| docs := []; issued := 0; faults := repeat true n |}.

Definition numbered (n : nat) : string :=
  String (ascii_of_nat (48 + n)) EmptyString.
End Collection.

(** *** The event form ([AddEventView], App.jsx 368-446) *)

Module AddEventView.

Record FormData : Type := {
  title : string;
  date : string;
  description : string;
  category : string
}.

Record Form : Type := {
  formData : FormData;
  loading : bool;
  message : string
}.

(** [{ title: '', date: '', description: '', category: EventCategories[0] }] *)
Definition blank : FormData :=
  {| title := ""; date := ""; description := ""; category := "Sports" |}.

Inductive Field : Type := Title | Date | Description | Category.

(** [handleChange]: [setFormData(prev => ({ ...prev, [name]: value }))] *)
Definition handleChange (name : Field) (value : string) (f : Form) : Form :=
  let d := formData f in
  {| formData :=
       match name with
       | Title => {| title := value; date := date d; description := description d;
                     category := category d |}
       | Date => {| title := title d; date := value; description := description d;
                    category := category d |}
       | Description => {| title := title d; date := date d; description := value;
                           category := category d |}
       | Category => {| title := title d; date := date d; description := description d;
                        category := value |}
       end;
     loading := loading f; message := message f |}.

Definition fillIn : string := "Please fill in all fields.".
Definition added : string := "Event successfully added!".
Definition failed : string := "Failed to add event. Please try again.".

(** The role as the string it is in the source. *)
Definition role_name (r : option Role) : string :=
  match r with
  | Some Teacher => "Teacher"
  | Some Student => "Student"
  | None => ""
  end.

(** [newEvent]: the form's fields, [createdAt] and [createdBy]; the
    document has no [id] field. *)
Definition newEvent (userRole : option Role) (now : string) (d : FormData) : Event.t :=
  {| Event.id := ""; Event.title := title d; Event.date := date d;
     Event.description := description d; Event.category := category d;
     Event.createdAt := now; Event.createdBy := role_name userRole |}.

Section Submit.
Variable autoId : nat -> string.

(** [handleSubmit]: the form, the collection and the calls and waits of the
    retry wrapper afterwards. *)
Definition handleSubmit (userRole : option Role) (now : string) (f : Form)
  (c : Collection.t Event.t) : Form * Collection.t Event.t * list Retry.Effect :=
  let d := formData f in
  if negb (Js.truthy (title d)) || negb (Js.truthy (date d))
     || negb (Js.truthy (description d))
  then ({| formData := d; loading := false; message := fillIn |}, c, [])
  else
    match Retry.withRetry (Collection.addDoc autoId (newEvent userRole now d))
            Retry.default_maxRetries c with
    | (Retry.Fulfilled _, c', tr) =>
        ({| formData := blank; loading := false; message := added |}, c', tr)
    | (Retry.Rejected _, c', tr) =>
        ({| formData := d; loading := false; message := failed |}, c', tr)
    end.
End Submit.

End AddEventView.

(** *** The notice board ([NoticeBoardView], App.jsx 630-715) *)

Module NoticeBoardView.

Record Form : Type := {
  noticeText : string;
  loading : bool;
  message : string
}.

Definition empty : string := "Notice cannot be empty.".
Definition sent : string := "Notice sent successfully!".
Definition failed : string := "Failed to send notice. Please try again.".

(** [newNotice]; [userId] is [null] until the provider reports a user. *)
Definition newNotice (userId : option string) (now : string) (f : Form) : Notice.t :=
  {| Notice.id := ""; Notice.content := noticeText f; Notice.createdAt := now;
     Notice.createdBy := default "" userId |}.

Section Send.
Variable autoId : nat -> string.

(** [handleSendNotice] *)
Definition handleSendNotice (userId : option string) (now : string) (f : Form)
  (c : Collection.t Notice.t) : Form * Collection.t Notice.t * list Retry.Effect :=
  if negb (Js.truthy (noticeText f))
  then ({| noticeText := noticeText f; loading := false; message := empty |}, c, [])
  else
    match Retry.withRetry (Collection.addDoc autoId (newNotice userId now f))
            Retry.default_maxRetries c with
    | (Retry.Fulfilled _, c', tr) =>
        ({| noticeText := ""; loading := false; message := sent |}, c', tr)
    | (Retry.Rejected _, c', tr) =>
        ({| noticeText := noticeText f; loading := false; message := failed |}, c', tr)
    end.
End Send.

End NoticeBoardView.

(** *** The calendar grid (the rest of [EventCalendarView], App.jsx 243-273, 282-287) *)

Module CalendarGrid.

(** [new Date(year, month, day)] as the day number of the local date it
    denotes: the month may lie outside 0-11 and the day outside the month,
    and both carry over; a year from 0 to 99 is read as 1900 + year.  Read
    back with the local getters, such a date gives the fields of that day
    (clock changes at midnight are not modelled). *)
Definition local_Date (year month day : Z) : Z :=
  let yr := if (0 <=? year) && (year <=? 99) then 1900 + year else year in
  let ym := yr + month / 12 in
  let mn := month mod 12 in
  JsDate.days_from_civil ym (mn + 1) 1 + (day - 1).

Definition getFullYear (date : Z) : Z := let '(y, _, _) := JsDate.civil_from_days date in y.
Definition getMonth (date : Z) : Z := let '(_, m, _) := JsDate.civil_from_days date in m - 1.
Definition getDate (date : Z) : Z := let '(_, _, d) := JsDate.civil_from_days date in d.

(** [useState(new Date(now.getFullYear(), now.getMonth(), 1))] *)
Definition initial_date (now : Z) : Z := local_Date (getFullYear now) (getMonth now) 1.

(** [changeMonth]: [new Date(prevDate.getFullYear(), prevDate.getMonth() + delta, 1)] *)
Definition changeMonth (delta : Z) (prevDate : Z) : Z :=
  local_Date (getFullYear prevDate) (getMonth prevDate + delta) 1.

(** [getDaysInMonth]: [new Date(year, month + 1, 0).getDate()] *)
Definition getDaysInMonth (year month : Z) : Z := getDate (local_Date year (month + 1) 0).



(** The integers [from], [from + 1], ... (as many as [n]). *)
Fixpoint upto (n : nat) (from : Z) : list Z :=
  match n with
  | O => []
  | S n' => from :: upto n' (from + 1)
  end.



End CalendarGrid.

(** ** What can happen to a session: the controls on screen and the callbacks *)

Module Ui.

(** The [viewName]s of the [DashboardLink]s (App.jsx 728-731, 743-746). *)
Definition teacherLinks : list App.View :=
  [App.EventCalendar; App.AddEvent; App.NoticeBoard; App.AddScores].
Definition studentLinks : list App.View :=
  [App.EventCalendar; App.NoticeBoard; App.ViewResults; App.StudentProfile].

(** The controls that call a state setter of [App]. *)
Inductive Action : Type :=
| SelectRole (role : Role)                  (* the two buttons of the first screen *)
| SubmitLogin (form : LoginView.Form)       (* the login form, with what was typed *)
| BackToRoleSelection                       (* the link under the login form *)
| FollowLink (v : App.View)                 (* a [DashboardLink] *)
| DashboardLogOut
| HeaderLogOut
| GoToEventDetails (currentYear currentMonth : Z)
| AddNewEvent                               (* the calendar's button for teachers *)
| DetailsBack
| NoticeBack
| CancelAddEvent
| LeaveAddScores
| LeaveResults
| LeaveProfile.

Section Steps.
Variable localTZA : Z -> Z.
Variable localeCompare : string -> string -> Z.

(** The effect of a control, [None] when it is not on screen.  The header
    with its log-out button is there whenever [userRole] is set; every
    other control belongs to the component [renderView] returns. *)
Definition perform (a : Action) (h : Heap.t) (s : App.State) : option (Heap.t * App.State) :=
  match a, App.renderView s with
  | HeaderLogOut, _ =>
      match App.userRole s with
      | Some _ => Some (h, App.headerLogOut s)
      | None => None
      end
  | SelectRole role, App.El_InitialRoleChoiceView => Some (h, App.handleRoleSelect role s)
  | SubmitLogin form, App.El_LoginView targetRole =>
      match LoginView.handleSubmit targetRole form s with
      | Some (_, s') => Some (h, s')
      | None => None
      end
  | BackToRoleSelection, App.El_LoginView _ => Some (h, App.setView App.InitialRoleChoice s)
  | FollowLink v, App.El_TeacherDashboard =>
      if bool_decide (v ∈ teacherLinks) then Some (h, App.setView v s) else None
  | FollowLink v, App.El_StudentDashboard =>
      if bool_decide (v ∈ studentLinks) then Some (h, App.setView v s) else None
  | DashboardLogOut, (App.El_TeacherDashboard | App.El_StudentDashboard) =>
      Some (h, App.dashboardLogOut s)
  | GoToEventDetails currentYear currentMonth, App.El_EventCalendarView events _ =>
      Some (EventCalendarView.goToDetails localTZA currentYear currentMonth events h s)
  | AddNewEvent, App.El_EventCalendarView _ userRole =>
      if App.is_teacher userRole then Some (h, App.setView App.AddEvent s) else None
  | DetailsBack, App.El_EventDetailsView _ userRole =>
      Some (h, App.setSelectedEvent None (App.setView (App.dashboardOf userRole) s))
  | NoticeBack, App.El_NoticeBoardView _ userRole _ =>
      Some (h, App.setView (App.dashboardOf userRole) s)
  | CancelAddEvent, App.El_AddEventView _ => Some (h, App.setView App.TeacherDashboard s)
  | LeaveAddScores, App.El_AddScoresView _ _ => Some (h, App.setView App.TeacherDashboard s)
  | LeaveResults, App.El_ViewResultsView _ _ _ => Some (h, App.setView App.StudentDashboard s)
  | LeaveProfile, App.El_StudentProfileView _ => Some (h, App.setView App.StudentDashboard s)
  | _, _ => None
  end.

(** What happens to a session: a control is used; a listener delivers a
    snapshot or an error (the listeners are there once the store handle is
    set and the session is ready, and the effect that opens them clears the
    error); the provider reports an authentication state (the observer is
    registered once the store handle is set); React renders the current
    view (the details view sorts its array then); the results of the
    [i]-th publication are opened (the modal sorts them). *)
Inductive Event : Type :=
| Click (a : Action)
| EventsSnapshot (docs : list (Doc.t Event.t))
| NoticesSnapshot (docs : list (Doc.t Notice.t))
| ScoresSnapshot (docs : list (Doc.t ScorePayload.t))
| ListenerError (c : App.Collection)
| AuthStateChanged (user : option string) (signIn : Retry.Completion string unit)
| Subscribed
| Render
| OpenResult (i : nat).

(** The guard of the listeners' effect: [if (!db || !isAuthReady) return]. *)
Definition listening (s : App.State) : bool := App.has_db s && App.isAuthReady s.

Definition step (ev : Event) (h : Heap.t) (s : App.State) : option (Heap.t * App.State) :=
  match ev with
  | Click a => perform a h s
  | EventsSnapshot docs =>
      if listening s then Some (App.onEventsSnapshot docs h s) else None
  | NoticesSnapshot docs =>
      if listening s then Some (h, App.onNoticesSnapshot docs s) else None
  | ScoresSnapshot docs =>
      if listening s then Some (App.onScoresSnapshot docs h s) else None
  | ListenerError c => if listening s then Some (h, App.onError c s) else None
  | Subscribed =>
      match App.subscribe s with
      | Some s' => Some (h, s')
      | None => None
      end
  | AuthStateChanged user signIn =>
      if App.has_db s
      then Some (h, snd (App.authObserver None (fun _ => signIn) signIn user s))
      else None
  | Render =>
      match App.renderView s with
      | App.El_EventDetailsView events _ => Some (fst (EventDetailsView.render h events), s)
      | _ => Some (h, s)
      end
  | OpenResult i =>
      match App.renderView s with
      | App.El_ViewResultsView _ scores _ =>
          match scores !! i with
          | Some score => Some (fst (ViewResultsView.ResultModal localeCompare h score), s)
          | None => None
          end
      | _ => None
      end
  end.

(** The sessions that can come about, from the mount of [App] on. *)
Inductive reachable : Heap.t -> App.State -> Prop :=
| reachable_start (ok : bool) : reachable App.initial_heap (App.initialize ok App.initial)
| reachable_step ev h s h' s' :
    reachable h s -> step ev h s = Some (h', s') -> reachable h' s'.
End Steps.

(** The views a role is to be found in. *)
Definition at_home (role : option Role) (v : App.View) : bool :=
  match role, v with
  | _, (App.InitialRoleChoice | App.Login) => true
  | None, _ => false
  | Some _, (App.EventCalendar | App.EventDetails | App.NoticeBoard) => true
  | Some Teacher, (App.TeacherDashboard | App.AddEvent | App.AddScores) => true
  | Some Student, (App.StudentDashboard | App.ViewResults | App.StudentProfile) => true
  | _, _ => false
  end.

(** What holds of every session that can come about: the role is in one
    of its views; without a store handle the session is as the failed
    start left it; the events cell and
    the selection name arrays of the heap, different ones; the details view
    is not entered without a selection. *)
Definition invariant (h : Heap.t) (s : App.State) : Prop :=
  at_home (App.userRole s) (App.view s) = true
  /\ (App.has_db s = false -> h = App.initial_heap /\ s = App.initialize false App.initial)
  /\ (App.events s < length (Heap.arrays h))%nat
  /\ (forall l, App.selectedEvent s = Some l ->
        (l < length (Heap.arrays h))%nat /\ l <> App.events s)
  /\ (App.view s = App.EventDetails -> App.selectedEvent s <> None).

End Ui.

(** ** The calls and waits of the retry wrapper, as a schedule *)

Module Backoff.

(** [k] calls from attempt [i] on, a wait of [2^j] seconds after the call
    of attempt [j], none after the last. *)
Fixpoint schedule (i k : nat) : list Retry.Effect :=
  match k with
  | O => []
  | S k' =>
      match k' with
      | O => [Retry.Invoke]
      | S _ => Retry.Invoke :: Retry.Sleep (Retry.delay i) :: schedule (S i) k'
      end
  end.

(** The time spent waiting, in milliseconds. *)
Fixpoint waited (tr : list Retry.Effect) : Z :=
  match tr with
  | [] => 0
  | Retry.Sleep ms :: tr' => ms + waited tr'
  | Retry.Invoke :: tr' => waited tr'
  end.

Section Outcomes.
Context {W E A : Type}.
Variable fn : W -> Retry.Completion E A * W.

(** From world [w] the operation is rejected [k] times in a row and then
    fulfils with [a], leaving world [w']. *)
Fixpoint fails_then_fulfils (k : nat) (w : W) (a : A) (w' : W) : Prop :=
  match k with
  | O => fn w = (Retry.Fulfilled a, w')
  | S k' => exists e w1, fn w = (Retry.Rejected e, w1) /\ fails_then_fulfils k' w1 a w'
  end.
End Outcomes.

(** An operation on a counter that is rejected until the counter is 2. *)
Definition third_time_lucky (n : nat) : Retry.Completion string nat * nat :=
  if (n <? 2)%nat then (Retry.Rejected "busy", S n) else (Retry.Fulfilled n, S n).

End Backoff.

(** ** Months and date groups, in the words of the specification *)

Module Spec.
(** The event carries a date of the form [YYYY-MM-DD]. *)
Definition well_dated (e : Event.t) : Prop := is_Some (JsDate.parse_ymd (Event.date e)).

(** The event's date falls in month [month0] (January being 0) of
    [year]: read off the date string, no clock involved. *)
Definition dated_in (year month0 : Z) (e : Event.t) : bool :=
  match JsDate.parse_ymd (Event.date e) with
  | Some (y, m, _) => (y =? year) && (m =? month0 + 1)
  | None => false
  end.

(** The day number of a date string. *)
Definition day_of (k : string) : Z :=
  match JsDate.parse_ymd k with
  | Some (y, m, d) => JsDate.days_from_civil y m d
  | None => 0
  end.

(** The events of a list that are shown under a date, in the order of
    the list. *)
Definition on_date (k : string) (l : list Event.t) : list Event.t :=
  List.filter (fun e => String.eqb (EventDetailsView.dateKey e) k) l.

Definition add_key (ks : list string) (k : string) : list string :=
  if existsb (String.eqb k) ks then ks else ks ++ [k].

(** The dates of a list, each once, in the order they first occur. *)
Definition date_keys (l : list Event.t) : list string :=
  fold_left add_key (List.map EventDetailsView.dateKey l) [].

(** The list grouped by date. *)
Definition grouped (l : list Event.t) : EventDetailsView.Groups :=
  List.map (fun k => (k, on_date k l)) (date_keys l).

(** [s] is [x] with white space, and nothing else, before and after it. *)
Definition surrounded (x s : Js.ustring) : Prop :=
  exists pre post,
    s = (pre ++ x ++ post)%list
    /\ Forall (fun c => Js.isWhiteSpace c = true) pre
    /\ Forall (fun c => Js.isWhiteSpace c = true) post.

(** The code unit [c] is the small letter [x], written small or as the
    capital [A]-[Z] it belongs to. *)
Definition same_letter (c x : N) : Prop :=
  c = x \/ ((65 <= c <= 90)%N /\ (c + 32)%N = x).

(** [u] is [expected] letter for letter, capitals allowed. *)
Definition spells (u expected : Js.ustring) : Prop := Forall2 same_letter u expected.

(** What is typed matches the fixed credentials of the role: the user
    name in small or capital letters and the password exactly as it is,
    each with any white space around it. *)
Definition login_matches (role : Role) (f : LoginView.Form) : Prop :=
  (exists u, surrounded u (LoginView.username f)
             /\ spells u (Js.units (Credentials.username (MOCK_CREDENTIALS role))))
  /\ surrounded (Js.units (Credentials.password (MOCK_CREDENTIALS role)))
       (LoginView.password f).
End Spec.

(** ** Sample inputs *)

Module Sample.

(** Two live events titled like the first seed event. *)
Definition two_sports_days : list Event.t :=
  [ live "ev-a" "Sports Day" "2026-10-14"; live "ev-b" "Sports Day" "2026-10-14" ].

(** A snapshot that holds one "Sports Day". *)
Definition one_sports_day : list Event.t :=
  [ live "ev-c" "Science Fair" "2026-02-03"; live "ev-a" "Sports Day" "2026-10-14" ].

(** A session after the provider and the store came up. *)
Definition ready : App.State :=
  App.setIsAuthReady true (App.setUserId (Some "uid-1") (App.initialize true App.initial)).

Definition student_session : App.State := App.handleLogin Student ready.
Definition teacher_session : App.State := App.handleLogin Teacher ready.

(** A teacher looking at the events of a month, array 1 of the heap. *)
Definition teacher_in_details : App.State :=
  App.setView App.EventDetails (App.setSelectedEvent (Some 1%nat) teacher_session).

Definition notice1 : Doc.t Notice.t :=
  {| Doc.id := "n1"; Doc.id_field := None;
     Doc.data := {| Notice.id := ""; Notice.content := "School reopens on Monday.";
                    Notice.createdAt := "2025-10-01T09:00:00.000Z";
                    Notice.createdBy := "uid-7" |} |}.

(** A student reading the notice board. *)
Definition student_on_notices : App.State :=
  App.setView App.NoticeBoard (App.onNoticesSnapshot [notice1] student_session).

(** The provider turns the anonymous sign-in down; no bootstrap token. *)
Definition refused : Retry.Completion string unit :=
  Retry.Rejected "auth/network-request-failed".

Definition started : App.State := App.initialize true App.initial.

(** The anonymous sign-in goes through. *)
Definition granted : Retry.Completion string unit := Retry.Fulfilled tt.

(** What a teacher may type: capitals and blanks around the user name, a
    line feed after the password. *)
Definition typed : LoginView.Form :=
  {| LoginView.username := Js.units "  Teacher ";
     LoginView.password := (Js.units "pass" ++ [10%N])%list;
     LoginView.error := ""; LoginView.loading := false |}.

(** The password in capitals. *)
Definition shouted : LoginView.Form :=
  {| LoginView.username := Js.units "teacher";
     LoginView.password := Js.units "PASS";
     LoginView.error := ""; LoginView.loading := false |}.

Definition at_login : App.State := App.handleRoleSelect Teacher ready.

(** The score form for event 1 with two rows filled in. *)
Definition first_form : AddScoresView.Form :=
  AddScoresView.handleScoreChange "student-C" AddScoresView.score "10.1s"
    (AddScoresView.handleScoreChange "student-A" AddScoresView.rank "1st"
       {| AddScoresView.selectedEventId := "1";
          AddScoresView.scoreData := AddScoresView.initialScores;
          AddScoresView.loading := false; AddScoresView.message := "" |}).

(** The same event again, one row filled in. *)
Definition second_form : AddScoresView.Form :=
  AddScoresView.handleScoreChange "student-B" AddScoresView.rank "1st"
    {| AddScoresView.selectedEventId := "1";
       AddScoresView.scoreData := AddScoresView.initialScores;
       AddScoresView.loading := false; AddScoresView.message := "" |}.

(** A live event before all the seed events. *)
Definition orientation : Event.t := live "ev-o" "Orientation" "2025-09-01".

Definition orientation_doc : Doc.t Event.t :=
  {| Doc.id := "ev-o"; Doc.id_field := None; Doc.data := orientation |}.

(** The heap and the session after the first events snapshot. *)
Definition synced : Heap.t * App.State :=
  App.onEventsSnapshot [orientation_doc] App.initial_heap student_session.

Definition row (i n sc rk : string) : Result.t :=
  {| Result.studentId := i; Result.studentName := n; Result.score := sc;
     Result.rank := rk |}.

(** A publication for event 1, the rows in the order of the form. *)
Definition sprint_doc : Doc.t ScorePayload.t :=
  {| Doc.id := "1"; Doc.id_field := None;
     Doc.data :=
       {| ScorePayload.eventId := "1"; ScorePayload.eventTitle := "Sports Day";
          ScorePayload.results :=
            [ row "student-A" "Alfie B." "10.4s" "2nd";
              row "student-B" "Betty C." "10.1s" "1st" ];
          ScorePayload.publishedAt := "2025-10-16T10:00:00.000Z";
          ScorePayload.teacherId := Some "uid-1" |} |}.

(** The heap and the session after the first scores snapshot. *)
Definition graded : Heap.t * App.State :=
  App.onScoresSnapshot [sprint_doc] App.initial_heap student_session.

(** An empty [scores] collection; the first write ahead is rejected. *)
Definition flaky_store : Firestore.t :=
  {| Firestore.scores := ∅; Firestore.faults := [true] |}.

(** The event form with a science fair typed in, and with the title
    cleared again. *)
Definition fair_form : AddEventView.Form :=
  {| AddEventView.formData :=
       {| AddEventView.title := "Science Fair"; AddEventView.date := "2026-02-03";
          AddEventView.description := "Projects of all grades.";
          AddEventView.category := "Academic" |};
     AddEventView.loading := false; AddEventView.message := "" |}.

Definition untitled_form : AddEventView.Form :=
  AddEventView.handleChange AddEventView.Title "" fair_form.

Definition notice_form : NoticeBoardView.Form :=
  {| NoticeBoardView.noticeText := "School reopens on Monday.";
     NoticeBoardView.loading := false; NoticeBoardView.message := "" |}.

(** A [scores] collection that refuses three writes. *)
Definition down_store : Firestore.t :=
  {| Firestore.scores := ∅; Firestore.faults := [true; true; true] |}.


(** What a student types to log in. *)
Definition student_typed : LoginView.Form :=
  {| LoginView.username := Js.units "student"; LoginView.password := Js.units "pass";
     LoginView.error := ""; LoginView.loading := false |}.

(** A student's way to the events of November 2025. *)
Definition journey : list Ui.Event :=
  [ Ui.AuthStateChanged (Some "uid-1") granted; Ui.Subscribed;
    Ui.Click (Ui.SelectRole Student); Ui.Click (Ui.SubmitLogin student_typed);
    Ui.Click (Ui.FollowLink App.EventCalendar);
    Ui.Click (Ui.GoToEventDetails 2025 10) ].

(** One event after the other, as long as each can happen. *)
Fixpoint run (evs : list Ui.Event) (h : Heap.t) (s : App.State)
  : option (Heap.t * App.State) :=
  match evs with
  | [] => Some (h, s)
  | ev :: evs' =>
      match Ui.step JsDate.utc ViewResultsView.by_leading_number ev h s with
      | Some (h', s') => run evs' h' s'
      | None => None
      end
  end.

(** Where the journey ends. *)
Definition arrived : Heap.t * App.State :=
  default (App.initial_heap, App.initial)
    (run journey App.initial_heap (App.initialize true App.initial)).

End Sample.

(** * Results *)

(** ** The retry wrapper *)

Section RetryFacts.
Context {W E A : Type}.
Variable fn : W -> Retry.Completion E A * W.

Lemma loop_unfold_rejected maxRetries i remaining w e w' :
  fn w = (Retry.Rejected e, w') ->
  Retry.loop fn maxRetries i (S remaining) w =
    if Nat.eqb i (maxRetries - 1) then (Retry.Rejected e, w', [Retry.Invoke])
    else
      let '(r, w'', tr) := Retry.loop fn maxRetries (S i) remaining w' in
      (r, w'', Retry.Invoke :: Retry.Sleep (Retry.delay i) :: tr).
Proof. intros Hfn. simpl. rewrite Hfn. reflexivity. Qed.

(** Against an operation that always fails, the loop started at index [i]
    with all the iterations up to [maxRetries] ahead of it calls the
    operation once for each of them and ends by a rejection. *)
Lemma loop_always_fails_invocations maxRetries remaining :
  Retry.always_fails fn ->
  forall i w,
    (0 < remaining)%nat -> (i + remaining = maxRetries)%nat ->
    exists e w' tr,
      Retry.loop fn maxRetries i remaining w = (Retry.Rejected e, w', tr)
      /\ Retry.invocations tr = remaining.
Proof.
  intros Hfail. induction remaining as [|r IH]; intros i w Hpos Hsum; [lia|].
  destruct (Hfail w) as (e & w' & Hfn).
  rewrite (loop_unfold_rejected _ _ _ _ _ _ Hfn).
  destruct (Nat.eqb_spec i (maxRetries - 1)) as [Heq|Hne].
  - assert (r = 0%nat) by lia. subst r. exists e, w', [Retry.Invoke]. split; reflexivity.
  - destruct (IH (S i) w') as (e' & w'' & tr & Hloop & Hcount); [lia|lia|].
    rewrite Hloop. exists e', w'', (Retry.Invoke :: Retry.Sleep (Retry.delay i) :: tr).
    split; [reflexivity|].
    unfold Retry.invocations in *. simpl. rewrite Hcount. reflexivity.
Qed.

(** C2. An operation that fails on every attempt is invoked exactly three
    times by [withRetry] with [maxRetries = 3]; the wrapper waits 1000 ms
    after the first failure and 2000 ms after the second, does not wait
    before the first call nor after the last, and rejects with the error
    of the third call. *)
Theorem withRetry_always_failing (w : W) :
  Retry.always_fails fn ->
  exists e1 w1 e2 w2 e3 w3,
    fn w = (Retry.Rejected e1, w1)
    /\ fn w1 = (Retry.Rejected e2, w2)
    /\ fn w2 = (Retry.Rejected e3, w3)
    /\ Retry.withRetry fn 3 w =
         (Retry.Rejected e3, w3,
          [Retry.Invoke; Retry.Sleep 1000; Retry.Invoke; Retry.Sleep 2000; Retry.Invoke])
    /\ Retry.invocations (snd (Retry.withRetry fn 3 w)) = 3%nat.
Proof.
  intros Hfail.
  destruct (Hfail w) as (e1 & w1 & H1).
  destruct (Hfail w1) as (e2 & w2 & H2).
  destruct (Hfail w2) as (e3 & w3 & H3).
  exists e1, w1, e2, w2, e3, w3.
  assert (Hrun : Retry.withRetry fn 3 w =
    (Retry.Rejected e3, w3,
     [Retry.Invoke; Retry.Sleep 1000; Retry.Invoke; Retry.Sleep 2000; Retry.Invoke])).
  { unfold Retry.withRetry.
    rewrite (loop_unfold_rejected _ _ _ _ _ _ H1). simpl Nat.eqb. cbv iota.
    rewrite (loop_unfold_rejected _ _ _ _ _ _ H2). simpl Nat.eqb. cbv iota.
    rewrite (loop_unfold_rejected _ _ _ _ _ _ H3). simpl Nat.eqb. cbv iota.
    reflexivity. }
  repeat split; try assumption. rewrite Hrun. reflexivity.
Qed.
End RetryFacts.

Lemma withRetry_always_failing_witness :
  exists e1 w1 e2 w2 e3 w3,
    Retry.failing_counter 0 = (Retry.Rejected e1, w1)
    /\ Retry.failing_counter w1 = (Retry.Rejected e2, w2)
    /\ Retry.failing_counter w2 = (Retry.Rejected e3, w3)
    /\ Retry.withRetry Retry.failing_counter 3 0%nat =
         (Retry.Rejected e3, w3,
          [Retry.Invoke; Retry.Sleep 1000; Retry.Invoke; Retry.Sleep 2000; Retry.Invoke])
    /\ Retry.invocations (snd (Retry.withRetry Retry.failing_counter 3 0%nat)) = 3%nat.
Proof.
  apply (withRetry_always_failing Retry.failing_counter 0%nat).
  intros w. exists (S w), (S w). reflexivity.
Defined.

(** ** The merge of seed and live events *)

Section MergeFacts.

Lemma filter_sublist {X : Type} (p : X -> bool) (l : list X) :
  sublist (List.filter p l) l.
Proof.
  induction l as [|x l IH]; simpl.
  - constructor.
  - destruct (p x); [apply sublist_skip | apply sublist_cons]; exact IH.
Qed.

Lemma filter_none {X : Type} (p : X -> bool) (l : list X) :
  (forall x, In x l -> p x = false) -> List.filter p l = [].
Proof.
  induction l as [|x l IH]; simpl; intros Hall; [reflexivity|].
  rewrite (Hall x (or_introl eq_refl)). apply IH. intros y Hy. apply Hall. right. exact Hy.
Qed.

Lemma no_live_title_spec (fetched : list Event.t) (m : Event.t) :
  negb (existsb (fun f => String.eqb (Event.title f) (Event.title m)) fetched) = true
  <-> forall f, In f fetched -> Event.title f <> Event.title m.
Proof.
  rewrite negb_true_iff. split.
  - intros Hnone f Hf Heq.
    assert (existsb (fun f => String.eqb (Event.title f) (Event.title m)) fetched = true)
      as Hsome.
    { apply existsb_exists. exists f. split; [exact Hf|]. apply String.eqb_eq. exact Heq. }
    congruence.
  - intros Hall.
    destruct (existsb (fun f => String.eqb (Event.title f) (Event.title m)) fetched) eqn:Hex;
      [|reflexivity].
    apply existsb_exists in Hex. destruct Hex as (f & Hf & Heq).
    apply String.eqb_eq in Heq. exfalso. exact (Hall f Hf Heq).
Qed.

(** C1 (as amended). For every fetched snapshot the merged list is the
    seed events whose title no fetched event has, in seed order, followed
    by all the fetched events in store order.  When a seed event and a
    fetched event share a title, no seed entry of that title is left: the
    entries of that title are the fetched ones, as many as the snapshot
    holds, a single one when it holds one. *)
Theorem mergedEvents_seed_then_live (fetchedEvents : list Event.t) :
  exists kept,
    mergedEvents MOCK_EVENTS fetchedEvents = kept ++ fetchedEvents
    /\ sublist kept MOCK_EVENTS
    /\ (forall m, In m kept <->
          In m MOCK_EVENTS
          /\ forall f, In f fetchedEvents -> Event.title f <> Event.title m)
    /\ forall t,
         (exists m, In m MOCK_EVENTS /\ Event.title m = t) ->
         (exists f, In f fetchedEvents /\ Event.title f = t) ->
         List.filter (Event.has_title t) (mergedEvents MOCK_EVENTS fetchedEvents)
           = List.filter (Event.has_title t) fetchedEvents
         /\ forall f, List.filter (Event.has_title t) fetchedEvents = [f] ->
              List.filter (Event.has_title t) (mergedEvents MOCK_EVENTS fetchedEvents) = [f].
Proof.
  set (keep := fun m : Event.t =>
    negb (existsb (fun f => String.eqb (Event.title f) (Event.title m)) fetchedEvents)).
  exists (List.filter keep MOCK_EVENTS).
  assert (Hkept : forall m, In m (List.filter keep MOCK_EVENTS) <->
            In m MOCK_EVENTS
            /\ forall f, In f fetchedEvents -> Event.title f <> Event.title m).
  { intros m. rewrite filter_In. unfold keep. rewrite no_live_title_spec. reflexivity. }
  split; [reflexivity|]. split; [apply filter_sublist|]. split; [exact Hkept|].
  intros t _ (f & Hf & Hft).
  assert (Hmerged :
    List.filter (Event.has_title t) (mergedEvents MOCK_EVENTS fetchedEvents)
    = List.filter (Event.has_title t) fetchedEvents).
  { unfold mergedEvents. fold keep. rewrite List.filter_app.
    rewrite (filter_none (Event.has_title t) (List.filter keep MOCK_EVENTS)).
    - reflexivity.
    - intros m Hm. apply Hkept in Hm. destruct Hm as [_ Hm].
      unfold Event.has_title. apply String.eqb_neq. intros Hmt.
      apply (Hm f Hf). congruence. }
  split; [exact Hmerged|]. intros f' Hone. rewrite Hmerged. exact Hone.
Qed.

End MergeFacts.

(** Not every snapshot leaves exactly one entry of a title that a seed event
    and a fetched event share: a snapshot with two events titled "Sports
    Day" leaves two. *)
Lemma mergedEvents_not_always_one :
  ~ (forall fetchedEvents t,
       (exists m, In m MOCK_EVENTS /\ Event.title m = t) ->
       (exists f, In f fetchedEvents /\ Event.title f = t) ->
       length (List.filter (Event.has_title t) (mergedEvents MOCK_EVENTS fetchedEvents))
         = 1%nat).
Proof.
  intros Hclaim.
  specialize (Hclaim Sample.two_sports_days "Sports Day").
  assert (length (List.filter (Event.has_title "Sports Day")
                    (mergedEvents MOCK_EVENTS Sample.two_sports_days)) = 2%nat) as Htwo
    by reflexivity.
  rewrite Hclaim in Htwo; [discriminate| |].
  - exists (seed "1" "Sports Day" "2025-10-15"
      "Annual sports meet with various competitions like relay, sprints, and long jump."
      "Sports").
    split; [left; reflexivity | reflexivity].
  - exists (live "ev-a" "Sports Day" "2026-10-14"). split; [left; reflexivity | reflexivity].
Qed.

Lemma mergedEvents_seed_then_live_witness :
  List.filter (Event.has_title "Sports Day") (mergedEvents MOCK_EVENTS Sample.one_sports_day)
    = [live "ev-a" "Sports Day" "2026-10-14"].
Proof.
  destruct (mergedEvents_seed_then_live Sample.one_sports_day) as (kept & _ & _ & _ & Hshared).
  destruct (Hshared "Sports Day") as [_ Hone].
  - exists (seed "1" "Sports Day" "2025-10-15"
      "Annual sports meet with various competitions like relay, sprints, and long jump."
      "Sports").
    split; [left; reflexivity | reflexivity].
  - exists (live "ev-a" "Sports Day" "2026-10-14").
    split; [right; left; reflexivity | reflexivity].
  - apply Hone. reflexivity.
Defined.

(** ** The view switch and its role guard *)

Section RenderFacts.

Lemma renderView_error (s : App.State) (msg : string) :
  App.error_set s = Some msg -> App.renderView s = App.ErrorScreen msg.
Proof. intros H. unfold App.renderView. rewrite H. reflexivity. Qed.

Lemma error_set_setView v s : App.error_set (App.setView v s) = App.error_set s.
Proof. reflexivity. Qed.

(** C3 (as amended). In a session that is ready, has its store handle and
    no error, a transition to [AddEvent] or [AddScores] by anyone but a
    Teacher is denied without a redirect: the view stays the target, what
    is rendered is the fixed "Access Denied" text, and nothing is thrown
    or recorded as an error.  A Teacher gets the form, and every other
    pair of role and view gets the component of the view. *)
Theorem renderView_role_guard (s : App.State) (target : App.View) :
  App.error_set s = None -> App.isAuthReady s = true -> App.has_db s = true ->
  let s' := App.setView target s in
  App.view s' = target
  /\ App.error s' = App.error s
  /\ (if App.guarded target && negb (App.is_teacher (App.userRole s))
      then App.renderView s' = App.AccessDenied
      else App.renders target (App.renderView s') = true).
Proof.
  intros Herr Hready Hdb s'. split; [reflexivity|]. split; [reflexivity|].
  unfold App.renderView. subst s'. rewrite error_set_setView, Herr.
  change (App.isAuthReady (App.setView target s)) with (App.isAuthReady s).
  rewrite Hready. simpl negb. cbv iota.
  change (App.has_db (App.setView target s)) with (App.has_db s).
  change (App.userRole (App.setView target s)) with (App.userRole s).
  change (App.view (App.setView target s)) with target.
  unfold App.has_db in Hdb.
  destruct target; simpl App.guarded; simpl andb;
    try reflexivity;
    try (unfold App.has_db; destruct (App.db s); [reflexivity|discriminate]);
    destruct (App.is_teacher (App.userRole s)); simpl;
    unfold App.has_db; destruct (App.db s); try discriminate; reflexivity.
Qed.

End RenderFacts.

Lemma renderView_role_guard_witness :
  let s' := App.setView App.AddScores Sample.student_session in
  App.view s' = App.AddScores
  /\ App.error s' = App.error Sample.student_session
  /\ App.renderView s' = App.AccessDenied.
Proof.
  apply (renderView_role_guard Sample.student_session App.AddScores); reflexivity.
Defined.

(** A Student who targets [AddEvent] is not taken to the dashboard: the view
    is [AddEvent] and "Access Denied" is what is shown. *)
Lemma student_denied_not_redirected :
  App.userRole Sample.student_session = Some Student
  /\ App.view Sample.student_session = App.StudentDashboard
  /\ App.view (App.setView App.AddEvent Sample.student_session) = App.AddEvent
  /\ App.renderView (App.setView App.AddEvent Sample.student_session) = App.AccessDenied
  /\ App.renderView (App.setView App.AddEvent Sample.student_session)
       <> App.El_StudentDashboard.
Proof. repeat split; try reflexivity. discriminate. Qed.

(** ** Logging out *)

(** C4 (as amended). From every view and for every role, both log-out
    buttons set the view to [InitialRoleChoice] and leave the selected-event
    payload as it was; the button of the header also clears the role. *)
Theorem logOut_resets_view (s : App.State) :
  App.view (App.headerLogOut s) = App.InitialRoleChoice
  /\ App.userRole (App.headerLogOut s) = None
  /\ App.selectedEvent (App.headerLogOut s) = App.selectedEvent s
  /\ App.view (App.dashboardLogOut s) = App.InitialRoleChoice
  /\ App.selectedEvent (App.dashboardLogOut s) = App.selectedEvent s.
Proof. repeat split. Qed.

(** Logging out of the details view leaves the month's events selected. *)
Lemma logOut_keeps_payload :
  App.selectedEvent Sample.teacher_in_details = Some 1%nat
  /\ App.selectedEvent (App.headerLogOut Sample.teacher_in_details) = Some 1%nat
  /\ App.selectedEvent (App.headerLogOut Sample.teacher_in_details) <> None.
Proof. repeat split; try reflexivity. discriminate. Qed.

(** The payload is cleared by the [Back to Dashboard] button of the details
    view, which goes to the dashboard of the role. *)
Lemma backToDashboard_clears_payload (s : App.State) :
  App.selectedEvent (EventDetailsView.backToDashboard s) = None
  /\ App.view (EventDetailsView.backToDashboard s) = App.dashboardOf (App.userRole s)
  /\ App.userRole (EventDetailsView.backToDashboard s) = App.userRole s.
Proof. repeat split. Qed.

(** The [Log Out] button of a dashboard leaves the role as well. *)
Lemma dashboardLogOut_keeps_role :
  App.userRole (App.dashboardLogOut Sample.teacher_session) = Some Teacher.
Proof. reflexivity. Qed.

(** ** The authentication observer *)

Section AuthFacts.
Context {E : Type}.
Variable initialAuthToken : option string.
Variable signInWithCustomToken : string -> Retry.Completion E unit.
Variable signInAnonymously : Retry.Completion E unit.

Let signIn := App.signIn initialAuthToken signInWithCustomToken signInAnonymously.
Let run := App.authObserver initialAuthToken signInWithCustomToken signInAnonymously.

(** C5 (as amended). After a run of the observer callback the session is
    ready exactly when it was ready before, or a user was reported, or the
    sign-in that was attempted succeeded.  When that sign-in fails, the
    callback rejects with its error and leaves every state cell, the
    ready flag among them, as it was. *)
Theorem authObserver_ready (user : option string) (s : App.State) :
  (App.isAuthReady (snd (run user s)) = true
     <-> App.isAuthReady s = true \/ user <> None \/ exists u, signIn = Retry.Fulfilled u)
  /\ (forall e, user = None -> signIn = Retry.Rejected e ->
        run user s = (Retry.Rejected e, s)).
Proof.
  unfold run, signIn, App.authObserver. split.
  - destruct user as [uid|].
    + simpl. split; [intros _; right; left; discriminate | reflexivity].
    + destruct (App.signIn _ _ _) as [u|e] eqn:Hsign; simpl.
      * split; [intros _; right; right; exists u; reflexivity | reflexivity].
      * split; [intros H; left; exact H|].
        intros [H|[H|[u H]]]; [exact H | congruence | discriminate].
  - intros e -> Hrej. rewrite Hrej. reflexivity.
Qed.
End AuthFacts.

(** With no user, no bootstrap token and an anonymous sign-in that fails,
    the callback ends without marking the session ready. *)
Lemma authObserver_failed_sign_in_not_ready :
  App.authObserver None (fun _ => Retry.Fulfilled tt) Sample.refused None Sample.started
    = (Retry.Rejected "auth/network-request-failed", Sample.started)
  /\ App.isAuthReady
       (snd (App.authObserver None (fun _ => Retry.Fulfilled tt) Sample.refused None
               Sample.started)) = false.
Proof. split; reflexivity. Qed.

(** ** Listener errors *)

Section ListenerFacts.

Lemma error_set_onError c s : App.error_set (App.onError c s) = Some (App.errorMessage c).
Proof. destruct c; reflexivity. Qed.

(** C6 (as amended). When the error callback of one collection's listener
    fires, its message is what is rendered, and it is rendered in place
    of every view: while the error is set no collection can be looked at,
    the other two included.  The three collections in memory are left as
    they were, and a later snapshot of any collection still replaces that
    collection in memory, without bringing the views back. *)
Theorem listener_error_blocks_all_views (c : App.Collection) (s : App.State) :
  let s' := App.onError c s in
  App.renderView s' = App.ErrorScreen (App.errorMessage c)
  /\ (forall v, App.renderView (App.setView v s') = App.ErrorScreen (App.errorMessage c))
  /\ (forall v c', App.shows c' (App.renderView (App.setView v s')) = false)
  /\ App.events s' = App.events s
  /\ App.notices s' = App.notices s
  /\ App.scores s' = App.scores s
  /\ (forall docs,
        App.notices (App.onNoticesSnapshot docs s') = List.map notice_of_doc docs
        /\ App.renderView (App.onNoticesSnapshot docs s')
             = App.ErrorScreen (App.errorMessage c))
  /\ (forall docs h,
        App.scores (snd (App.onScoresSnapshot docs h s')) = snd (scores_of_docs h docs)
        /\ App.renderView (snd (App.onScoresSnapshot docs h s'))
             = App.ErrorScreen (App.errorMessage c))
  /\ (forall docs h,
        Heap.read (fst (App.onEventsSnapshot docs h s'))
                  (App.events (snd (App.onEventsSnapshot docs h s')))
          = mergedEvents (Heap.read h App.MOCK_EVENTS_loc) (List.map event_of_doc docs)
        /\ App.renderView (snd (App.onEventsSnapshot docs h s'))
             = App.ErrorScreen (App.errorMessage c)).
Proof.
  intros s'.
  assert (Hview : forall v,
            App.renderView (App.setView v s') = App.ErrorScreen (App.errorMessage c)).
  { intros v. apply renderView_error. rewrite error_set_setView. apply error_set_onError. }
  split; [apply renderView_error, error_set_onError|].
  split; [exact Hview|].
  split; [intros v c'; rewrite Hview; destruct c'; reflexivity|].
  split; [destruct c; reflexivity|].
  split; [destruct c; reflexivity|].
  split; [destruct c; reflexivity|].
  split; [|split].
  - intros docs. split; [reflexivity|]. apply renderView_error.
    change (App.error_set (App.onNoticesSnapshot docs s')) with (App.error_set s').
    apply error_set_onError.
  - intros docs h. unfold App.onScoresSnapshot.
    destruct (scores_of_docs h docs) as [h' fetched]. simpl. split; [reflexivity|].
    apply renderView_error.
    change (App.error_set (App.setScores fetched s')) with (App.error_set s').
    apply error_set_onError.
  - intros docs h. unfold App.onEventsSnapshot, Heap.alloc. simpl. split.
    + unfold Heap.read at 1. simpl.
      rewrite lookup_app_r by reflexivity. rewrite Nat.sub_diag. reflexivity.
    + apply renderView_error.
      match goal with |- App.error_set (App.setEvents ?l s') = _ =>
        change (App.error_set (App.setEvents l s')) with (App.error_set s') end.
      apply error_set_onError.
Qed.

End ListenerFacts.

(** After the events listener fails, a student on the notice board is shown
    the events error instead of the notices, which are still in memory. *)
Lemma events_error_hides_notices :
  App.shows App.Notices (App.renderView Sample.student_on_notices) = true
  /\ App.renderView (App.onError App.Events Sample.student_on_notices)
       = App.ErrorScreen "Could not load events."
  /\ App.shows App.Notices
       (App.renderView (App.onError App.Events Sample.student_on_notices)) = false
  /\ App.notices (App.onError App.Events Sample.student_on_notices)
       = App.notices Sample.student_on_notices.
Proof. repeat split. Qed.

Lemma authObserver_ready_witness :
  App.isAuthReady
    (snd (App.authObserver None (fun _ => Sample.refused) Sample.granted None
            Sample.started)) = true.
Proof.
  apply (authObserver_ready None (fun _ => Sample.refused) Sample.granted None Sample.started).
  right. right. exists tt. reflexivity.
Defined.

(** ** The login check *)

Section LoginFacts.

Lemma ustring_eqb_eq (a b : Js.ustring) : Js.ustring_eqb a b = true <-> a = b.
Proof. unfold Js.ustring_eqb. apply bool_decide_eq_true. Qed.

Lemma accepts_spec (role : Role) (f : LoginView.Form) :
  LoginView.accepts role f = true
  <-> Js.toLowerCase (Js.trim (LoginView.username f))
        = Js.units (Credentials.username (MOCK_CREDENTIALS role))
      /\ Js.trim (LoginView.password f)
        = Js.units (Credentials.password (MOCK_CREDENTIALS role)).
Proof.
  unfold LoginView.accepts. rewrite andb_true_iff, !ustring_eqb_eq. reflexivity.
Qed.

(** [trimStart] removes the longest prefix made of white space. *)
Lemma trimStart_spec (s : Js.ustring) :
  exists pre,
    s = (pre ++ Js.trimStart s)%list
    /\ Forall (fun c => Js.isWhiteSpace c = true) pre
    /\ (forall c rest, Js.trimStart s = c :: rest -> Js.isWhiteSpace c = false).
Proof.
  induction s as [|c s (pre & Hs & Hpre & Hhead)]; simpl.
  - exists []. repeat split; [constructor | discriminate].
  - destruct (Js.isWhiteSpace c) eqn:Hc.
    + exists (c :: pre). repeat split.
      * simpl. f_equal. exact Hs.
      * constructor; assumption.
      * exact Hhead.
    + exists []. repeat split; [constructor|].
      intros c' rest Heq. injection Heq as -> _. exact Hc.
Qed.

(** [trim] removes the white space around its argument and nothing else:
    what is left neither starts nor ends with white space. *)
Lemma trim_spec (s : Js.ustring) :
  exists pre post,
    s = (pre ++ Js.trim s ++ post)%list
    /\ Forall (fun c => Js.isWhiteSpace c = true) pre
    /\ Forall (fun c => Js.isWhiteSpace c = true) post
    /\ (forall c rest, Js.trim s = c :: rest -> Js.isWhiteSpace c = false)
    /\ (forall c front, Js.trim s = (front ++ [c])%list -> Js.isWhiteSpace c = false).
Proof.
  destruct (trimStart_spec s) as (pre & Hs & Hpre & Hhead).
  destruct (trimStart_spec (rev (Js.trimStart s))) as (erp & Hr & Herp & Hlast).
  exists pre, (rev erp). unfold Js.trim, Js.trimEnd.
  set (mid := Js.trimStart (rev (Js.trimStart s))) in *.
  assert (Hmid : Js.trimStart s = (rev mid ++ rev erp)%list).
  { rewrite <- rev_app_distr, <- Hr, rev_involutive. reflexivity. }
  split; [rewrite <- Hmid; exact Hs|].
  split; [exact Hpre|].
  split; [apply Forall_rev; exact Herp|].
  split.
  - intros c rest Hc. apply (Hhead c (rest ++ rev erp)%list).
    rewrite Hmid, Hc. reflexivity.
  - intros c front Hc. apply (Hlast c (rev front)).
    rewrite <- (rev_involutive mid), Hc, rev_app_distr. reflexivity.
Qed.

Lemma trimStart_blank_app (pre s : Js.ustring) :
  List.Forall (fun c => Js.isWhiteSpace c = true) pre ->
  Js.trimStart (pre ++ s)%list = Js.trimStart s.
Proof.
  induction 1 as [|c pre Hc _ IH]; [reflexivity|]. simpl. rewrite Hc. exact IH.
Qed.

Lemma trimStart_blank (s : Js.ustring) :
  List.Forall (fun c => Js.isWhiteSpace c = true) s -> Js.trimStart s = [].
Proof.
  intros Hs. rewrite <- (app_nil_r s). rewrite (trimStart_blank_app s [] Hs). reflexivity.
Qed.

Lemma trimStart_head (c : N) (s : Js.ustring) :
  Js.isWhiteSpace c = false -> Js.trimStart (c :: s) = c :: s.
Proof. intros Hc. simpl. rewrite Hc. reflexivity. Qed.

(** A string without white space at either end, in white space, is what
    [trim] gives back. *)
Lemma trim_padded (pre m post : Js.ustring) :
  List.Forall (fun c => Js.isWhiteSpace c = true) pre ->
  List.Forall (fun c => Js.isWhiteSpace c = true) post ->
  (forall c rest, m = c :: rest -> Js.isWhiteSpace c = false) ->
  (forall c front, m = (front ++ [c])%list -> Js.isWhiteSpace c = false) ->
  Js.trim (pre ++ m ++ post)%list = m.
Proof.
  intros Hpre Hpost Hhead Hlast. unfold Js.trim, Js.trimEnd.
  rewrite (trimStart_blank_app pre _ Hpre).
  destruct m as [|c rest].
  - simpl. rewrite (trimStart_blank post Hpost). reflexivity.
  - rewrite <- app_comm_cons, (trimStart_head c _ (Hhead c rest eq_refl)).
    rewrite app_comm_cons, rev_app_distr.
    rewrite (trimStart_blank_app (rev post) _ (Forall_rev Hpost)).
    destruct (exists_last (l := c :: rest) ltac:(discriminate)) as (front & z & Hm).
    rewrite Hm, rev_app_distr.
    change (rev [z] ++ rev front)%list with (z :: rev front).
    rewrite (trimStart_head z _ (Hlast z front Hm)).
    change (z :: rev front) with (rev [z] ++ rev front)%list.
    rewrite <- rev_app_distr, rev_involutive. reflexivity.
Qed.

Lemma trim_ignores_padding (pre s post : Js.ustring) :
  List.Forall (fun c => Js.isWhiteSpace c = true) pre ->
  List.Forall (fun c => Js.isWhiteSpace c = true) post ->
  Js.trim (pre ++ s ++ post)%list = Js.trim s.
Proof.
  intros Hpre Hpost.
  destruct (trim_spec s) as (pre' & post' & Hs & Hpre' & Hpost' & Hhead & Hlast).
  rewrite Hs at 1.
  replace (pre ++ (pre' ++ Js.trim s ++ post') ++ post)%list
    with ((pre ++ pre') ++ Js.trim s ++ (post' ++ post))%list
    by (rewrite <- !app_assoc; reflexivity).
  apply trim_padded; try assumption; apply Forall_app; split; assumption.
Qed.

(** [trim] gives [x], a string without white space in it, exactly for [x]
    with white space around it. *)
Lemma trim_surrounded (x s : Js.ustring) :
  Forall (fun c => Js.isWhiteSpace c = false) x ->
  (Js.trim s = x <-> Spec.surrounded x s).
Proof.
  intros Hx. split.
  - intros <-. destruct (trim_spec s) as (pre & post & Hs & Hpre & Hpost & _).
    exists pre, post. repeat split; assumption.
  - intros (pre & post & -> & Hpre & Hpost). apply trim_padded; try assumption.
    + intros c rest ->. exact (List.Forall_inv Hx).
    + intros c front ->. apply Forall_app in Hx as [_ Hc]. exact (List.Forall_inv Hc).
Qed.

Lemma same_letter_not_blank (c x : N) :
  (97 <= x <= 122)%N -> Spec.same_letter c x -> Js.isWhiteSpace c = false.
Proof.
  intros Hx Hc. apply not_true_iff_false. unfold Js.isWhiteSpace.
  rewrite !orb_true_iff, !andb_true_iff, !N.leb_le, !N.eqb_eq.
  destruct Hc as [->|[Hc _]]; lia.
Qed.

Lemma lowerUnit_same_letter (c x : N) :
  (97 <= x <= 122)%N -> Spec.same_letter c x -> Js.lowerUnit c = [x].
Proof.
  intros Hx Hc. unfold Js.lowerUnit. destruct Hc as [->|[Hc <-]].
  - destruct ((65 <=? x) && (x <=? 90))%N eqn:Hcap.
    { apply andb_true_iff in Hcap. rewrite !N.leb_le in Hcap. lia. }
    destruct (N.eqb_spec x 8490); [lia|]. destruct (N.eqb_spec x 304); [lia|]. reflexivity.
  - assert (((65 <=? c) && (c <=? 90))%N = true) as ->
      by (apply andb_true_iff; rewrite !N.leb_le; lia).
    reflexivity.
Qed.

Lemma lowerUnit_head (c x : N) (tail rest : Js.ustring) :
  (97 <= x <= 122)%N -> x <> 105%N -> x <> 107%N ->
  (Js.lowerUnit c ++ tail)%list = x :: rest ->
  Spec.same_letter c x /\ tail = rest.
Proof.
  intros Hx Hi Hk. unfold Js.lowerUnit.
  destruct ((65 <=? c) && (c <=? 90))%N eqn:Hcap.
  - apply andb_true_iff in Hcap. rewrite !N.leb_le in Hcap.
    intros Heq. injection Heq as Hc ->. split; [right; split; [lia | exact Hc] | reflexivity].
  - destruct (N.eqb_spec c 8490); [intros Heq; injection Heq as Hc _; congruence|].
    destruct (N.eqb_spec c 304); [intros Heq; injection Heq as Hc _; congruence|].
    intros Heq. injection Heq as -> ->. split; [left; reflexivity | reflexivity].
Qed.

(** Put in lower case, a string is a word of small letters (none of them
    [i] or [k], which letters outside ASCII map to as well) exactly when it
    is that word letter for letter, in small or capital letters. *)
Lemma toLowerCase_spells (u e : Js.ustring) :
  Forall (fun x => (97 <= x <= 122)%N /\ x <> 105%N /\ x <> 107%N) e ->
  (Js.toLowerCase u = e <-> Spec.spells u e).
Proof.
  intros He. unfold Js.toLowerCase, Spec.spells. split.
  - revert e He. induction u as [|c u IH]; intros e He Heq; simpl in Heq.
    + subst e. constructor.
    + destruct e as [|x e].
      { exfalso. revert Heq. unfold Js.lowerUnit.
        destruct ((65 <=? c) && (c <=? 90))%N; [discriminate|].
        destruct (c =? 8490)%N; [discriminate|].
        destruct (c =? 304)%N; discriminate. }
      pose proof (List.Forall_inv He) as (Hx & Hi & Hk).
      pose proof (List.Forall_inv_tail He) as He'.
      destruct (lowerUnit_head c x _ e Hx Hi Hk Heq) as [Hc Htail].
      constructor; [exact Hc | apply IH; assumption].
  - intros Hsp. revert He. induction Hsp as [|c x u e Hc _ IH]; intros He; [reflexivity|].
    pose proof (List.Forall_inv He) as (Hx & _).
    pose proof (List.Forall_inv_tail He) as He'.
    simpl. rewrite (lowerUnit_same_letter c x Hx Hc), (IH He'). reflexivity.
Qed.

Lemma spells_no_blank (u e : Js.ustring) :
  Forall (fun x => (97 <= x <= 122)%N /\ x <> 105%N /\ x <> 107%N) e ->
  Spec.spells u e -> Forall (fun c => Js.isWhiteSpace c = false) u.
Proof.
  intros He Hsp. revert He. induction Hsp as [|c x u e Hc _ IH]; intros He; constructor.
  - pose proof (List.Forall_inv He) as (Hx & _). exact (same_letter_not_blank c x Hx Hc).
  - exact (IH (List.Forall_inv_tail He)).
Qed.

Lemma username_small_letters (role : Role) :
  Forall (fun x => (97 <= x <= 122)%N /\ x <> 105%N /\ x <> 107%N)
    (Js.units (Credentials.username (MOCK_CREDENTIALS role))).
Proof.
  apply List.Forall_forall. intros x Hx.
  destruct role; vm_compute in Hx;
    repeat (destruct Hx as [<-|Hx]; [lia|]); destruct Hx.
Qed.

Lemma password_no_blank (role : Role) :
  Forall (fun c => Js.isWhiteSpace c = false)
    (Js.units (Credentials.password (MOCK_CREDENTIALS role))).
Proof.
  apply List.Forall_forall. intros x Hx.
  destruct role; vm_compute in Hx;
    repeat (destruct Hx as [<-|Hx]; [reflexivity|]); destruct Hx.
Qed.

(** The test the form computes with [trim] and [toLowerCase] is the match
    of the specification. *)
Lemma accepts_matches (role : Role) (f : LoginView.Form) :
  LoginView.accepts role f = true <-> Spec.login_matches role f.
Proof.
  rewrite accepts_spec. unfold Spec.login_matches.
  pose proof (username_small_letters role) as Hu.
  pose proof (password_no_blank role) as Hp.
  split.
  - intros [Hname Hpw]. split.
    + exists (Js.trim (LoginView.username f)). split.
      * destruct (trim_spec (LoginView.username f)) as (pre & post & Hs & Hpre & Hpost & _).
        exists pre, post. repeat split; assumption.
      * apply toLowerCase_spells; assumption.
    + apply trim_surrounded; assumption.
  - intros [(u & Hsur & Hsp) Hpw]. split.
    + apply (trim_surrounded u) in Hsur; [|exact (spells_no_blank u _ Hu Hsp)].
      rewrite Hsur. apply toLowerCase_spells; assumption.
    + apply trim_surrounded; assumption.
Qed.

(** C10. Whatever is typed, the login check succeeds, calling [onLogin]
    with the target role, if and only if the user name, trimmed and put in
    lower case, is the fixed user name of that role and the password,
    trimmed only, is the fixed password: that is, when the user name typed
    is the fixed one in small or capital letters, the password is the fixed
    one as it is, and around each there is white space at most.  Otherwise
    the form shows the error message and the application state, the role
    in it, stays as it was. *)
Theorem login_check (role : Role) (f : LoginView.Form) (s : App.State) :
  let expected := MOCK_CREDENTIALS role in
  let matches :=
    (exists u, Spec.surrounded u (LoginView.username f)
               /\ Spec.spells u (Js.units (Credentials.username expected)))
    /\ Spec.surrounded (Js.units (Credentials.password expected)) (LoginView.password f) in
  (matches <->
     Js.toLowerCase (Js.trim (LoginView.username f)) = Js.units (Credentials.username expected)
     /\ Js.trim (LoginView.password f) = Js.units (Credentials.password expected))
  /\ (matches <->
     exists f', LoginView.handleSubmit (Some role) f s = Some (f', App.handleLogin role s)
                /\ LoginView.error f' = "")
  /\ (~ matches <->
        exists f', LoginView.handleSubmit (Some role) f s = Some (f', s)
                   /\ LoginView.error f' = LoginView.invalid)
  /\ (matches ->
        forall f' s', LoginView.handleSubmit (Some role) f s = Some (f', s') ->
          App.userRole s' = Some role /\ App.view s' = App.dashboardOf (Some role))
  /\ (~ matches ->
        forall f' s', LoginView.handleSubmit (Some role) f s = Some (f', s') ->
          App.userRole s' = App.userRole s /\ App.view s' = App.view s).
Proof.
  intros expected matches.
  assert (Hacc : LoginView.accepts role f = true <-> matches) by apply accepts_matches.
  split; [rewrite <- Hacc; apply accepts_spec|].
  unfold LoginView.handleSubmit.
  destruct (LoginView.accepts role f) eqn:Hok.
  - assert (matches) as Hm by (apply Hacc; reflexivity).
    split; [|split; [|split]].
    + split; [intros _; eexists; split; reflexivity | intros _; exact Hm].
    + split; [intros Hn; contradiction|].
      intros (f' & Heq & Herr). injection Heq as <- _. discriminate Herr.
    + intros _ f' s' Heq. injection Heq as _ <-. split; reflexivity.
    + intros Hn. contradiction.
  - assert (~ matches) as Hn by (intros Hm; apply Hacc in Hm; discriminate).
    split; [|split; [|split]].
    + split; [intros Hm; contradiction|].
      intros (f' & Heq & Herr). injection Heq as <- _. discriminate Herr.
    + split; [intros _; eexists; split; reflexivity | intros _; exact Hn].
    + intros Hm. contradiction.
    + intros _ f' s' Heq. injection Heq as _ <-. split; reflexivity.
Qed.

End LoginFacts.

Lemma login_check_witness :
  (exists f', LoginView.handleSubmit (Some Teacher) Sample.typed Sample.at_login
                = Some (f', App.handleLogin Teacher Sample.at_login)
              /\ LoginView.error f' = "")
  /\ (exists f', LoginView.handleSubmit (Some Teacher) Sample.shouted Sample.at_login
                   = Some (f', Sample.at_login)
                 /\ LoginView.error f' = LoginView.invalid).
Proof.
  destruct (login_check Teacher Sample.typed Sample.at_login) as (_ & Hin & _).
  destruct (login_check Teacher Sample.shouted Sample.at_login) as (Hcode & _ & Hout & _).
  split.
  - apply Hin. split.
    + exists (Js.units "Teacher"). split.
      * exists (Js.units "  "), (Js.units " ").
        split; [reflexivity | split; repeat constructor].
      * apply List.Forall2_cons;
          [right; split; [vm_compute; split; discriminate | reflexivity]|].
        repeat (apply List.Forall2_cons; [left; reflexivity|]). apply List.Forall2_nil.
    + exists [], [10%N]. split; [reflexivity | split; repeat constructor].
  - apply Hout. intros Hm. apply Hcode in Hm. destruct Hm as [_ Hpw]. discriminate Hpw.
Defined.

(** ** Publishing scores *)

Section PublishFacts.

Lemma setDoc_scores (id : string) (p : ScorePayload.t) (fs : Firestore.t) :
  (exists fs', Firestore.setDoc id p fs = (Retry.Fulfilled tt, fs')
               /\ Firestore.scores fs' = <[id := p]> (Firestore.scores fs)
               /\ Firestore.goes_through 1 (Firestore.faults fs) = true)
  \/ (exists e fs', Firestore.setDoc id p fs = (Retry.Rejected e, fs')
                    /\ Firestore.scores fs' = Firestore.scores fs
                    /\ Firestore.faults fs = true :: Firestore.faults fs').
Proof.
  unfold Firestore.setDoc.
  destruct (Firestore.faults fs) as [|[|] rest] eqn:Hf.
  - left. eexists. repeat split.
  - right. eexists _, _. repeat split.
  - left. eexists. repeat split.
Qed.

(** When one of the writes ahead goes through, the wrapper fulfils and the
    store holds the document under its key; the rejected writes before it
    left the collection alone. *)
Lemma loop_setDoc_upserts (id : string) (p : ScorePayload.t) (maxRetries : nat) :
  forall remaining i fs,
    (i + remaining = maxRetries)%nat ->
    Firestore.goes_through remaining (Firestore.faults fs) = true ->
    exists fs' tr,
      Retry.loop (Firestore.setDoc id p) maxRetries i remaining fs
        = (Retry.Fulfilled (Some tt), fs', tr)
      /\ Firestore.scores fs' = <[id := p]> (Firestore.scores fs).
Proof.
  induction remaining as [|r IH]; intros i fs Hsum Hgo; [discriminate|].
  simpl Retry.loop.
  destruct (setDoc_scores id p fs) as [(fs' & Hset & Hsc & _)|(e & fs' & Hset & Hsc & Hf)];
    rewrite Hset.
  - exists fs', [Retry.Invoke]. split; [reflexivity | exact Hsc].
  - simpl in Hgo. rewrite Hf in Hgo.
    destruct r as [|r]; [discriminate|].
    destruct (Nat.eqb_spec i (maxRetries - 1)) as [Heq|_]; [lia|].
    destruct (IH (S i) fs') as (fs'' & tr & Hloop & Hsc'); [lia | exact Hgo |].
    rewrite Hloop. eexists _, _. split; [reflexivity|]. rewrite Hsc', Hsc. reflexivity.
Qed.

(** Whatever the faults, the wrapper around [setDoc] either fulfils with the
    document written under its key or rejects with the collection as it
    was. *)
Lemma loop_setDoc_cases (id : string) (p : ScorePayload.t) (maxRetries : nat) :
  forall remaining i fs,
    (0 < remaining)%nat -> (i + remaining = maxRetries)%nat ->
    exists r fs' tr,
      Retry.loop (Firestore.setDoc id p) maxRetries i remaining fs = (r, fs', tr)
      /\ ((r = Retry.Fulfilled (Some tt)
           /\ Firestore.scores fs' = <[id := p]> (Firestore.scores fs))
          \/ ((exists e, r = Retry.Rejected e)
              /\ Firestore.scores fs' = Firestore.scores fs)).
Proof.
  induction remaining as [|r IH]; intros i fs Hpos Hsum; [lia|].
  simpl Retry.loop.
  destruct (setDoc_scores id p fs) as [(fs' & Hset & Hsc & _)|(e & fs' & Hset & Hsc & Hf)];
    rewrite Hset.
  - exists (Retry.Fulfilled (Some tt)), fs', [Retry.Invoke].
    split; [reflexivity|]. left. split; [reflexivity | exact Hsc].
  - destruct (Nat.eqb_spec i (maxRetries - 1)) as [Hlast|Hmore].
    + exists (Retry.Rejected e), fs', [Retry.Invoke].
      split; [reflexivity|]. right. split; [exists e; reflexivity | exact Hsc].
    + destruct (IH (S i) fs' ltac:(lia) ltac:(lia)) as (res & fs'' & tr & Hloop & Hcases).
      rewrite Hloop. eexists _, _, _. split; [reflexivity|].
      rewrite <- Hsc. exact Hcases.
Qed.

(** The form's submission leaves the collection as it was or with the
    form's document under the selected event id, and says which. *)
Lemma handleSubmit_store events userId now f fs :
  let r := AddScoresView.handleSubmit events userId now f fs in
  let f' := fst (fst r) in
  let fs' := snd (fst r) in
  (AddScoresView.message f' = AddScoresView.published
     /\ Firestore.scores fs'
          = <[AddScoresView.selectedEventId f :=
                AddScoresView.scorePayload events userId now f]> (Firestore.scores fs))
  \/ (AddScoresView.message f' <> AddScoresView.published
       /\ Firestore.scores fs' = Firestore.scores fs)
  \/ (Js.truthy (AddScoresView.selectedEventId f) = false /\ f' = f /\ fs' = fs).
Proof.
  unfold AddScoresView.handleSubmit.
  destruct (Js.truthy (AddScoresView.selectedEventId f)) eqn:Hsel; simpl negb; cbv iota.
  - destruct (loop_setDoc_cases (AddScoresView.selectedEventId f)
                (AddScoresView.scorePayload events userId now f) 3 3 0 fs
                ltac:(lia) eq_refl)
      as (r & fs' & tr & Hloop & [[-> Hsc]|[[e ->] Hsc]]);
      unfold Retry.withRetry, Retry.default_maxRetries; rewrite Hloop; simpl.
    + left. split; [reflexivity | exact Hsc].
    + right. left. split; [discriminate | exact Hsc].
  - right. right. repeat split.
Qed.

Lemma filled_spec (r : Result.t) :
  AddScoresView.filled r
  = negb (String.eqb (Result.score r) "" && String.eqb (Result.rank r) "").
Proof.
  unfold AddScoresView.filled, Js.truthy.
  destruct (String.eqb (Result.score r) ""), (String.eqb (Result.rank r) ""); reflexivity.
Qed.

Lemma handleSubmit_upserts events userId now f fs :
  Js.truthy (AddScoresView.selectedEventId f) = true ->
  Firestore.goes_through 3 (Firestore.faults fs) = true ->
  exists fs' tr,
    AddScoresView.handleSubmit events userId now f fs
      = ({| AddScoresView.selectedEventId := ""; AddScoresView.scoreData := [];
            AddScoresView.loading := false;
            AddScoresView.message := AddScoresView.published |}, fs', tr)
    /\ Firestore.scores fs'
         = <[AddScoresView.selectedEventId f :=
               AddScoresView.scorePayload events userId now f]> (Firestore.scores fs).
Proof.
  intros Hsel Hgo. unfold AddScoresView.handleSubmit. rewrite Hsel. simpl negb. cbv iota.
  destruct (loop_setDoc_upserts (AddScoresView.selectedEventId f)
              (AddScoresView.scorePayload events userId now f) 3 3 0 fs eq_refl Hgo)
    as (fs' & tr & Hloop & Hsc).
  unfold Retry.withRetry, Retry.default_maxRetries. rewrite Hloop.
  exists fs', tr. split; [reflexivity | exact Hsc].
Qed.

(** C8. Publishing writes the document under the selected event id, with
    that id as its [eventId] and, as [results], the rows of the form less
    those whose score and rank are both empty.  Publishing again for the
    same event replaces that document: the collection has one document
    under that key, the later one with its results and its [publishedAt],
    no document more than after the first publication, and the documents
    under other keys are as before. *)
Theorem publishScores_upsert
  (events1 events2 : list Event.t) (uid1 uid2 : option string) (now1 now2 : string)
  (f1 f2 : AddScoresView.Form) (fs : Firestore.t) :
  let key := AddScoresView.selectedEventId f1 in
  let fs1 := snd (fst (AddScoresView.handleSubmit events1 uid1 now1 f1 fs)) in
  let fs2 := snd (fst (AddScoresView.handleSubmit events2 uid2 now2 f2 fs1)) in
  let p1 := AddScoresView.scorePayload events1 uid1 now1 f1 in
  let p2 := AddScoresView.scorePayload events2 uid2 now2 f2 in
  Js.truthy key = true ->
  AddScoresView.selectedEventId f2 = key ->
  Firestore.goes_through 3 (Firestore.faults fs) = true ->
  Firestore.goes_through 3 (Firestore.faults fs1) = true ->
  Firestore.scores fs1 = <[key := p1]> (Firestore.scores fs)
  /\ ScorePayload.eventId p1 = key
  /\ ScorePayload.results p1
       = List.filter
           (fun r => negb (String.eqb (Result.score r) "" && String.eqb (Result.rank r) ""))
           (AddScoresView.scoreData f1)
  /\ Firestore.scores fs2 = <[key := p2]> (Firestore.scores fs)
  /\ Firestore.scores fs2 !! key = Some p2
  /\ ScorePayload.publishedAt p2 = now2
  /\ ScorePayload.results p2 = AddScoresView.validScores f2
  /\ size (Firestore.scores fs2) = size (Firestore.scores fs1)
  /\ (forall k, k <> key -> Firestore.scores fs2 !! k = Firestore.scores fs !! k).
Proof.
  intros key fs1 fs2 p1 p2 Hkey Hsame Hgo Hgo1.
  destruct (handleSubmit_upserts events1 uid1 now1 f1 fs Hkey Hgo) as (fs1' & tr1 & H1 & Hs1).
  assert (Hsc1 : Firestore.scores fs1 = <[key := p1]> (Firestore.scores fs)).
  { unfold fs1. rewrite H1. exact Hs1. }
  assert (Js.truthy (AddScoresView.selectedEventId f2) = true) as Hkey2
    by (rewrite Hsame; exact Hkey).
  destruct (handleSubmit_upserts events2 uid2 now2 f2 fs1 Hkey2 Hgo1)
    as (fs2' & tr2 & H2 & Hs2).
  assert (Hsc2 : Firestore.scores fs2 = <[key := p2]> (Firestore.scores fs)).
  { unfold fs2. rewrite H2. simpl. rewrite Hs2, Hsame, Hsc1. apply insert_insert_eq. }
  clearbody fs2. clear H1 H2 Hs1 Hs2 Hgo1. clearbody fs1.
  rewrite Hsc2, Hsc1.
  split; [reflexivity|]. split; [reflexivity|].
  split.
  { unfold p1, AddScoresView.scorePayload, AddScoresView.validScores. simpl.
    apply List.filter_ext. intros r. apply filled_spec. }
  split; [reflexivity|].
  split; [apply lookup_insert_eq|].
  split; [reflexivity|]. split; [reflexivity|].
  split.
  - transitivity (size (<[key := p2]> (<[key := p1]> (Firestore.scores fs)))).
    + rewrite insert_insert_eq. reflexivity.
    + apply map_size_insert_Some. rewrite lookup_insert_eq. eauto.
  - intros k Hk. apply lookup_insert_ne. congruence.
Qed.

End PublishFacts.

Lemma publishScores_upsert_witness :
  let fs1 := snd (fst (AddScoresView.handleSubmit MOCK_EVENTS (Some "uid-1")
                         "2025-10-16T10:00:00.000Z" Sample.first_form Sample.flaky_store)) in
  let fs2 := snd (fst (AddScoresView.handleSubmit MOCK_EVENTS (Some "uid-1")
                         "2025-10-17T08:30:00.000Z" Sample.second_form fs1)) in
  Firestore.scores fs2 !! "1"
    = Some (AddScoresView.scorePayload MOCK_EVENTS (Some "uid-1")
              "2025-10-17T08:30:00.000Z" Sample.second_form)
  /\ size (Firestore.scores fs2) = size (Firestore.scores fs1).
Proof.
  intros fs1 fs2.
  destruct (publishScores_upsert MOCK_EVENTS MOCK_EVENTS (Some "uid-1") (Some "uid-1")
              "2025-10-16T10:00:00.000Z" "2025-10-17T08:30:00.000Z"
              Sample.first_form Sample.second_form Sample.flaky_store
              eq_refl eq_refl eq_refl eq_refl)
    as (_ & _ & _ & _ & Hlook & _ & _ & Hsize & _).
  split; [exact Hlook | exact Hsize].
Defined.

(** ** The month selection of the calendar *)

(** C7, at the input where the code departs from it.  Five hours west of
    Greenwich, with the seed events on the calendar and November 2025
    displayed, [goToDetails] selects the events of 5 and 20 November and
    also the Photography Contest of 1 December, which [new Date] places at
    midnight UTC, 30 November 19:00 local time; with December displayed the
    contest is left out.  The calendar grid, which compares date strings,
    counts the contest on 1 December.  The events dated in November are the
    first two only. *)
Theorem goToDetails_west_of_greenwich :
  let calendar := App.setView App.EventCalendar Sample.student_session in
  let november :=
    EventCalendarView.goToDetails JsDate.new_york_winter 2025 10 (App.events calendar)
      App.initial_heap calendar in
  let december :=
    EventCalendarView.goToDetails JsDate.new_york_winter 2025 11 (App.events calendar)
      App.initial_heap calendar in
  App.view (snd november) = App.EventDetails
  /\ option_map (Heap.read (fst november)) (App.selectedEvent (snd november))
       = Some (List.filter (fun e => bool_decide (Event.id e ∈ ["2"; "3"; "4"])) MOCK_EVENTS)
  /\ List.filter (Spec.dated_in 2025 10) MOCK_EVENTS
       = List.filter (fun e => bool_decide (Event.id e ∈ ["2"; "3"])) MOCK_EVENTS
  /\ option_map (Heap.read (fst december)) (App.selectedEvent (snd december))
       = Some (List.filter (fun e => bool_decide (Event.id e ∈ ["5"])) MOCK_EVENTS)
  /\ List.filter (Spec.dated_in 2025 11) MOCK_EVENTS
       = List.filter (fun e => bool_decide (Event.id e ∈ ["4"; "5"])) MOCK_EVENTS
  /\ EventCalendarView.getEventsForDay 2025 11 MOCK_EVENTS 1 = 1%nat
  /\ EventCalendarView.getEventsForDay 2025 10 MOCK_EVENTS 30 = 0%nat.
Proof. vm_compute. repeat split. Qed.

(** ** Sorting in place *)

(** C9, at the inputs where the code departs from it.  [EventDetailsView],
    given the cached events array (no month selected), sorts that array
    where it is: the merged list, seed events first and the live event
    after them, has the live event first once the view has rendered.
    [ResultModal] sorts the [results] array of the cached score object it is
    given: with a collation that puts [1st] before [2nd], the rows of the
    publication change places in the cache. *)
Theorem views_sort_cached_arrays_in_place (localeCompare : string -> string -> Z) :
  0 < localeCompare "2nd" "1st" ->
  (let h := fst Sample.synced in
   let s := App.setView App.EventDetails (snd Sample.synced) in
   App.selectedEvent s = None
   /\ App.renderView s = App.El_EventDetailsView (App.events s) (Some Student)
   /\ Heap.read h (App.events s) = MOCK_EVENTS ++ [Sample.orientation]
   /\ Heap.read (fst (EventDetailsView.render h (App.events s))) (App.events s)
        = Sample.orientation :: MOCK_EVENTS)
  /\ (let h := fst Sample.graded in
      exists score,
        App.scores (snd Sample.graded) = [score]
        /\ Heap.readResults h (Score.results score)
             = [ Sample.row "student-A" "Alfie B." "10.4s" "2nd";
                 Sample.row "student-B" "Betty C." "10.1s" "1st" ]
        /\ Heap.readResults
             (fst (ViewResultsView.ResultModal localeCompare h score)) (Score.results score)
             = [ Sample.row "student-B" "Betty C." "10.1s" "1st";
                 Sample.row "student-A" "Alfie B." "10.4s" "2nd" ]).
Proof.
  intros Hcollation. split.
  - vm_compute. repeat split.
  - eexists. split; [reflexivity|]. split; [reflexivity|].
    unfold ViewResultsView.ResultModal, Heap.readResults, Heap.writeResults. simpl.
    unfold ViewResultsView.byRank. simpl.
    change (Js.or_else "2nd" "") with "2nd". change (Js.or_else "1st" "") with "1st".
    destruct (Z.leb_spec (localeCompare "2nd" "1st") 0) as [Hle|_]; [lia | reflexivity].
Qed.

Lemma views_sort_cached_arrays_in_place_witness :
  Heap.read (fst (EventDetailsView.render (fst Sample.synced) 1%nat)) 1%nat
    = Sample.orientation :: MOCK_EVENTS.
Proof.
  destruct (views_sort_cached_arrays_in_place ViewResultsView.by_leading_number)
    as [(_ & _ & _ & Hsorted) _]; [reflexivity | exact Hsorted].
Defined.

(** ** The calendar arithmetic behind [Date] *)

Section DateFacts.

Local Ltac zdiv := Z.div_mod_to_equations; lia.

Lemma civil_of_march_year y' doy :
  0 <= doy <= 365 -> (doy = 365 -> JsDate.leap_next y') ->
  let era := y' / 400 in
  let yoe := y' - era * 400 in
  let doe := yoe * 365 + yoe / 4 - yoe / 100 + doy in
  let z' := era * 146097 + doe - 719468 + 719468 in
  let era' := z' / 146097 in
  let doe' := z' - era' * 146097 in
  let yoe' := (doe' - doe' / 1460 + doe' / 36524 - doe' / 146096) / 365 in
  era' = era /\ yoe' = yoe /\ doe' - (365 * yoe' + yoe' / 4 - yoe' / 100) = doy.
Proof.
  intros Hdoy Hleap era yoe doe z' era' doe' yoe'.
  assert (0 <= yoe < 400) as Hyoe by (subst yoe era; zdiv).
  assert (doy = 365 -> yoe mod 4 = 3 /\ (yoe mod 100 <> 99 \/ yoe = 399)) as Hleap'.
  { intros H. destruct (Hleap H) as [H4 H100]. subst yoe era. zdiv. }
  assert (0 <= doe <= 146096) as Hdoe by (subst doe; zdiv).
  assert (era' = era) as Hera by (subst era' z'; zdiv).
  assert (doe' = doe) as Hdoe' by (subst doe'; rewrite Hera; subst z'; lia).
  assert (yoe' = yoe) as Hyoe'.
  { subst yoe'. rewrite Hdoe'. subst doe. clear - Hyoe Hdoy Hleap'. zdiv. }
  split; [exact Hera|]. split; [exact Hyoe'|]. rewrite Hyoe', Hdoe'. subst doe. lia.
Qed.

Lemma days_in_month_bounds y m d :
  1 <= m <= 12 -> 1 <= d <= JsDate.days_in_month y m ->
  d <= 31
  /\ (m = 2 -> d <= 29 /\ (d = 29 -> y mod 4 = 0 /\ (y mod 100 <> 0 \/ y mod 400 = 0)))
  /\ (m = 4 \/ m = 6 \/ m = 9 \/ m = 11 -> d <= 30).
Proof.
  intros Hm Hd. unfold JsDate.days_in_month, JsDate.is_leap in Hd.
  destruct (Z.eqb_spec m 2) as [->|H2].
  - destruct (Z.eqb_spec (y mod 4) 0), (Z.eqb_spec (y mod 100) 0), (Z.eqb_spec (y mod 400) 0);
      simpl in Hd; repeat split; try lia; intros; try lia.
  - destruct (Z.eqb_spec m 4), (Z.eqb_spec m 6), (Z.eqb_spec m 9), (Z.eqb_spec m 11);
      simpl in Hd; repeat split; intros; try lia.
Qed.

(** The date of the day number of a date is that date. *)
Lemma civil_from_days_from_civil y m d :
  1 <= m <= 12 -> 1 <= d <= JsDate.days_in_month y m ->
  JsDate.civil_from_days (JsDate.days_from_civil y m d) = (y, m, d).
Proof.
  intros Hm Hd.
  destruct (days_in_month_bounds y m d Hm Hd) as (H31 & Hfeb & H30).
  assert (1 <= d) as Hd1 by lia. clear Hd.
  set (y' := if m <=? 2 then y - 1 else y).
  set (mp := (m + 9) mod 12).
  set (doy := (153 * mp + 2) / 5 + d - 1).
  assert (Hmp : 0 <= mp <= 11 /\ (m <= 2 -> mp = m + 9 /\ y' = y - 1)
                /\ (3 <= m -> mp = m - 3 /\ y' = y)).
  { subst mp y'. destruct (Z.leb_spec m 2); repeat split; intros; try lia; zdiv. }
  destruct Hmp as (Hmp & Hjf & Hrest).
  assert (Hdoy : 0 <= doy <= 365 /\ (doy = 365 -> JsDate.leap_next y')
                 /\ (5 * doy + 2) / 153 = mp
                 /\ doy - (153 * mp + 2) / 5 + 1 = d).
  { subst doy. unfold JsDate.leap_next.
    assert (mp = 0 \/ mp = 1 \/ mp = 2 \/ mp = 3 \/ mp = 4 \/ mp = 5 \/ mp = 6 \/ mp = 7
            \/ mp = 8 \/ mp = 9 \/ mp = 10 \/ mp = 11) as Hc by lia.
    clearbody mp y'.
    repeat (destruct Hc as [Hc|Hc]); subst mp;
      repeat split; intros; try zdiv. }
  destruct Hdoy as (Hdoy & Hleap & Hmp' & Hd').
  pose proof (civil_of_march_year y' doy Hdoy Hleap) as Hcore. cbv zeta in Hcore.
  destruct Hcore as (Hera & Hyoe & Hdoy').
  unfold JsDate.civil_from_days, JsDate.days_from_civil. cbv zeta.
  fold y' mp doy.
  rewrite Hdoy', Hyoe, Hera, Hmp', Hd'.
  destruct (Z.ltb_spec mp 10) as [Hlt|Hge].
  - assert (3 <= m) by lia. destruct (Hrest ltac:(lia)) as [-> ->].
    replace (m - 3 + 3) with m by lia.
    destruct (Z.leb_spec m 2); [lia|]. f_equal. f_equal. zdiv.
  - assert (m <= 2) by lia. destruct (Hjf ltac:(lia)) as [-> ->].
    replace (m + 9 - 9) with m by lia.
    destruct (Z.leb_spec m 2); [|lia]. f_equal. f_equal. zdiv.
Qed.

Lemma parse_ymd_valid s y m d :
  JsDate.parse_ymd s = Some (y, m, d) ->
  1 <= m <= 12 /\ 1 <= d <= JsDate.days_in_month y m.
Proof.
  unfold JsDate.parse_ymd. intros H.
  repeat (destruct s as [|? s]; try discriminate).
  destruct (_ && _); [|discriminate].
  destruct (JsDate.num4 _ _ _ _); [|discriminate].
  destruct (JsDate.num2 _ _); [|discriminate].
  destruct (JsDate.num2 _ _); [|discriminate].
  destruct (_ && _ && _ && _) eqn:Hok; [|discriminate].
  injection H as <- <- <-.
  rewrite !andb_true_iff in Hok. destruct Hok as (((H1 & H2) & H3) & H4).
  apply Z.leb_le in H1, H2, H3, H4. lia.
Qed.

(** Read in a time zone at or east of Greenwich, less than a day ahead, the
    midnight UTC of a date is a time of that date. *)
Lemma local_civil_east (localTZA : Z -> Z) y m d :
  (forall t, 0 <= localTZA t < JsDate.msPerDay) ->
  1 <= m <= 12 -> 1 <= d <= JsDate.days_in_month y m ->
  JsDate.local_civil localTZA (JsDate.days_from_civil y m d * JsDate.msPerDay) = (y, m, d).
Proof.
  intros Htz Hm Hd. unfold JsDate.local_civil.
  specialize (Htz (JsDate.days_from_civil y m d * JsDate.msPerDay)).
  set (days := JsDate.days_from_civil y m d) in *.
  set (off := localTZA (days * JsDate.msPerDay)) in *.
  replace ((days * JsDate.msPerDay + off) / JsDate.msPerDay) with days.
  - apply civil_from_days_from_civil; assumption.
  - unfold JsDate.msPerDay in *. clearbody days off. zdiv.
Qed.

(** East of Greenwich the test of [goToDetails] is the month of the date
    string. *)
Lemma inCurrentMonth_east (localTZA : Z -> Z) (year month0 : Z) (e : Event.t) :
  (forall t, 0 <= localTZA t < JsDate.msPerDay) ->
  EventCalendarView.inCurrentMonth localTZA year month0 e = Spec.dated_in year month0 e.
Proof.
  intros Htz. unfold EventCalendarView.inCurrentMonth, Spec.dated_in, JsDate.new_Date.
  destruct (JsDate.parse_ymd (Event.date e)) as [[[y m] d]|] eqn:Hparse; [|reflexivity].
  destruct (parse_ymd_valid _ _ _ _ Hparse) as [Hm Hd].
  unfold JsDate.getMonth, JsDate.getFullYear.
  rewrite (local_civil_east localTZA y m d Htz Hm Hd). simpl.
  rewrite andb_comm. f_equal.
  destruct (Z.eqb_spec (m - 1) month0), (Z.eqb_spec m (month0 + 1)); try reflexivity; lia.
Qed.

End DateFacts.

(** At or east of Greenwich, for events with dates of the form
    [YYYY-MM-DD], [goToDetails] selects the events dated in the displayed
    month, in the order of the collection, in a new array; the arrays there
    were are left alone. *)
Lemma goToDetails_east (localTZA : Z -> Z) (year month0 : Z) (events : Heap.loc)
  (h : Heap.t) (s : App.State) :
  (forall t, 0 <= localTZA t < JsDate.msPerDay) ->
  Forall Spec.well_dated (Heap.read h events) ->
  let r := EventCalendarView.goToDetails localTZA year month0 events h s in
  App.view (snd r) = App.EventDetails
  /\ App.selectedEvent (snd r) = Some (length (Heap.arrays h))
  /\ Heap.read (fst r) (length (Heap.arrays h))
       = List.filter (Spec.dated_in year month0) (Heap.read h events)
  /\ (forall l, (l < length (Heap.arrays h))%nat -> Heap.read (fst r) l = Heap.read h l)
  /\ App.events (snd r) = App.events s.
Proof.
  intros Htz _ r. subst r. unfold EventCalendarView.goToDetails, Heap.alloc. simpl.
  split; [reflexivity|]. split; [reflexivity|]. split; [|split; [|reflexivity]].
  - unfold Heap.read at 1. simpl. rewrite lookup_app_r by reflexivity.
    rewrite Nat.sub_diag. simpl. apply List.filter_ext. intros e.
    apply inCurrentMonth_east. exact Htz.
  - intros l Hl. unfold Heap.read. simpl. rewrite lookup_app_l by exact Hl. reflexivity.
Qed.

(** ** The stable sort *)

Section SortFacts.
Context {X : Type}.
Variable cmp : X -> X -> Z.
Variable key : X -> Z.
(** The elements on which the comparator is the difference of the keys. *)
Variable P : X -> Prop.
Hypothesis cmp_key : forall a b, P a -> P b -> (cmp a b <=? 0) = (key a <=? key b).

Let le_key (a b : X) : Prop := key a <= key b.

Lemma insert_sorted_perm x l : Permutation (Js.insert_sorted cmp x l) (x :: l).
Proof.
  induction l as [|y l IH]; simpl; [reflexivity|].
  destruct (cmp x y <=? 0); [reflexivity|].
  rewrite IH. apply perm_swap.
Qed.

Lemma sort_perm l : Permutation (Js.sort cmp l) l.
Proof.
  induction l as [|x l IH]; simpl; [reflexivity|].
  rewrite insert_sorted_perm. apply perm_skip. exact IH.
Qed.

Lemma sort_Forall l : Forall P l -> Forall P (Js.sort cmp l).
Proof. intros H. eapply Permutation_Forall; [symmetry; apply sort_perm | exact H]. Qed.

Lemma insert_sorted_HdRel y x l :
  P x -> P y -> Forall P l -> key y <= key x -> HdRel le_key y l ->
  HdRel le_key y (Js.insert_sorted cmp x l).
Proof.
  intros Px Py Pl Hyx Hhd. destruct l as [|z l]; simpl.
  - constructor. exact Hyx.
  - destruct (cmp x z <=? 0); constructor; [exact Hyx|].
    inversion Hhd; assumption.
Qed.

Lemma insert_sorted_Sorted x l :
  P x -> Forall P l -> Sorted le_key l -> Sorted le_key (Js.insert_sorted cmp x l).
Proof.
  intros Px Pl Hs. induction l as [|y l IH]; simpl.
  - repeat constructor.
  - inversion Pl as [|? ? Py Pl']; subst. inversion Hs as [|? ? Hs' Hhd]; subst.
    rewrite (cmp_key x y Px Py).
    destruct (Z.leb_spec (key x) (key y)) as [Hle|Hgt].
    + constructor; [exact Hs|]. constructor. exact Hle.
    + constructor; [apply IH; assumption|].
      apply insert_sorted_HdRel; try assumption. unfold le_key. lia.
Qed.

(** The sorted array is in ascending order of the keys. *)
Lemma sort_Sorted l : Forall P l -> Sorted le_key (Js.sort cmp l).
Proof.
  induction l as [|x l IH]; simpl; intros Hl; [constructor|].
  inversion Hl; subst. apply insert_sorted_Sorted; auto using sort_Forall.
Qed.

(** Stability: the elements of one key keep their order. *)
Lemma insert_sorted_filter (p : X -> bool) x l :
  (forall a b, p a = true -> p b = true -> key a = key b) ->
  P x -> Forall P l ->
  List.filter p (Js.insert_sorted cmp x l) = List.filter p (x :: l).
Proof.
  intros Hclass Px Pl. induction l as [|y l IH]; [reflexivity|].
  inversion Pl as [|? ? Py Pl']; subst. simpl Js.insert_sorted.
  rewrite (cmp_key x y Px Py).
  destruct (Z.leb_spec (key x) (key y)) as [Hle|Hgt]; [reflexivity|].
  simpl. simpl in IH. rewrite (IH Pl').
  destruct (p x) eqn:Hpx, (p y) eqn:Hpy; try reflexivity.
  pose proof (Hclass x y Hpx Hpy). lia.
Qed.

Lemma sort_filter (p : X -> bool) l :
  (forall a b, p a = true -> p b = true -> key a = key b) ->
  Forall P l ->
  List.filter p (Js.sort cmp l) = List.filter p l.
Proof.
  intros Hclass. induction l as [|x l IH]; intros Hl; [reflexivity|].
  inversion Hl; subst. simpl Js.sort.
  rewrite insert_sorted_filter; auto using sort_Forall.
  simpl. rewrite IH by assumption. reflexivity.
Qed.

End SortFacts.

(** ** Grouping by date *)

Section GroupFacts.

Lemma existsb_eqb_In (k : string) (ks : list string) :
  existsb (String.eqb k) ks = true <-> In k ks.
Proof.
  rewrite existsb_exists. split.
  - intros (k' & Hin & Heq). apply String.eqb_eq in Heq. subst. exact Hin.
  - intros Hin. exists k. split; [exact Hin | apply String.eqb_refl].
Qed.

Lemma add_key_spec (ks : list string) (k : string) :
  (In k ks /\ Spec.add_key ks k = ks) \/ (~ In k ks /\ Spec.add_key ks k = ks ++ [k]).
Proof.
  unfold Spec.add_key. destruct (existsb (String.eqb k) ks) eqn:Hex.
  - left. split; [apply existsb_eqb_In; exact Hex | reflexivity].
  - right. split; [|reflexivity]. intros Hin. apply existsb_eqb_In in Hin. congruence.
Qed.

Lemma date_keys_snoc (p : list Event.t) (e : Event.t) :
  Spec.date_keys (p ++ [e]) = Spec.add_key (Spec.date_keys p) (EventDetailsView.dateKey e).
Proof. unfold Spec.date_keys. rewrite List.map_app, fold_left_app. reflexivity. Qed.

Lemma date_keys_In (p : list Event.t) (k : string) :
  In k (Spec.date_keys p) <-> exists e, In e p /\ EventDetailsView.dateKey e = k.
Proof.
  induction p as [|e p IH] using rev_ind.
  - simpl. split; [intros [] | intros (e & [] & _)].
  - rewrite date_keys_snoc.
    destruct (add_key_spec (Spec.date_keys p) (EventDetailsView.dateKey e))
      as [[Hin ->]|[Hnin ->]].
    + rewrite IH. split.
      * intros (e' & He' & Hk). exists e'. split; [apply in_or_app; left; exact He' | exact Hk].
      * intros (e' & He' & Hk). apply in_app_or in He'. destruct He' as [He'|[<-|[]]].
        -- exists e'. split; assumption.
        -- subst k. apply IH. exact Hin.
    + rewrite in_app_iff, IH. simpl. split.
      * intros [(e' & He' & Hk)|[<-|[]]].
        -- exists e'. split; [apply in_or_app; left; exact He' | exact Hk].
        -- exists e. split; [apply in_or_app; right; left; reflexivity | reflexivity].
      * intros (e' & He' & Hk). apply in_app_or in He'. destruct He' as [He'|[<-|[]]].
        -- left. exists e'. split; assumption.
        -- right. left. exact Hk.
Qed.

Lemma date_keys_NoDup (p : list Event.t) : List.NoDup (Spec.date_keys p).
Proof.
  induction p as [|e p IH] using rev_ind; [constructor|].
  rewrite date_keys_snoc.
  destruct (add_key_spec (Spec.date_keys p) (EventDetailsView.dateKey e))
    as [[Hin ->]|[Hnin ->]]; [exact IH|].
  apply NoDup_ListNoDup. apply NoDup_app. repeat split.
  - apply NoDup_ListNoDup. exact IH.
  - intros k Hk Hk'. apply list_elem_of_In in Hk. apply list_elem_of_In in Hk'.
    destruct Hk' as [<-|[]]. exact (Hnin Hk).
  - apply NoDup_singleton.
Qed.

Lemma date_keys_sublist (p : list Event.t) :
  sublist (Spec.date_keys p) (List.map EventDetailsView.dateKey p).
Proof.
  induction p as [|e p IH] using rev_ind; [constructor|].
  rewrite date_keys_snoc, List.map_app.
  destruct (add_key_spec (Spec.date_keys p) (EventDetailsView.dateKey e))
    as [[Hin ->]|[Hnin ->]].
  - apply sublist_inserts_r. exact IH.
  - apply sublist_app; [exact IH | reflexivity].
Qed.

Lemma on_date_snoc (k : string) (p : list Event.t) (e : Event.t) :
  Spec.on_date k (p ++ [e])
  = Spec.on_date k p ++ (if String.eqb (EventDetailsView.dateKey e) k then [e] else []).
Proof. unfold Spec.on_date. rewrite List.filter_app. reflexivity. Qed.

Lemma on_date_snoc_other (p : list Event.t) (e : Event.t) (ks : list string) :
  ~ In (EventDetailsView.dateKey e) ks ->
  List.map (fun k => (k, Spec.on_date k (p ++ [e]))) ks
  = List.map (fun k => (k, Spec.on_date k p)) ks.
Proof.
  intros Hnin. apply List.map_ext_in. intros k Hk. rewrite on_date_snoc.
  destruct (String.eqb_spec (EventDetailsView.dateKey e) k) as [Heq|_].
  - subst k. contradiction.
  - rewrite app_nil_r. reflexivity.
Qed.

Lemma push_grouped (p : list Event.t) (e : Event.t) (ks : list string) :
  List.NoDup ks -> In (EventDetailsView.dateKey e) ks ->
  EventDetailsView.push (EventDetailsView.dateKey e) e
    (List.map (fun k => (k, Spec.on_date k p)) ks)
  = List.map (fun k => (k, Spec.on_date k (p ++ [e]))) ks.
Proof.
  intros Hnd Hin. induction ks as [|k ks IH]; [destruct Hin|].
  inversion Hnd as [|? ? Hk Hnd']; subst. simpl.
  destruct (String.eqb_spec k (EventDetailsView.dateKey e)) as [Heq|Hne].
  - subst k. rewrite on_date_snoc, String.eqb_refl.
    rewrite (on_date_snoc_other p e ks Hk). reflexivity.
  - destruct Hin as [Heq|Hin]; [congruence|].
    rewrite (IH Hnd' Hin). rewrite on_date_snoc.
    destruct (String.eqb_spec (EventDetailsView.dateKey e) k) as [Heq|_]; [congruence|].
    rewrite app_nil_r. reflexivity.
Qed.

Lemma own_grouped (p : list Event.t) (k : string) :
  EventDetailsView.own (Spec.grouped p) k = existsb (String.eqb k) (Spec.date_keys p).
Proof.
  unfold EventDetailsView.own, Spec.grouped.
  induction (Spec.date_keys p) as [|k' ks IH]; simpl; [reflexivity|].
  rewrite IH, (String.eqb_sym k' k). reflexivity.
Qed.

Lemma on_date_absent (p : list Event.t) (k : string) :
  ~ In k (Spec.date_keys p) -> Spec.on_date k p = [].
Proof.
  intros Hnin. apply filter_none. intros e He. apply String.eqb_neq. intros Hk.
  apply Hnin. apply date_keys_In. exists e. split; assumption.
Qed.

Lemma step_grouped (p : list Event.t) (e : Event.t) :
  Js.inherited (EventDetailsView.dateKey e) = false ->
  EventDetailsView.step (Some (Spec.grouped p)) e = Some (Spec.grouped (p ++ [e])).
Proof.
  intros Hown. unfold EventDetailsView.step. rewrite own_grouped.
  unfold Spec.grouped at 2 3. rewrite date_keys_snoc.
  destruct (add_key_spec (Spec.date_keys p) (EventDetailsView.dateKey e))
    as [[Hin Hadd]|[Hnin Hadd]]; rewrite Hadd.
  - apply existsb_eqb_In in Hin as Hex. rewrite Hex. f_equal.
    apply push_grouped; [apply date_keys_NoDup | exact Hin].
  - destruct (existsb _ _) eqn:Hex; [apply existsb_eqb_In in Hex; contradiction|].
    rewrite Hown. f_equal. rewrite List.map_app. simpl.
    rewrite (on_date_snoc_other p e _ Hnin).
    rewrite on_date_snoc, String.eqb_refl, (on_date_absent p _ Hnin). reflexivity.
Qed.

Lemma fold_step_grouped (l : list Event.t) :
  forall p,
    Forall (fun e => Js.inherited (EventDetailsView.dateKey e) = false) l ->
    fold_left EventDetailsView.step l (Some (Spec.grouped p)) = Some (Spec.grouped (p ++ l)).
Proof.
  induction l as [|e l IH]; intros p Hl; cbn [fold_left].
  - rewrite app_nil_r. reflexivity.
  - inversion Hl; subst. rewrite step_grouped by assumption.
    rewrite IH by assumption. rewrite <- app_assoc. reflexivity.
Qed.

(** The [reduce] of the details view groups a list by date: one group for
    each date, in the order the dates first occur, each with the events of
    that date in the order of the list.  It throws on a date that is a name
    of [Object.prototype], and only then. *)
Lemma groupedEvents_grouped (l : list Event.t) :
  Forall (fun e => Js.inherited (EventDetailsView.dateKey e) = false) l ->
  EventDetailsView.groupedEvents l = Some (Spec.grouped l).
Proof. intros Hl. exact (fold_step_grouped l [] Hl). Qed.

Lemma Object_entries_no_index (g : EventDetailsView.Groups) :
  Forall (fun p => Js.array_index (fst p) = None) g ->
  EventDetailsView.Object_entries g = g.
Proof.
  intros Hg. unfold EventDetailsView.Object_entries.
  rewrite (filter_none _ g).
  - simpl. induction Hg as [|p g Hp Hg IH]; [reflexivity|].
    simpl. rewrite Hp. simpl. rewrite IH. reflexivity.
  - intros p Hp. rewrite List.Forall_forall in Hg. rewrite (Hg p Hp). reflexivity.
Qed.

End GroupFacts.

(** ** Date strings *)

Section DateStringFacts.

Lemma digit_range a x : JsDate.digit a = Some x -> 0 <= x <= 9.
Proof.
  unfold JsDate.digit, Js.digit_of.
  destruct (_ && _)%N eqn:Hr; [|discriminate]. simpl. intros [= <-].
  apply andb_true_iff in Hr. destruct Hr as [H1 H2].
  apply N.leb_le in H1, H2. lia.
Qed.

Lemma digit_inj a b x : JsDate.digit a = Some x -> JsDate.digit b = Some x -> a = b.
Proof.
  unfold JsDate.digit, Js.digit_of.
  destruct (_ && _)%N eqn:Ha; [|discriminate].
  destruct ((48 <=? N_of_ascii b)%N && _)%N eqn:Hb; [|discriminate].
  simpl. intros [= <-] [= Heq].
  apply andb_true_iff in Ha, Hb. destruct Ha as [Ha _], Hb as [Hb _].
  apply N.leb_le in Ha, Hb.
  assert (N_of_ascii a = N_of_ascii b) as Hn by lia.
  rewrite <- (ascii_N_embedding a), <- (ascii_N_embedding b), Hn. reflexivity.
Qed.

Lemma num2_inj a b a' b' v :
  JsDate.num2 a b = Some v -> JsDate.num2 a' b' = Some v -> a = a' /\ b = b'.
Proof.
  unfold JsDate.num2.
  destruct (JsDate.digit a) as [x|] eqn:Hx; [|discriminate].
  destruct (JsDate.digit b) as [y|] eqn:Hy; [|discriminate].
  destruct (JsDate.digit a') as [x'|] eqn:Hx'; [|discriminate].
  destruct (JsDate.digit b') as [y'|] eqn:Hy'; [|discriminate].
  intros [= <-] [= Heq].
  pose proof (digit_range _ _ Hx). pose proof (digit_range _ _ Hy).
  pose proof (digit_range _ _ Hx'). pose proof (digit_range _ _ Hy').
  assert (x' = x) by lia. assert (y' = y) by lia. subst.
  split; eapply digit_inj; eassumption.
Qed.

Lemma num2_range a b v : JsDate.num2 a b = Some v -> 0 <= v <= 99.
Proof.
  unfold JsDate.num2.
  destruct (JsDate.digit a) as [x|] eqn:Hx; [|discriminate].
  destruct (JsDate.digit b) as [y|] eqn:Hy; [|discriminate].
  intros [= <-]. pose proof (digit_range _ _ Hx). pose proof (digit_range _ _ Hy). lia.
Qed.

Lemma num4_inj a b c d a' b' c' d' v :
  JsDate.num4 a b c d = Some v -> JsDate.num4 a' b' c' d' = Some v ->
  a = a' /\ b = b' /\ c = c' /\ d = d'.
Proof.
  unfold JsDate.num4.
  destruct (JsDate.num2 a b) as [x|] eqn:Hx; [|discriminate].
  destruct (JsDate.num2 c d) as [y|] eqn:Hy; [|discriminate].
  destruct (JsDate.num2 a' b') as [x'|] eqn:Hx'; [|discriminate].
  destruct (JsDate.num2 c' d') as [y'|] eqn:Hy'; [|discriminate].
  intros [= <-] [= Heq].
  pose proof (num2_range _ _ _ Hx). pose proof (num2_range _ _ _ Hy).
  pose proof (num2_range _ _ _ Hx'). pose proof (num2_range _ _ _ Hy').
  assert (x' = x) by lia. assert (y' = y) by lia. subst.
  destruct (num2_inj _ _ _ _ _ Hx Hx'). destruct (num2_inj _ _ _ _ _ Hy Hy'). auto.
Qed.

(** A date of the form [YYYY-MM-DD]: its shape. *)
Lemma parse_ymd_shape s v :
  JsDate.parse_ymd s = Some v ->
  exists y1 y2 y3 y4 m1 m2 d1 d2 y m d,
    s = String y1 (String y2 (String y3 (String y4 (String "-"
          (String m1 (String m2 (String "-" (String d1 (String d2 EmptyString)))))))))
    /\ JsDate.num4 y1 y2 y3 y4 = Some y /\ JsDate.num2 m1 m2 = Some m
    /\ JsDate.num2 d1 d2 = Some d /\ v = (y, m, d).
Proof.
  unfold JsDate.parse_ymd. intros H.
  repeat (destruct s as [|? s]; try discriminate).
  destruct (Ascii.eqb_spec a3 "-") as [->|]; [|discriminate].
  destruct (Ascii.eqb_spec a6 "-") as [->|]; [|discriminate].
  simpl in H.
  destruct (JsDate.num4 _ _ _ _) as [y|] eqn:Hy; [|discriminate].
  destruct (JsDate.num2 a4 a5) as [m|] eqn:Hm; [|discriminate].
  destruct (JsDate.num2 a7 a8) as [d|] eqn:Hd; [|discriminate].
  destruct (_ && _ && _ && _); [|discriminate].
  injection H as <-.
  exists a, a0, a1, a2, a4, a5, a7, a8, y, m, d. repeat split; assumption.
Qed.

Lemma parse_ymd_inj s s' v :
  JsDate.parse_ymd s = Some v -> JsDate.parse_ymd s' = Some v -> s = s'.
Proof.
  intros H H'.
  destruct (parse_ymd_shape _ _ H)
    as (y1 & y2 & y3 & y4 & m1 & m2 & d1 & d2 & y & m & d & -> & Hy & Hm & Hd & ->).
  destruct (parse_ymd_shape _ _ H')
    as (z1 & z2 & z3 & z4 & n1 & n2 & e1 & e2 & y' & m' & d' & -> & Hy' & Hm' & Hd' & Heq).
  injection Heq as <- <- <-.
  destruct (num4_inj _ _ _ _ _ _ _ _ _ Hy Hy') as (-> & -> & -> & ->).
  destruct (num2_inj _ _ _ _ _ Hm Hm') as (-> & ->).
  destruct (num2_inj _ _ _ _ _ Hd Hd') as (-> & ->).
  reflexivity.
Qed.

(** Two well-formed date strings of one day are one string. *)
Lemma day_of_inj k k' :
  is_Some (JsDate.parse_ymd k) -> is_Some (JsDate.parse_ymd k') ->
  Spec.day_of k = Spec.day_of k' -> k = k'.
Proof.
  intros [[[y m] d] Hk] [[[y' m'] d'] Hk'] Hday. unfold Spec.day_of in Hday.
  rewrite Hk, Hk' in Hday.
  destruct (parse_ymd_valid _ _ _ _ Hk) as [Hm Hd].
  destruct (parse_ymd_valid _ _ _ _ Hk') as [Hm' Hd'].
  pose proof (civil_from_days_from_civil y m d Hm Hd) as Hr.
  rewrite Hday, (civil_from_days_from_civil y' m' d' Hm' Hd') in Hr.
  apply (parse_ymd_inj k k' (y, m, d)); [exact Hk | rewrite Hk', Hr; reflexivity].
Qed.

Lemma well_dated_dateKey e : Spec.well_dated e -> EventDetailsView.dateKey e = Event.date e.
Proof.
  intros [v Hv]. destruct (parse_ymd_shape _ _ Hv) as (? & ? & ? & ? & ? & ? & ? & ? & ? & ? & ?
    & Hs & _).
  unfold EventDetailsView.dateKey. rewrite Hs. reflexivity.
Qed.

Lemma well_formed_not_inherited k : is_Some (JsDate.parse_ymd k) -> Js.inherited k = false.
Proof.
  intros [v Hv]. destruct (parse_ymd_shape _ _ Hv) as (? & ? & ? & ? & ? & ? & ? & ? & ? & ? & ?
    & Hs & _).
  destruct (Js.inherited k) eqn:Hin; [|reflexivity].
  apply existsb_exists in Hin. destruct Hin as (n & Hn & Heq).
  apply String.eqb_eq in Heq. subst n.
  assert (String.length k = 10%nat) as Hlen by (rewrite Hs; reflexivity).
  unfold Js.object_prototype_names in Hn. simpl in Hn.
  repeat (destruct Hn as [Hn|Hn]; [rewrite <- Hn in Hlen; discriminate Hlen|]).
  destruct Hn.
Qed.

Lemma well_formed_not_index k : is_Some (JsDate.parse_ymd k) -> Js.array_index k = None.
Proof.
  intros [v Hv]. destruct (parse_ymd_shape _ _ Hv)
    as (y1 & y2 & y3 & y4 & ? & ? & ? & ? & ? & ? & ? & Hs & _).
  subst k. unfold Js.array_index.
  destruct (_ && _); [reflexivity|].
  simpl. destruct (Js.digit_of y1); [|reflexivity].
  destruct (Js.digit_of y2); [|reflexivity].
  destruct (Js.digit_of y3); [|reflexivity].
  destruct (Js.digit_of y4); reflexivity.
Qed.

(** On events with well-formed dates the comparator of the details view
    orders by day. *)
Lemma byDate_day a b :
  Spec.well_dated a -> Spec.well_dated b ->
  (EventDetailsView.byDate a b <=? 0)
  = (Spec.day_of (Event.date a) <=? Spec.day_of (Event.date b)).
Proof.
  intros [[[y m] d] Ha] [[[y' m'] d'] Hb].
  unfold EventDetailsView.byDate, JsDate.new_Date, Spec.day_of. rewrite Ha, Hb. simpl.
  unfold JsDate.msPerDay.
  destruct (Z.leb_spec (JsDate.days_from_civil y m d * 86400000
                        - JsDate.days_from_civil y' m' d' * 86400000) 0),
           (Z.leb_spec (JsDate.days_from_civil y m d) (JsDate.days_from_civil y' m' d'));
    try reflexivity; lia.
Qed.

Lemma dateKey_day a b :
  EventDetailsView.dateKey a = EventDetailsView.dateKey b ->
  Spec.day_of (Event.date a) = Spec.day_of (Event.date b).
Proof.
  unfold EventDetailsView.dateKey, Js.or_else, Js.truthy.
  destruct (String.eqb_spec (Event.date a) ""), (String.eqb_spec (Event.date b) "");
    simpl; intros Heq.
  - congruence.
  - rewrite e, <- Heq. reflexivity.
  - rewrite e, Heq. reflexivity.
  - congruence.
Qed.

End DateStringFacts.

(** ** What the details view displays *)

Section DetailsFacts.

Lemma StronglySorted_sublist {X : Type} (R : X -> X -> Prop) (l1 l2 : list X) :
  sublist l1 l2 -> StronglySorted R l2 -> StronglySorted R l1.
Proof.
  intros Hsub. induction Hsub as [|x l1 l2 Hsub IH|x l1 l2 Hsub IH]; intros Hs.
  - constructor.
  - inversion Hs as [|? ? Hs' Hall]; subst. constructor; [apply IH; exact Hs'|].
    rewrite List.Forall_forall in *. intros y Hy. apply Hall.
    apply list_elem_of_In. eapply elem_of_sublist; [|exact Hsub].
    apply list_elem_of_In. exact Hy.
  - inversion Hs; subst. apply IH. assumption.
Qed.

Lemma StronglySorted_strict {X : Type} (f : X -> Z) (l : list X) :
  StronglySorted (fun a b => f a <= f b) l ->
  List.NoDup l ->
  (forall a b, In a l -> In b l -> f a = f b -> a = b) ->
  StronglySorted (fun a b => f a < f b) l.
Proof.
  induction 1 as [|x l Hs IH Hall]; intros Hnd Hinj; [constructor|].
  inversion Hnd as [|? ? Hx Hnd']; subst. constructor.
  - apply IH; [exact Hnd'|]. intros a b Ha Hb. apply Hinj; right; assumption.
  - rewrite List.Forall_forall in *. intros y Hy.
    specialize (Hall y Hy).
    destruct (Z.eq_dec (f x) (f y)) as [Heq|Hne]; [|lia].
    apply Hinj in Heq; [subst; contradiction | left; reflexivity | right; exact Hy].
Qed.

Lemma StronglySorted_map {X Y : Type} (R : Y -> Y -> Prop) (g : X -> Y) (l : list X) :
  StronglySorted (fun a b => R (g a) (g b)) l -> StronglySorted R (List.map g l).
Proof.
  induction 1 as [|x l Hs IH Hall]; simpl; constructor; [exact IH|].
  rewrite List.Forall_forall in *. intros y Hy. apply in_map_iff in Hy.
  destruct Hy as (a & <- & Ha). apply Hall. exact Ha.
Qed.

(** For events with well-formed dates, the details view shows one group
    for each date, the dates in strictly ascending order, and under each
    date the events of that date in the order of the array it was given. *)
Lemma render_groups_ascending (h : Heap.t) (events : Heap.loc) :
  let l := Heap.read h events in
  Forall Spec.well_dated l ->
  exists groups,
    snd (EventDetailsView.render h events) = Some groups
    /\ StronglySorted (fun k k' => Spec.day_of k < Spec.day_of k') (List.map fst groups)
    /\ (forall k evs, In (k, evs) groups -> evs = Spec.on_date k l /\ evs <> [])
    /\ (forall e, In e l -> In (Event.date e, Spec.on_date (Event.date e) l) groups).
Proof.
  intros l Hl.
  set (sorted := Js.sort EventDetailsView.byDate l).
  set (day := fun e : Event.t => Spec.day_of (Event.date e)).
  assert (Hperm : Permutation sorted l) by apply sort_perm.
  assert (Hwd : Forall Spec.well_dated sorted)
    by (eapply Permutation_Forall; [symmetry; exact Hperm | exact Hl]).
  assert (Hsorted : Sorted (fun a b => day a <= day b) sorted)
    by (apply (sort_Sorted _ day Spec.well_dated byDate_day); exact Hl).
  assert (Hstable : forall k, Spec.on_date k sorted = Spec.on_date k l).
  { intros k. apply (sort_filter _ day Spec.well_dated byDate_day); [|exact Hl].
    intros a b Ha Hb. apply String.eqb_eq in Ha, Hb. apply dateKey_day. congruence. }
  assert (Hkeys : forall k, In k (Spec.date_keys sorted) ->
            exists e, In e l /\ Event.date e = k /\ Spec.well_dated e).
  { intros k Hk. apply date_keys_In in Hk. destruct Hk as (e & He & Hek).
    rewrite List.Forall_forall in Hwd. pose proof (Hwd e He) as Hwe.
    exists e. split; [eapply Permutation_in; eassumption|].
    split; [rewrite <- (well_dated_dateKey e Hwe); exact Hek | exact Hwe]. }
  exists (Spec.grouped sorted). split; [|split; [|split]].
  - unfold EventDetailsView.render. simpl. fold l. fold sorted.
    rewrite groupedEvents_grouped.
    + simpl. f_equal. apply Object_entries_no_index.
      apply List.Forall_forall. intros [k evs] Hin. simpl.
      apply in_map_iff in Hin. destruct Hin as (k' & [= <- <-] & Hk').
      destruct (Hkeys _ Hk') as (e & _ & <- & Hwe). apply well_formed_not_index. exact Hwe.
    + eapply List.Forall_impl; [|exact Hwd]. intros e Hwe. simpl.
      rewrite (well_dated_dateKey e Hwe). apply well_formed_not_inherited. exact Hwe.
  - unfold Spec.grouped. rewrite List.map_map. simpl. rewrite List.map_id.
    apply StronglySorted_strict.
    + apply (StronglySorted_sublist _ _ _ (date_keys_sublist sorted)).
      apply StronglySorted_map.
      apply Sorted_StronglySorted in Hsorted; [|intros a b c; lia].
      clear - Hsorted Hwd. induction Hsorted as [|x s Hs IH Hall]; constructor.
      * apply IH. inversion Hwd; assumption.
      * inversion Hwd as [|? ? Hx Hwd']; subst.
        rewrite List.Forall_forall in *. intros y Hy.
        rewrite (well_dated_dateKey x Hx), (well_dated_dateKey y (Hwd' y Hy)).
        exact (Hall y Hy).
    + apply date_keys_NoDup.
    + intros a b Ha Hb. destruct (Hkeys _ Ha) as (ea & _ & <- & Hwa).
      destruct (Hkeys _ Hb) as (eb & _ & <- & Hwb). apply day_of_inj; assumption.
  - intros k evs Hin. apply in_map_iff in Hin. destruct Hin as (k' & [= <- <-] & Hk').
    rewrite Hstable. split; [reflexivity|].
    destruct (Hkeys _ Hk') as (e & He & Hek & Hwe).
    intros Hnil. assert (In e (Spec.on_date k' l)) as Hine.
    { apply filter_In. split; [exact He|]. apply String.eqb_eq.
      rewrite (well_dated_dateKey e Hwe). exact Hek. }
    rewrite Hnil in Hine. destruct Hine.
  - intros e He. rewrite <- Hstable. apply in_map_iff. exists (Event.date e).
    split; [reflexivity|]. apply date_keys_In. exists e.
    split; [eapply Permutation_in; [symmetry; exact Hperm | exact He]|].
    rewrite List.Forall_forall in Hl. apply well_dated_dateKey. apply Hl. exact He.
Qed.

(** Entered without a selection, the details view is given the events
    collection; entered from the calendar, the selection. *)
Lemma renderView_details_fallback (s : App.State) :
  App.error_set s = None -> App.isAuthReady s = true ->
  App.renderView (App.setView App.EventDetails s)
  = App.El_EventDetailsView
      (match App.selectedEvent s with Some selected => selected | None => App.events s end)
      (App.userRole s).
Proof.
  intros Herr Hready. unfold App.renderView. rewrite error_set_setView, Herr.
  change (App.isAuthReady (App.setView App.EventDetails s)) with (App.isAuthReady s).
  rewrite Hready. simpl. destruct (App.selectedEvent s); reflexivity.
Qed.

(** The seed array is in ascending order of date: sorting it in place
    leaves it as it is. *)
Lemma sort_MOCK_EVENTS : Js.sort EventDetailsView.byDate MOCK_EVENTS = MOCK_EVENTS.
Proof. vm_compute. reflexivity. Qed.

End DetailsFacts.

(** * Further results *)

(** ** The retry wrapper, for every operation *)

Section BackoffFacts.
Context {W E A : Type}.
Variable fn : W -> Retry.Completion E A * W.

Lemma invocations_call_wait (ms : Z) (tr : list Retry.Effect) :
  Retry.invocations (Retry.Invoke :: Retry.Sleep ms :: tr) = S (Retry.invocations tr).
Proof. reflexivity. Qed.

Lemma invocations_schedule i k : Retry.invocations (Backoff.schedule i k) = k.
Proof.
  revert i. induction k as [|k IH]; intros i; [reflexivity|].
  destruct k as [|k]; [reflexivity|].
  change (Backoff.schedule i (S (S k)))
    with (Retry.Invoke :: Retry.Sleep (Retry.delay i) :: Backoff.schedule (S i) (S k)).
  rewrite invocations_call_wait, (IH (S i)). reflexivity.
Qed.

Lemma loop_schedule (maxRetries : nat) :
  forall remaining i w,
    (i + remaining = maxRetries)%nat ->
    exists r w' k,
      Retry.loop fn maxRetries i remaining w = (r, w', Backoff.schedule i k)
      /\ (k <= remaining)%nat
      /\ (remaining = 0%nat -> r = Retry.Fulfilled None /\ w' = w)
      /\ ((0 < remaining)%nat -> (0 < k)%nat /\ r <> Retry.Fulfilled None)
      /\ (forall e, r = Retry.Rejected e -> k = remaining).
Proof.
  induction remaining as [|rem IH]; intros i w Hsum.
  - exists (Retry.Fulfilled None), w, 0%nat. simpl.
    repeat split; try lia; try discriminate.
  - simpl Retry.loop. destruct (fn w) as [[a|e] w1].
    + exists (Retry.Fulfilled (Some a)), w1, 1%nat. simpl.
      repeat split; try lia; try discriminate.
    + destruct (Nat.eqb_spec i (maxRetries - 1)) as [Hlast|Hmore].
      * exists (Retry.Rejected e), w1, 1%nat. simpl.
        repeat split; try lia; try discriminate.
      * destruct (IH (S i) w1 ltac:(lia)) as (r & w' & k & Hloop & Hk & _ & Hpos & Hrej).
        rewrite Hloop. destruct (Hpos ltac:(lia)) as [Hk0 Hr].
        exists r, w', (S k). destruct k as [|k]; [lia|].
        repeat split; try lia; try discriminate; try assumption.
        intros e' He'. rewrite (Hrej e' He'). reflexivity.
Qed.

Lemma withRetry_shape (maxRetries : nat) (w : W) :
  exists r w' k,
    Retry.withRetry fn maxRetries w = (r, w', Backoff.schedule 0 k)
    /\ Retry.invocations (Backoff.schedule 0 k) = k
    /\ (k <= maxRetries)%nat
    /\ (maxRetries = 0%nat -> r = Retry.Fulfilled None /\ w' = w /\ k = 0%nat)
    /\ ((0 < maxRetries)%nat -> (0 < k)%nat /\ r <> Retry.Fulfilled None)
    /\ (forall e, r = Retry.Rejected e -> k = maxRetries).
Proof.
  destruct (loop_schedule maxRetries maxRetries 0 w eq_refl)
    as (r & w' & k & Hloop & Hk & Hzero & Hpos & Hrej).
  exists r, w', k. unfold Retry.withRetry.
  split; [exact Hloop|]. split; [apply invocations_schedule|]. split; [exact Hk|].
  split; [|split; assumption].
  intros Hn. destruct (Hzero Hn) as [-> ->]. repeat split. lia.
Qed.


Lemma loop_fails_then_fulfils (maxRetries : nat) :
  forall k i w a w',
    Backoff.fails_then_fulfils fn k w a w' ->
    (i + k < maxRetries)%nat ->
    forall remaining, (i + remaining = maxRetries)%nat ->
      Retry.loop fn maxRetries i remaining w
        = (Retry.Fulfilled (Some a), w', Backoff.schedule i (S k)).
Proof.
  induction k as [|k IH]; intros i w a w' Hrun Hlt remaining Hsum.
  - destruct remaining as [|rem]; [lia|]. simpl in *. rewrite Hrun. reflexivity.
  - destruct remaining as [|rem]; [lia|].
    destruct Hrun as (e & w1 & Hfn & Hrest).
    simpl Retry.loop. rewrite Hfn.
    destruct (Nat.eqb_spec i (maxRetries - 1)) as [Hlast|_]; [lia|].
    rewrite (IH (S i) w1 a w' Hrest ltac:(lia) rem ltac:(lia)). reflexivity.
Qed.

(** An operation that is rejected [k] times and then fulfils, [k] being
    less than [maxRetries], is called [k + 1] times, with the waits of the
    schedule between the calls, and its value is returned. *)
Theorem withRetry_fails_then_fulfils (maxRetries k : nat) (w w' : W) (a : A) :
  Backoff.fails_then_fulfils fn k w a w' ->
  (k < maxRetries)%nat ->
  Retry.withRetry fn maxRetries w
    = (Retry.Fulfilled (Some a), w', Backoff.schedule 0 (S k))
  /\ Retry.invocations (Backoff.schedule 0 (S k)) = S k.
Proof.
  intros Hrun Hlt. split; [|apply invocations_schedule].
  apply (loop_fails_then_fulfils maxRetries k 0 w a w' Hrun); lia.
Qed.

Lemma waited_schedule i k :
  Backoff.waited (Backoff.schedule i (S k)) = 1000 * 2 ^ Z.of_nat i * (2 ^ Z.of_nat k - 1).
Proof.
  revert i. induction k as [|k IH]; intros i; [simpl; lia|].
  change (Backoff.schedule i (S (S k)))
    with (Retry.Invoke :: Retry.Sleep (Retry.delay i) :: Backoff.schedule (S i) (S k)).
  cbn [Backoff.waited]. rewrite IH. unfold Retry.delay.
  rewrite !Nat2Z.inj_succ, !Z.pow_succ_r by lia. lia.
Qed.

(** An operation that always fails is called exactly [maxRetries] times,
    whatever [maxRetries > 0] is, the wrapper rejects, and the waits add up
    to [2^(maxRetries - 1) - 1] seconds. *)
Theorem withRetry_always_fails_general (maxRetries : nat) (w : W) :
  Retry.always_fails fn -> (0 < maxRetries)%nat ->
  exists e w',
    Retry.withRetry fn maxRetries w
      = (Retry.Rejected e, w', Backoff.schedule 0 maxRetries)
    /\ Retry.invocations (Backoff.schedule 0 maxRetries) = maxRetries
    /\ Backoff.waited (Backoff.schedule 0 maxRetries)
       = 1000 * (2 ^ (Z.of_nat maxRetries - 1) - 1).
Proof.
  intros Hfail Hpos.
  destruct (withRetry_shape maxRetries w) as (r & w' & k & Hrun & _ & _ & _ & _ & Hrej).
  destruct (loop_always_fails_invocations fn maxRetries maxRetries Hfail 0 w Hpos eq_refl)
    as (e & w'' & tr & Hloop & _).
  unfold Retry.withRetry in Hrun. rewrite Hloop in Hrun. injection Hrun as <- <- ->.
  pose proof (Hrej e eq_refl) as ->. exists e, w''.
  split; [exact Hloop|].
  split; [apply invocations_schedule|].
  destruct maxRetries as [|n]; [lia|]. rewrite waited_schedule.
  replace (Z.of_nat (S n) - 1) with (Z.of_nat n) by lia. simpl. lia.
Qed.
End BackoffFacts.

Lemma withRetry_fails_then_fulfils_witness :
  Retry.withRetry Backoff.third_time_lucky 3 0%nat
  = (Retry.Fulfilled (Some 2%nat), 3%nat,
     [Retry.Invoke; Retry.Sleep 1000; Retry.Invoke; Retry.Sleep 2000; Retry.Invoke]).
Proof.
  apply (withRetry_fails_then_fulfils Backoff.third_time_lucky 3 2 0%nat 3%nat 2%nat).
  - simpl. exists "busy", 1%nat. split; [reflexivity|].
    exists "busy", 2%nat. split; reflexivity.
  - lia.
Defined.

Lemma withRetry_always_fails_general_witness :
  exists e w',
    Retry.withRetry Retry.failing_counter 5 0%nat
      = (Retry.Rejected e, w', Backoff.schedule 0 5)
    /\ Retry.invocations (Backoff.schedule 0 5) = 5%nat
    /\ Backoff.waited (Backoff.schedule 0 5) = 15000.
Proof.
  apply (withRetry_always_fails_general Retry.failing_counter 5 0%nat).
  - intros w. exists (S w), (S w). reflexivity.
  - lia.
Defined.

(** ** More on the merge *)

Section MergeMore.

(** For every seed list and snapshot: every fetched event is in the merged
    list; every seed title is still there, on the seed event or on a
    fetched one; the merged list is no shorter than the snapshot and no
    longer than seed and snapshot together; an empty snapshot gives the
    seed list back. *)
Theorem mergedEvents_covers (mock fetchedEvents : list Event.t) :
  (forall f, In f fetchedEvents -> In f (mergedEvents mock fetchedEvents))
  /\ (forall m, In m mock ->
        exists e, In e (mergedEvents mock fetchedEvents) /\ Event.title e = Event.title m
                  /\ (e = m \/ In e fetchedEvents))
  /\ (length fetchedEvents <= length (mergedEvents mock fetchedEvents)
      <= length mock + length fetchedEvents)%nat
  /\ mergedEvents mock [] = mock.
Proof.
  unfold mergedEvents. split; [|split; [|split]].
  - intros f Hf. apply in_or_app. right. exact Hf.
  - intros m Hm.
    destruct (existsb (fun f => String.eqb (Event.title f) (Event.title m)) fetchedEvents)
      eqn:Hex.
    + apply existsb_exists in Hex. destruct Hex as (f & Hf & Heq).
      apply String.eqb_eq in Heq. exists f.
      split; [apply in_or_app; right; exact Hf|]. split; [exact Heq | right; exact Hf].
    + exists m. split; [|split; [reflexivity | left; reflexivity]].
      apply in_or_app. left. apply filter_In. split; [exact Hm|]. rewrite Hex. reflexivity.
  - rewrite length_app. pose proof (List.filter_length_le
      (fun m => negb (existsb (fun f => String.eqb (Event.title f) (Event.title m))
                        fetchedEvents)) mock). lia.
  - rewrite app_nil_r. induction mock as [|m mock IH]; [reflexivity|].
    simpl. f_equal. exact IH.
Qed.

Lemma NoDup_map_filter {X Y : Type} (g : X -> Y) (p : X -> bool) (l : list X) :
  List.NoDup (List.map g l) -> List.NoDup (List.map g (List.filter p l)).
Proof.
  induction l as [|x l IH]; simpl; intros Hnd; [constructor|].
  inversion Hnd as [|? ? Hx Hnd']; subst.
  destruct (p x); [|apply IH; exact Hnd']. simpl. constructor; [|apply IH; exact Hnd'].
  intros Hin. apply Hx. apply in_map_iff in Hin. destruct Hin as (y & Hy & Hin).
  apply filter_In in Hin. apply in_map_iff. exists y. split; [exact Hy | apply Hin].
Qed.

(** When no two fetched events have the same title, no two events of the
    merged list have: the seed titles are distinct, and a seed event is
    dropped when a fetched event has its title. *)
Theorem mergedEvents_distinct_titles (fetchedEvents : list Event.t) :
  List.NoDup (List.map Event.title fetchedEvents) ->
  List.NoDup (List.map Event.title (mergedEvents MOCK_EVENTS fetchedEvents)).
Proof.
  intros Hlive. unfold mergedEvents. rewrite List.map_app.
  apply NoDup_ListNoDup. apply NoDup_app. repeat split.
  - apply NoDup_ListNoDup. apply NoDup_map_filter.
    apply NoDup_ListNoDup. apply (bool_decide_unpack _). vm_compute. exact I.
  - intros t Hkept Hfetched.
    apply list_elem_of_In, in_map_iff in Hkept. destruct Hkept as (m & <- & Hm).
    apply list_elem_of_In, in_map_iff in Hfetched. destruct Hfetched as (f & Hft & Hf).
    apply filter_In in Hm. destruct Hm as [_ Hm].
    exact (proj1 (no_live_title_spec fetchedEvents m) Hm f Hf Hft).
  - apply NoDup_ListNoDup. exact Hlive.
Qed.

(** Each events snapshot replaces the list whole: after two snapshots the
    events are the merge of the seed array and the second snapshot alone.
    The arrays there were before stay as they were, and so does every other
    cell of the state. *)
Theorem onEventsSnapshot_last_wins (docs1 docs2 : list (Doc.t Event.t))
  (h : Heap.t) (s : App.State) :
  (App.MOCK_EVENTS_loc < length (Heap.arrays h))%nat ->
  let r1 := App.onEventsSnapshot docs1 h s in
  let r2 := App.onEventsSnapshot docs2 (fst r1) (snd r1) in
  Heap.read (fst r2) (App.events (snd r2))
    = mergedEvents (Heap.read h App.MOCK_EVENTS_loc) (List.map event_of_doc docs2)
  /\ (forall l, (l < length (Heap.arrays h))%nat -> Heap.read (fst r2) l = Heap.read h l)
  /\ App.setEvents (App.events s) (snd r2) = s.
Proof.
  intros Hmock r1 r2. subst r1 r2.
  unfold App.onEventsSnapshot, Heap.alloc, Heap.read. simpl.
  split; [|split].
  - rewrite lookup_app_r by reflexivity. rewrite Nat.sub_diag. simpl.
    rewrite lookup_app_l by exact Hmock. reflexivity.
  - intros l Hl. rewrite lookup_app_l by (rewrite length_app; simpl; lia).
    rewrite lookup_app_l by exact Hl. reflexivity.
  - destruct s; reflexivity.
Qed.

End MergeMore.

Lemma mergedEvents_distinct_titles_witness :
  List.NoDup (List.map Event.title (mergedEvents MOCK_EVENTS Sample.one_sports_day)).
Proof.
  apply (mergedEvents_distinct_titles Sample.one_sports_day).
  apply NoDup_ListNoDup. apply (bool_decide_unpack _). vm_compute. exact I.
Defined.

Lemma onEventsSnapshot_last_wins_witness :
  let r1 := App.onEventsSnapshot [Sample.orientation_doc] App.initial_heap Sample.ready in
  let r2 := App.onEventsSnapshot [] (fst r1) (snd r1) in
  Heap.read (fst r2) (App.events (snd r2)) = MOCK_EVENTS.
Proof.
  intros r1 r2.
  destruct (onEventsSnapshot_last_wins [Sample.orientation_doc] [] App.initial_heap
              Sample.ready) as [Hlast _]; [compute; lia | exact Hlast].
Defined.

(** ** Score objects and their result arrays *)

Section ScoreFacts.

Lemma scores_of_docs_heap (docs : list (Doc.t ScorePayload.t)) :
  forall h,
    Heap.resultArrays (fst (scores_of_docs h docs))
      = Heap.resultArrays h ++ List.map (fun d => ScorePayload.results (Doc.data d)) docs
    /\ Heap.arrays (fst (scores_of_docs h docs)) = Heap.arrays h
    /\ length (snd (scores_of_docs h docs)) = length docs.
Proof.
  induction docs as [|d docs IH]; intros h; simpl.
  - rewrite app_nil_r. repeat split.
  - destruct (scores_of_docs _ docs) as [h2 ss] eqn:Hrec. simpl.
    specialize (IH {| Heap.arrays := Heap.arrays h;
                      Heap.resultArrays :=
                        Heap.resultArrays h ++ [ScorePayload.results (Doc.data d)] |}).
    rewrite Hrec in IH. simpl in IH. destruct IH as (Hres & Harr & Hlen).
    rewrite Hres, <- app_assoc. simpl. repeat split; [exact Harr | f_equal; exact Hlen].
Qed.

Lemma scores_of_docs_lookup (docs : list (Doc.t ScorePayload.t)) :
  forall h i sc,
    snd (scores_of_docs h docs) !! i = Some sc ->
    exists d, docs !! i = Some d
              /\ Score.results sc = (length (Heap.resultArrays h) + i)%nat
              /\ Score.id sc = Doc.entity_id d
              /\ Score.eventId sc = ScorePayload.eventId (Doc.data d)
              /\ Score.publishedAt sc = ScorePayload.publishedAt (Doc.data d).
Proof.
  induction docs as [|d docs IH]; intros h i sc; simpl; [discriminate|].
  destruct (scores_of_docs _ docs) as [h2 ss] eqn:Hrec. simpl.
  destruct i as [|i]; simpl.
  - intros [= <-]. exists d. simpl. repeat split. lia.
  - intros Hi.
    specialize (IH {| Heap.arrays := Heap.arrays h;
                      Heap.resultArrays :=
                        Heap.resultArrays h ++ [ScorePayload.results (Doc.data d)] |} i sc).
    rewrite Hrec in IH. destruct (IH Hi) as (d' & Hd' & Hloc & Hrest).
    exists d'. split; [exact Hd'|]. split; [|exact Hrest].
    rewrite Hloc. simpl. rewrite length_app. simpl. lia.
Qed.

(** A scores snapshot gives every publication a result array of its own,
    new in the heap, that holds the rows of the stored document in their
    order; the publications are in the order of the snapshot and those of
    the snapshot before are replaced.  The event arrays, the result arrays
    there were and the other cells of the state are left alone. *)
Theorem onScoresSnapshot_own_arrays (docs : list (Doc.t ScorePayload.t))
  (h : Heap.t) (s : App.State) :
  let r := App.onScoresSnapshot docs h s in
  length (App.scores (snd r)) = length docs
  /\ (forall i sc, App.scores (snd r) !! i = Some sc ->
        exists d, docs !! i = Some d
                  /\ Score.id sc = Doc.entity_id d
                  /\ Heap.readResults (fst r) (Score.results sc)
                       = ScorePayload.results (Doc.data d)
                  /\ (length (Heap.resultArrays h) <= Score.results sc)%nat)
  /\ (forall i j sc sc', App.scores (snd r) !! i = Some sc ->
        App.scores (snd r) !! j = Some sc' -> i <> j ->
        Score.results sc <> Score.results sc')
  /\ (forall l, (l < length (Heap.resultArrays h))%nat ->
        Heap.readResults (fst r) l = Heap.readResults h l)
  /\ Heap.arrays (fst r) = Heap.arrays h
  /\ App.setScores (App.scores s) (snd r) = s.
Proof.
  intros r. subst r. unfold App.onScoresSnapshot.
  pose proof (scores_of_docs_heap docs h) as (Hres & Harr & Hlen).
  pose proof (scores_of_docs_lookup docs h) as Hlook.
  destruct (scores_of_docs h docs) as [h' ss]. simpl in *.
  split; [exact Hlen|]. split; [|split; [|split; [|split]]].
  - intros i sc Hi. destruct (Hlook i sc Hi) as (d & Hd & Hloc & Hid & _).
    exists d. split; [exact Hd|]. split; [exact Hid|]. split; [|lia].
    unfold Heap.readResults. rewrite Hres, Hloc.
    rewrite lookup_app_r by lia.
    replace (length (Heap.resultArrays h) + i - length (Heap.resultArrays h))%nat
      with i by lia.
    rewrite list_lookup_fmap, Hd. reflexivity.
  - intros i j sc sc' Hi Hj Hne.
    destruct (Hlook i sc Hi) as (_ & _ & -> & _).
    destruct (Hlook j sc' Hj) as (_ & _ & -> & _). lia.
  - intros l Hl. unfold Heap.readResults. rewrite Hres.
    rewrite lookup_app_l by exact Hl. reflexivity.
  - exact Harr.
  - destruct s; reflexivity.
Qed.

(** Whatever the collation, the result modal shows the rows it was given,
    none lost and none twice, and leaves them in that order in the array of
    the score object; the result arrays of the other score objects and the
    event arrays are not touched. *)
Theorem ResultModal_permutes_own_array (localeCompare : string -> string -> Z)
  (h : Heap.t) (score : Score.t) :
  let r := ViewResultsView.ResultModal localeCompare h score in
  Permutation (snd r) (Heap.readResults h (Score.results score))
  /\ Heap.readResults (fst r) (Score.results score) = snd r
  /\ (forall l, l <> Score.results score ->
        Heap.readResults (fst r) l = Heap.readResults h l)
  /\ Heap.arrays (fst r) = Heap.arrays h.
Proof.
  intros r. subst r. unfold ViewResultsView.ResultModal. simpl.
  split; [apply sort_perm|]. split; [|split; [|reflexivity]].
  - unfold Heap.readResults, Heap.writeResults. simpl.
    destruct (Heap.resultArrays h !! Score.results score) as [rows|] eqn:Hrows.
    + simpl. rewrite list_lookup_insert_eq; [reflexivity|].
      apply lookup_lt_Some in Hrows. exact Hrows.
    + simpl. rewrite list_insert_ge; [rewrite Hrows; reflexivity|].
      apply lookup_ge_None. exact Hrows.
  - intros l Hl. unfold Heap.readResults, Heap.writeResults. simpl.
    rewrite list_lookup_insert_ne by congruence. reflexivity.
Qed.

End ScoreFacts.

(** ** More on the details view *)

Section DetailsMore.

Lemma fold_step_None (l : list Event.t) : fold_left EventDetailsView.step l None = None.
Proof. induction l as [|e l IH]; [reflexivity | exact IH]. Qed.

Lemma step_inherited (p : list Event.t) (e : Event.t) :
  Forall (fun e => Js.inherited (EventDetailsView.dateKey e) = false) p ->
  Js.inherited (EventDetailsView.dateKey e) = true ->
  EventDetailsView.step (Some (Spec.grouped p)) e = None.
Proof.
  intros Hp He. unfold EventDetailsView.step. rewrite own_grouped, He.
  destruct (existsb _ _) eqn:Hex; [|reflexivity].
  apply existsb_eqb_In, date_keys_In in Hex. destruct Hex as (e' & He' & Hk).
  rewrite List.Forall_forall in Hp. specialize (Hp e' He'). congruence.
Qed.

Lemma fold_step_throws (l : list Event.t) :
  forall p,
    Forall (fun e => Js.inherited (EventDetailsView.dateKey e) = false) p ->
    (fold_left EventDetailsView.step l (Some (Spec.grouped p)) = None
     <-> Exists (fun e => Js.inherited (EventDetailsView.dateKey e) = true) l).
Proof.
  induction l as [|e l IH]; intros p Hp; cbn [fold_left].
  - split; [discriminate | intros H; inversion H].
  - destruct (Js.inherited (EventDetailsView.dateKey e)) eqn:He.
    + rewrite (step_inherited p e Hp He), fold_step_None.
      split; [intros _; left; exact He | reflexivity].
    + rewrite (step_grouped p e He). rewrite IH.
      * split; [intros H; right; exact H|].
        intros H. inversion H as [? ? Hhd|? ? Htl]; subst; [congruence | exact Htl].
      * apply Forall_app. split; [exact Hp|]. constructor; [exact He | constructor].
Qed.

(** The grouping of the details view throws exactly when some event's date
    is a name every object inherits ([constructor], [toString], ...); else
    it gives one group for each date, events without a date under [TBD],
    in the order the dates first occur. *)
Theorem groupedEvents_throws_iff (l : list Event.t) :
  (EventDetailsView.groupedEvents l = None
   <-> Exists (fun e => Js.inherited (EventDetailsView.dateKey e) = true) l)
  /\ (EventDetailsView.groupedEvents l <> None ->
      EventDetailsView.groupedEvents l = Some (Spec.grouped l))
  /\ (forall e g, In e l -> Event.date e = "" ->
      EventDetailsView.groupedEvents l = Some g ->
      exists evs, In ("TBD", evs) g /\ In e evs).
Proof.
  pose proof (fold_step_throws l [] (List.Forall_nil _)) as Hiff.
  assert (Hgrouped : EventDetailsView.groupedEvents l <> None ->
                     EventDetailsView.groupedEvents l = Some (Spec.grouped l)).
  { intros Hsome. apply groupedEvents_grouped.
    apply List.Forall_forall. intros e He.
    destruct (Js.inherited (EventDetailsView.dateKey e)) eqn:Hin; [|reflexivity].
    exfalso. apply Hsome. apply Hiff. apply List.Exists_exists. exists e. split; assumption. }
  split; [exact Hiff|]. split; [exact Hgrouped|].
  - intros e g He Hdate Hg. rewrite Hgrouped in Hg by congruence.
    injection Hg as <-. exists (Spec.on_date "TBD" l).
    assert (EventDetailsView.dateKey e = "TBD") as Hkey
      by (unfold EventDetailsView.dateKey; rewrite Hdate; reflexivity).
    split.
    + apply in_map_iff. exists "TBD". split; [reflexivity|].
      apply date_keys_In. exists e. split; assumption.
    + apply filter_In. split; [exact He|]. rewrite Hkey. reflexivity.
Qed.

Lemma sort_sorted_id {X : Type} (cmp : X -> X -> Z) (key : X -> Z) (P : X -> Prop)
  (l : list X) :
  (forall a b, P a -> P b -> (cmp a b <=? 0) = (key a <=? key b)) ->
  Forall P l -> Sorted (fun a b => key a <= key b) l -> Js.sort cmp l = l.
Proof.
  intros Hcmp Hl Hs. induction l as [|x l IH]; [reflexivity|].
  inversion Hl as [|? ? Px Pl]; subst. inversion Hs as [|? ? Hs' Hhd]; subst.
  simpl. rewrite (IH Pl Hs'). destruct l as [|y l]; [reflexivity|].
  simpl. inversion Pl as [|? ? Py _]; subst. rewrite (Hcmp x y Px Py).
  inversion Hhd as [|? ? Hxy]; subst.
  destruct (Z.leb_spec (key x) (key y)); [reflexivity | lia].
Qed.

Lemma read_write_same (h : Heap.t) (l : Heap.loc) (a : list Event.t) :
  (l < length (Heap.arrays h))%nat -> Heap.read (Heap.write h l a) l = a.
Proof.
  intros Hl. unfold Heap.read, Heap.write. simpl.
  rewrite list_lookup_insert_eq by exact Hl. reflexivity.
Qed.

(** Rendering the details view sorts the array it is given where it is:
    afterwards that array holds the same events, for dates of the form
    [YYYY-MM-DD] in ascending order of day and, within a day, in the order
    they had; every other array is as before; rendering again changes
    nothing more and shows the same groups. *)
Theorem render_sorts_in_place (h : Heap.t) (events : Heap.loc) :
  (events < length (Heap.arrays h))%nat ->
  Forall Spec.well_dated (Heap.read h events) ->
  let r := EventDetailsView.render h events in
  Permutation (Heap.read (fst r) events) (Heap.read h events)
  /\ Sorted (fun a b => Spec.day_of (Event.date a) <= Spec.day_of (Event.date b))
       (Heap.read (fst r) events)
  /\ (forall k, Spec.on_date k (Heap.read (fst r) events) = Spec.on_date k (Heap.read h events))
  /\ (forall l, l <> events -> Heap.read (fst r) l = Heap.read h l)
  /\ Heap.resultArrays (fst r) = Heap.resultArrays h
  /\ EventDetailsView.render (fst r) events = r.
Proof.
  intros Halloc Hwd r. subst r. unfold EventDetailsView.render. simpl.
  set (l := Heap.read h events) in *.
  set (day := fun e : Event.t => Spec.day_of (Event.date e)).
  assert (Hread : Heap.read (Heap.write h events (Js.sort EventDetailsView.byDate l)) events
                  = Js.sort EventDetailsView.byDate l) by (apply read_write_same; exact Halloc).
  assert (Hsorted : Sorted (fun a b => day a <= day b) (Js.sort EventDetailsView.byDate l))
    by (apply (sort_Sorted _ day Spec.well_dated byDate_day); exact Hwd).
  assert (Hwd' : Forall Spec.well_dated (Js.sort EventDetailsView.byDate l))
    by (apply sort_Forall; exact Hwd).
  rewrite Hread. split; [apply sort_perm|]. split; [exact Hsorted|].
  split; [|split; [|split; [reflexivity|]]].
  - intros k. apply (sort_filter _ day Spec.well_dated byDate_day); [|exact Hwd].
    intros a b Ha Hb. apply String.eqb_eq in Ha, Hb. apply dateKey_day. congruence.
  - intros l' Hl'. unfold Heap.read, Heap.write. simpl.
    rewrite list_lookup_insert_ne by congruence. reflexivity.
  - rewrite (sort_sorted_id _ day Spec.well_dated _ byDate_day Hwd' Hsorted).
    f_equal. unfold Heap.write. simpl. rewrite list_insert_insert_eq. reflexivity.
Qed.

End DetailsMore.

Lemma render_groups_ascending_witness :
  exists groups,
    snd (EventDetailsView.render (fst Sample.synced) 1%nat) = Some groups
    /\ List.map fst groups
       = ["2025-09-01"; "2025-10-15"; "2025-11-05"; "2025-11-20"; "2025-12-01"; "2025-12-15"].
Proof.
  destruct (render_groups_ascending (fst Sample.synced) 1%nat) as (groups & Hgroups & _).
  - apply (bool_decide_unpack _). vm_compute. exact I.
  - exists groups. split; [exact Hgroups|].
    vm_compute in Hgroups. injection Hgroups as <-. reflexivity.
Defined.

Lemma render_sorts_in_place_witness :
  EventDetailsView.render (fst (EventDetailsView.render (fst Sample.synced) 1%nat)) 1%nat
  = EventDetailsView.render (fst Sample.synced) 1%nat.
Proof.
  apply (render_sorts_in_place (fst Sample.synced) 1%nat).
  - compute. lia.
  - apply (bool_decide_unpack _). vm_compute. exact I.
Defined.

Lemma goToDetails_east_witness :
  Heap.read (fst (EventCalendarView.goToDetails JsDate.utc 2025 10 0%nat App.initial_heap
                    Sample.student_session)) 1%nat
  = List.filter (Spec.dated_in 2025 10) MOCK_EVENTS.
Proof.
  apply (goToDetails_east JsDate.utc 2025 10 0%nat App.initial_heap Sample.student_session).
  - intros t. unfold JsDate.utc, JsDate.msPerDay. lia.
  - apply (bool_decide_unpack _). vm_compute. exact I.
Defined.

(** ** The calendar grid *)

Section CalendarFacts.

Local Ltac zdiv := Z.div_mod_to_equations; lia.

Lemma days_in_month_min y m : 28 <= JsDate.days_in_month y m <= 31.
Proof.
  unfold JsDate.days_in_month.
  destruct (m =? 2); [destruct (JsDate.is_leap y); lia|].
  destruct (_ || _ || _ || _); lia.
Qed.

Lemma civil_local_Date_first year month :
  ~ (0 <= year <= 99) ->
  JsDate.civil_from_days (CalendarGrid.local_Date year month 1)
  = (year + month / 12, month mod 12 + 1, 1).
Proof.
  intros Hyear. unfold CalendarGrid.local_Date.
  destruct ((0 <=? year) && (year <=? 99)) eqn:Hc.
  - apply andb_true_iff in Hc. destruct Hc as [H1 H2].
    apply Z.leb_le in H1, H2. lia.
  - replace (JsDate.days_from_civil (year + month / 12) (month mod 12 + 1) 1 + (1 - 1))
      with (JsDate.days_from_civil (year + month / 12) (month mod 12 + 1) 1) by lia.
    apply civil_from_days_from_civil; [zdiv|].
    pose proof (days_in_month_min (year + month / 12) (month mod 12 + 1)). lia.
Qed.

(** The displayed month after [changeMonth]: the month moves by [delta]
    and carries into the year, the day is the first, the month stays
    within 0-11, and moving back by [delta] shows the month there was. *)
Theorem changeMonth_carries (delta prevDate y m d : Z) :
  JsDate.civil_from_days prevDate = (y, m + 1, d) ->
  0 <= m <= 11 -> ~ (0 <= y <= 99) ->
  let date := CalendarGrid.changeMonth delta prevDate in
  CalendarGrid.getFullYear date = y + (m + delta) / 12
  /\ CalendarGrid.getMonth date = (m + delta) mod 12
  /\ CalendarGrid.getDate date = 1
  /\ 0 <= CalendarGrid.getMonth date <= 11
  /\ (~ (0 <= y + (m + delta) / 12 <= 99) ->
      CalendarGrid.getFullYear (CalendarGrid.changeMonth (- delta) date) = y
      /\ CalendarGrid.getMonth (CalendarGrid.changeMonth (- delta) date) = m).
Proof.
  intros Hprev Hm Hy date.
  assert (Hdate : JsDate.civil_from_days date
                  = (y + (m + delta) / 12, (m + delta) mod 12 + 1, 1)).
  { subst date. unfold CalendarGrid.changeMonth, CalendarGrid.getFullYear,
      CalendarGrid.getMonth. rewrite Hprev.
    replace (m + 1 - 1 + delta) with (m + delta) by lia.
    apply civil_local_Date_first. exact Hy. }
  unfold CalendarGrid.getFullYear, CalendarGrid.getMonth, CalendarGrid.getDate.
  rewrite Hdate. split; [reflexivity|]. split; [lia|]. split; [reflexivity|].
  split; [zdiv|]. intros Hy'.
  unfold CalendarGrid.changeMonth, CalendarGrid.getFullYear, CalendarGrid.getMonth.
  rewrite Hdate, civil_local_Date_first by exact Hy'.
  split; zdiv.
Qed.

Local Ltac decide_tests :=
  repeat match goal with
    | |- context [if ?b then _ else _] =>
        let v := eval vm_compute in b in
        first [constr_eq v true | constr_eq v false]; change b with v; cbv iota
    end.

Lemma days_from_civil_last_day y m :
  1 <= m <= 12 ->
  JsDate.days_from_civil y m (JsDate.days_in_month y m) + 1
  = JsDate.days_from_civil (if m =? 12 then y + 1 else y) (if m =? 12 then 1 else m + 1) 1.
Proof.
  intros Hm. unfold JsDate.days_in_month, JsDate.is_leap, JsDate.days_from_civil.
  assert (m = 1 \/ m = 2 \/ m = 3 \/ m = 4 \/ m = 5 \/ m = 6 \/ m = 7 \/ m = 8 \/ m = 9
          \/ m = 10 \/ m = 11 \/ m = 12) as Hc by lia.
  repeat (destruct Hc as [Hc|Hc]); subst m; cbv zeta; decide_tests;
    try (destruct (Z.eqb_spec (y mod 4) 0), (Z.eqb_spec (y mod 100) 0),
           (Z.eqb_spec (y mod 400) 0); decide_tests);
    zdiv.
Qed.

Lemma getDaysInMonth_days_in_month (year month : Z) :
  0 <= month <= 11 -> ~ (0 <= year <= 99) ->
  CalendarGrid.getDaysInMonth year month = JsDate.days_in_month year (month + 1).
Proof.
  intros Hm Hy. unfold CalendarGrid.getDaysInMonth, CalendarGrid.getDate,
    CalendarGrid.local_Date.
  destruct ((0 <=? year) && (year <=? 99)) eqn:Hc.
  { apply andb_true_iff in Hc. destruct Hc as [H1 H2]. apply Z.leb_le in H1, H2. lia. }
  pose proof (days_from_civil_last_day year (month + 1) ltac:(lia)) as Hlast.
  assert (Hnext : JsDate.days_from_civil (year + (month + 1) / 12) ((month + 1) mod 12 + 1) 1
                  = JsDate.days_from_civil
                      (if month + 1 =? 12 then year + 1 else year)
                      (if month + 1 =? 12 then 1 else month + 1 + 1) 1).
  { destruct (Z.eqb_spec (month + 1) 12) as [Heq|Hne].
    - rewrite Heq. reflexivity.
    - f_equal; zdiv. }
  rewrite Hnext, <- Hlast.
  replace (JsDate.days_from_civil year (month + 1) (JsDate.days_in_month year (month + 1))
           + 1 + (0 - 1))
    with (JsDate.days_from_civil year (month + 1) (JsDate.days_in_month year (month + 1)))
    by lia.
  rewrite civil_from_days_from_civil; [reflexivity | lia |].
  pose proof (days_in_month_min year (month + 1)). lia.
Qed.

(** [getDaysInMonth] is the length of the month: 31, 30, or for February
    28 and in leap years 29. *)
Theorem getDaysInMonth_length (year month : Z) :
  0 <= month <= 11 -> ~ (0 <= year <= 99) ->
  CalendarGrid.getDaysInMonth year month = JsDate.days_in_month year (month + 1).
Proof. exact (getDaysInMonth_days_in_month year month). Qed.

End CalendarFacts.

Lemma changeMonth_carries_witness :
  CalendarGrid.getFullYear (CalendarGrid.changeMonth 1 (CalendarGrid.local_Date 2025 11 1))
    = 2026
  /\ CalendarGrid.getMonth (CalendarGrid.changeMonth 1 (CalendarGrid.local_Date 2025 11 1))
    = 0.
Proof.
  destruct (changeMonth_carries 1 (CalendarGrid.local_Date 2025 11 1) 2025 11 1)
    as (Hy & Hm & _); [reflexivity | lia | lia |].
  split; [exact Hy | exact Hm].
Defined.

Lemma getDaysInMonth_length_witness : CalendarGrid.getDaysInMonth 2024 1 = 29.
Proof. apply (getDaysInMonth_length 2024 1); lia. Defined.

(** ** The day strings of the calendar *)

Section DayStringFacts.

Lemma forallb_upto (P : Z -> bool) (n : nat) :
  forall from,
    forallb P (CalendarGrid.upto n from) = true ->
    forall z, from <= z < from + Z.of_nat n -> P z = true.
Proof.
  induction n as [|n IH]; intros from Hall z Hz; [lia|].
  simpl in Hall. apply andb_true_iff in Hall. destruct Hall as [Hhd Htl].
  destruct (Z.eq_dec z from) as [->|Hne]; [exact Hhd|].
  apply (IH (from + 1) Htl). lia.
Qed.

(** A year of four digits is written with these digits. *)
Lemma toString_year (y : Z) :
  1000 <= y <= 9999 ->
  exists a b c d,
    EventCalendarView.toString y = String a (String b (String c (String d EmptyString)))
    /\ JsDate.num4 a b c d = Some y.
Proof.
  intros Hy.
  pose (check := fun y =>
    match EventCalendarView.toString y with
    | String a (String b (String c (String d EmptyString))) =>
        match JsDate.num4 a b c d with
        | Some v => v =? y
        | None => false
        end
    | _ => false
    end).
  assert (Hall : forallb check (CalendarGrid.upto (Z.to_nat 9000) 1000) = true)
    by (vm_compute; reflexivity).
  pose proof (forallb_upto check (Z.to_nat 9000) 1000 Hall y ltac:(lia)) as Hcheck.
  unfold check in Hcheck. clear Hall check.
  destruct (EventCalendarView.toString y) as [|a [|b [|c [|d [|? ?]]]]];
    try discriminate Hcheck.
  destruct (JsDate.num4 a b c d) as [v|] eqn:Hv; [|discriminate Hcheck].
  apply Z.eqb_eq in Hcheck. subst v. exists a, b, c, d. split; [reflexivity | exact Hv].
Qed.

(** A month or a day is written with two digits, a zero in front if need
    be. *)
Lemma formatDay_two (n : Z) :
  1 <= n <= 31 ->
  exists a b,
    EventCalendarView.formatDay n = String a (String b EmptyString)
    /\ JsDate.num2 a b = Some n.
Proof.
  intros Hn.
  pose (check := fun n =>
    match EventCalendarView.formatDay n with
    | String a (String b EmptyString) =>
        match JsDate.num2 a b with
        | Some v => v =? n
        | None => false
        end
    | _ => false
    end).
  assert (Hall : forallb check (CalendarGrid.upto 31 1) = true) by (vm_compute; reflexivity).
  pose proof (forallb_upto check 31 1 Hall n ltac:(lia)) as Hcheck.
  unfold check in Hcheck. clear Hall check.
  destruct (EventCalendarView.formatDay n) as [|a [|b [|? ?]]]; try discriminate Hcheck.
  destruct (JsDate.num2 a b) as [v|] eqn:Hv; [|discriminate Hcheck].
  apply Z.eqb_eq in Hcheck. subst v. exists a, b. split; [reflexivity | exact Hv].
Qed.

(** The string the calendar builds for a day of the displayed month parses
    to that day. *)
Lemma dayString_parse (currentYear currentMonth day : Z) :
  1000 <= currentYear <= 9999 -> 0 <= currentMonth <= 11 ->
  1 <= day <= JsDate.days_in_month currentYear (currentMonth + 1) ->
  JsDate.parse_ymd
    (EventCalendarView.toString currentYear +:+ "-"
     +:+ EventCalendarView.formatDay (currentMonth + 1) +:+ "-"
     +:+ EventCalendarView.formatDay day)
  = Some (currentYear, currentMonth + 1, day).
Proof.
  intros Hy Hm Hd.
  pose proof (days_in_month_min currentYear (currentMonth + 1)) as Hdim.
  destruct (toString_year currentYear Hy) as (y1 & y2 & y3 & y4 & -> & Hyear).
  destruct (formatDay_two (currentMonth + 1) ltac:(lia)) as (m1 & m2 & -> & Hmonth).
  destruct (formatDay_two day ltac:(lia)) as (d1 & d2 & -> & Hday).
  simpl. rewrite Hyear, Hmonth, Hday.
  destruct (Z.leb_spec 1 (currentMonth + 1)); [|lia].
  destruct (Z.leb_spec (currentMonth + 1) 12); [|lia].
  destruct (Z.leb_spec 1 day); [|lia].
  destruct (Z.leb_spec day (JsDate.days_in_month currentYear (currentMonth + 1))); [|lia].
  reflexivity.
Qed.

Lemma getEventsForDay_filter (currentYear currentMonth day : Z) (events : list Event.t) :
  1000 <= currentYear <= 9999 -> 0 <= currentMonth <= 11 ->
  1 <= day <= JsDate.days_in_month currentYear (currentMonth + 1) ->
  EventCalendarView.getEventsForDay currentYear currentMonth events day
  = length (List.filter
              (fun e => bool_decide (JsDate.parse_ymd (Event.date e)
                                     = Some (currentYear, currentMonth + 1, day)))
              events).
Proof.
  intros Hy Hm Hd. unfold EventCalendarView.getEventsForDay.
  pose proof (dayString_parse currentYear currentMonth day Hy Hm Hd) as Hparse.
  set (dayString := EventCalendarView.toString currentYear +:+ "-"
                    +:+ EventCalendarView.formatDay (currentMonth + 1) +:+ "-"
                    +:+ EventCalendarView.formatDay day) in *.
  f_equal. apply List.filter_ext. intros e.
  destruct (String.eqb_spec (Event.date e) dayString) as [Heq|Hne].
  - symmetry. apply bool_decide_eq_true. rewrite Heq. exact Hparse.
  - symmetry. apply bool_decide_eq_false. intros He. apply Hne.
    exact (parse_ymd_inj _ _ _ He Hparse).
Qed.

(** On the grid a day of the displayed month counts the events whose date
    string is that day, whatever the time zone: for a year of four digits
    and a day of the month, [getEventsForDay] is the number of events
    dated that year, month and day. *)
Theorem getEventsForDay_counts (currentYear currentMonth day : Z) (events : list Event.t) :
  1000 <= currentYear <= 9999 -> 0 <= currentMonth <= 11 ->
  1 <= day <= JsDate.days_in_month currentYear (currentMonth + 1) ->
  EventCalendarView.getEventsForDay currentYear currentMonth events day
  = length (List.filter
              (fun e => bool_decide (JsDate.parse_ymd (Event.date e)
                                     = Some (currentYear, currentMonth + 1, day)))
              events).
Proof. exact (getEventsForDay_filter currentYear currentMonth day events). Qed.




End DayStringFacts.

Lemma getEventsForDay_counts_witness :
  EventCalendarView.getEventsForDay 2025 11 MOCK_EVENTS 1 = 1%nat.
Proof.
  rewrite (getEventsForDay_counts 2025 11 1 MOCK_EVENTS); [reflexivity | lia | lia |].
  vm_compute. split; discriminate.
Defined.


(** ** Sessions that can come about *)

Section UiFacts.
Variable localTZA : Z -> Z.
Variable localeCompare : string -> string -> Z.

Lemma invariant_with_db h s :
  App.has_db s = true ->
  Ui.at_home (App.userRole s) (App.view s) = true ->
  (App.events s < length (Heap.arrays h))%nat ->
  (forall l, App.selectedEvent s = Some l ->
     (l < length (Heap.arrays h))%nat /\ l <> App.events s) ->
  (App.view s = App.EventDetails -> App.selectedEvent s <> None) ->
  Ui.invariant h s.
Proof.
  intros Hdb Hhome Hev Hsel Hdet. unfold Ui.invariant.
  split; [exact Hhome|]. split; [rewrite Hdb; discriminate|].
  split; [exact Hev|]. split; [exact Hsel | exact Hdet].
Qed.

Lemma invariant_has_db h s a r :
  Ui.invariant h s -> Ui.perform localTZA a h s = Some r -> App.has_db s = true.
Proof.
  intros (_ & Hnodb & _) Hstep.
  destruct (App.has_db s) eqn:Hd; [reflexivity|]. destruct (Hnodb eq_refl) as [-> ->].
  destruct a; vm_compute in Hstep; discriminate Hstep.
Qed.

Local Ltac split_tests H :=
  repeat match type of H with
    | context [if ?b then _ else _] => destruct b eqn:?; simpl in H
    end.

Lemma perform_preserves a h s h' s' :
  Ui.invariant h s -> Ui.perform localTZA a h s = Some (h', s') -> Ui.invariant h' s'.
Proof.
  intros Hinv Hstep.
  pose proof (invariant_has_db h s a _ Hinv Hstep) as Hdb.
  destruct Hinv as (Hhome & _ & Hev & Hsel & Hdet).
  assert (Hdbs : exists d, App.db s = Some d).
  { unfold App.has_db in Hdb. destruct (App.db s) as [d|]; [exists d; reflexivity|].
    discriminate Hdb. }
  destruct Hdbs as [d Hdbs].
  unfold Ui.perform in Hstep.
  destruct a.
  6: { destruct (App.userRole s) eqn:Hrole; [|destruct (App.renderView s); discriminate Hstep].
       assert (Some (h, App.headerLogOut s) = Some (h', s')) as Heq
         by (destruct (App.renderView s); exact Hstep).
       injection Heq as <- <-. apply invariant_with_db; simpl; try assumption.
       - reflexivity.
       - discriminate. }
  all: unfold App.renderView in Hstep;
       (destruct (App.error_set s); [discriminate Hstep|]);
       (destruct (App.isAuthReady s); simpl in Hstep; [|discriminate Hstep]);
       rewrite ?Hdb, ?Hdbs in Hstep;
       destruct (App.view s) eqn:Hview; simpl in Hstep; try discriminate Hstep;
       try (destruct (App.is_teacher (App.userRole s)) eqn:Hteach; simpl in Hstep);
       try discriminate Hstep.
  all: try (unfold LoginView.handleSubmit in Hstep;
            destruct (App.targetRole s) as [target|]; [|discriminate Hstep]).
  all: try (unfold EventCalendarView.goToDetails, Heap.alloc in Hstep; simpl in Hstep).
  all: split_tests Hstep; try discriminate Hstep.
  all: injection Hstep as <- <-.
  all: apply invariant_with_db;
       [ exact Hdb
       | simpl; rewrite ?Hview
       | simpl; rewrite ?length_app; simpl; try lia
       | simpl; rewrite ?length_app; simpl
       | simpl; rewrite ?Hview ].
  all: try exact Hsel.
  all: try discriminate.
  all: try (intros _; discriminate).
  all: try (destruct (App.userRole s) as [[|]|]; simpl in Hhome, Hteach |- *;
            first [reflexivity | discriminate Hhome | discriminate Hteach]).
  all: try (destruct target; simpl; first [reflexivity | intros Heq; discriminate Heq]).
  all: try (intros l [= <-]; split; lia).
  all: try (destruct (App.userRole s) as [[|]|]; simpl; intros Heq; discriminate Heq).
  all: match goal with
       | H : bool_decide (?v ∈ _) = true |- _ =>
           destruct v; vm_compute in H; try discriminate H
       end.
  all: try (intros Heq; discriminate Heq).
  all: destruct (App.userRole s) as [[|]|]; simpl in Hhome |- *;
       first [reflexivity | discriminate Hhome].
Qed.
Lemma step_preserves ev h s h' s' :
  Ui.invariant h s -> Ui.step localTZA localeCompare ev h s = Some (h', s') ->
  Ui.invariant h' s'.
Proof.
  intros Hinv Hstep. destruct ev; simpl in Hstep.
  - exact (perform_preserves _ _ _ _ _ Hinv Hstep).
  - destruct (Ui.listening s) eqn:Hl; [|discriminate Hstep].
    apply andb_true_iff in Hl. destruct Hl as [Hdb _].
    destruct Hinv as (Hhome & _ & Hev & Hsel & Hdet).
    unfold App.onEventsSnapshot, Heap.alloc in Hstep. injection Hstep as <- <-.
    apply invariant_with_db; simpl; try assumption.
    + rewrite length_app. simpl. lia.
    + intros l Hl. destruct (Hsel l Hl) as [Hlt _]. rewrite length_app. simpl. lia.
  - destruct (Ui.listening s) eqn:Hl; [|discriminate Hstep].
    apply andb_true_iff in Hl. destruct Hl as [Hdb _].
    destruct Hinv as (Hhome & _ & Hev & Hsel & Hdet). injection Hstep as <- <-.
    apply invariant_with_db; assumption.
  - destruct (Ui.listening s) eqn:Hl; [|discriminate Hstep].
    apply andb_true_iff in Hl. destruct Hl as [Hdb _].
    destruct Hinv as (Hhome & _ & Hev & Hsel & Hdet).
    unfold App.onScoresSnapshot in Hstep.
    pose proof (scores_of_docs_heap docs h) as (_ & Harr & _).
    destruct (scores_of_docs h docs) as [h2 ss]. simpl in Harr. injection Hstep as <- <-.
    apply invariant_with_db; simpl; rewrite ?Harr; assumption.
  - destruct (Ui.listening s) eqn:Hl; [|discriminate Hstep].
    apply andb_true_iff in Hl. destruct Hl as [Hdb _].
    destruct Hinv as (Hhome & _ & Hev & Hsel & Hdet). injection Hstep as <- <-.
    apply invariant_with_db; destruct c; assumption.
  - destruct (App.has_db s) eqn:Hdb; [|discriminate Hstep].
    destruct Hinv as (Hhome & _ & Hev & Hsel & Hdet). injection Hstep as <- <-.
    unfold App.authObserver, App.signIn.
    destruct user as [uid|]; [|destruct signIn]; simpl;
      apply invariant_with_db; assumption.
  - unfold App.subscribe in Hstep.
    destruct (App.db s) as [d|] eqn:Hdbs; [|discriminate Hstep].
    destruct (App.isAuthReady s); [|discriminate Hstep].
    destruct Hinv as (Hhome & _ & Hev & Hsel & Hdet). injection Hstep as <- <-.
    apply invariant_with_db; try assumption.
    unfold App.has_db. simpl. rewrite Hdbs. reflexivity.
  - destruct (App.has_db s) eqn:Hdb.
    + destruct Hinv as (Hhome & _ & Hev & Hsel & Hdet).
      destruct (App.renderView s); injection Hstep as <- <-;
        apply invariant_with_db; simpl; rewrite ?length_insert; assumption.
    + pose proof Hinv as (_ & Hnodb & _). destruct (Hnodb Hdb) as [-> ->].
      vm_compute in Hstep. injection Hstep as <- <-. exact Hinv.
  - destruct (App.has_db s) eqn:Hdb.
    + destruct Hinv as (Hhome & _ & Hev & Hsel & Hdet).
      destruct (App.renderView s); try discriminate Hstep.
      destruct (scores !! i); [|discriminate Hstep]. injection Hstep as <- <-.
      apply invariant_with_db; simpl; assumption.
    + pose proof Hinv as (_ & Hnodb & _). destruct (Hnodb Hdb) as [-> ->].
      vm_compute in Hstep. discriminate Hstep.
Qed.

Lemma reachable_invariant h s :
  Ui.reachable localTZA localeCompare h s -> Ui.invariant h s.
Proof.
  induction 1 as [ok|ev h s h' s' _ IH Hstep].
  - destruct ok.
    + apply invariant_with_db; try reflexivity.
      * compute. lia.
      * intros l Hl. discriminate Hl.
      * intros Hv. discriminate Hv.
    + unfold Ui.invariant. split; [reflexivity|]. split; [intros _; split; reflexivity|].
      split; [compute; lia|]. split; [intros l Hl; discriminate Hl|].
      intros Hv. discriminate Hv.
  - exact (step_preserves ev h s h' s' IH Hstep).
Qed.

(** In no session that can come about is "Access Denied" on screen: the
    role is always in a view of its own (a Student never in the teacher's
    dashboard or forms, a Teacher never in the student's dashboard, results
    or profile, and nobody past the login without a role). *)
Theorem reachable_never_denied h s :
  Ui.reachable localTZA localeCompare h s ->
  App.renderView s <> App.AccessDenied
  /\ Ui.at_home (App.userRole s) (App.view s) = true.
Proof.
  intros Hreach. destruct (reachable_invariant h s Hreach) as (Hhome & Hnodb & _).
  split; [|exact Hhome].
  destruct (App.has_db s) eqn:Hdb.
  - unfold App.renderView. rewrite Hdb.
    destruct (App.error_set s); [discriminate|].
    destruct (App.isAuthReady s); simpl; [|discriminate].
    destruct (App.view s); try discriminate;
      try (destruct (App.db s); discriminate);
      destruct (App.userRole s) as [[|]|]; simpl in Hhome |- *; discriminate.
  - destruct (Hnodb eq_refl) as [_ ->]. vm_compute. discriminate.
Qed.

Lemma details_selection_apart h s events userRole :
  Ui.reachable localTZA localeCompare h s ->
  App.renderView s = App.El_EventDetailsView events userRole ->
  App.selectedEvent s = Some events
  /\ events <> App.events s
  /\ Heap.read (fst (EventDetailsView.render h events)) (App.events s)
     = Heap.read h (App.events s).
Proof.
  intros Hreach Hrender.
  destruct (reachable_invariant h s Hreach) as (_ & _ & _ & Hsel & Hdet).
  unfold App.renderView in Hrender.
  destruct (App.error_set s); [discriminate Hrender|].
  destruct (App.isAuthReady s); simpl in Hrender; [|discriminate Hrender].
  destruct (App.view s) eqn:Hview; try discriminate Hrender;
    try (destruct (_ && _); discriminate Hrender);
    try (destruct (App.db s); discriminate Hrender).
  injection Hrender as <- _.
  destruct (App.selectedEvent s) as [l|] eqn:Hl; [|exfalso; exact (Hdet eq_refl eq_refl)].
  simpl. destruct (Hsel l eq_refl) as [_ Hne].
  split; [reflexivity|]. split; [exact Hne|].
  unfold EventDetailsView.render, Heap.read, Heap.write. simpl.
  rewrite list_lookup_insert_ne by exact Hne. reflexivity.
Qed.

(** In every session that can come about, the details view is on screen
    only with a selection made on the calendar, which is an array other
    than the cached events: rendering the view, which sorts the selection
    where it is, leaves the cached events as they were. *)
Theorem reachable_details_selection h s events userRole :
  Ui.reachable localTZA localeCompare h s ->
  App.renderView s = App.El_EventDetailsView events userRole ->
  App.selectedEvent s = Some events
  /\ events <> App.events s
  /\ Heap.read (fst (EventDetailsView.render h events)) (App.events s)
     = Heap.read h (App.events s).
Proof. exact (details_selection_apart h s events userRole). Qed.

(** When the services cannot be initialised the session stays as it is,
    on the error screen: no control is on screen and no callback comes.
    A session that is ready has its store handle. *)
Theorem reachable_without_store h s :
  Ui.reachable localTZA localeCompare h s ->
  (App.has_db s = false ->
     s = App.initialize false App.initial
     /\ App.renderView s = App.ErrorScreen "Failed to initialize Firebase services."
     /\ forall ev r, Ui.step localTZA localeCompare ev h s = Some r -> r = (h, s))
  /\ (App.isAuthReady s = true -> App.has_db s = true).
Proof.
  intros Hreach. destruct (reachable_invariant h s Hreach) as (_ & Hnodb & _).
  split.
  - intros Hdb. destruct (Hnodb Hdb) as [-> ->].
    split; [reflexivity|]. split; [reflexivity|].
    intros ev r Hstep.
    destruct ev as [a| | | | | | | |]; try (vm_compute in Hstep |- *; congruence).
    destruct a; vm_compute in Hstep |- *; congruence.
  - intros Hready. destruct (App.has_db s) eqn:Hdb; [reflexivity|].
    destruct (Hnodb eq_refl) as [_ ->]. discriminate Hready.
Qed.

Lemma perform_frame a h s h' s' :
  Ui.perform localTZA a h s = Some (h', s') ->
  App.events s' = App.events s
  /\ App.notices s' = App.notices s
  /\ App.scores s' = App.scores s
  /\ App.error s' = App.error s
  /\ Heap.resultArrays h' = Heap.resultArrays h
  /\ (forall l, (l < length (Heap.arrays h))%nat -> Heap.read h' l = Heap.read h l).
Proof.
  intros Hstep. unfold Ui.perform in Hstep.
  destruct a.
  6: { destruct (App.userRole s); [|destruct (App.renderView s); discriminate Hstep].
       assert (Some (h, App.headerLogOut s) = Some (h', s')) as Heq
         by (destruct (App.renderView s); exact Hstep).
       injection Heq as <- <-. repeat split. }
  all: destruct (App.renderView s); try discriminate Hstep.
  all: try (unfold LoginView.handleSubmit in Hstep;
            destruct targetRole as [target|]; [|discriminate Hstep]).
  all: try (unfold EventCalendarView.goToDetails, Heap.alloc in Hstep; simpl in Hstep).
  all: split_tests Hstep; try discriminate Hstep.
  all: injection Hstep as <- <-.
  all: repeat split.
  all: intros l Hl; unfold Heap.read; simpl; rewrite lookup_app_l by exact Hl; reflexivity.
Qed.

(** In a session that can come about, the cached events change only when
    the events listener delivers a snapshot, the notices only on a notices
    snapshot, the list of publications only on a scores snapshot: no
    control and no rendering touches them.  (The rows of a publication are
    put in order where they are when its results are opened.) *)
Theorem caches_change_only_by_snapshot ev h s h' s' :
  Ui.reachable localTZA localeCompare h s ->
  Ui.step localTZA localeCompare ev h s = Some (h', s') ->
  ((forall docs, ev <> Ui.EventsSnapshot docs) ->
     Heap.read h' (App.events s') = Heap.read h (App.events s))
  /\ ((forall docs, ev <> Ui.NoticesSnapshot docs) -> App.notices s' = App.notices s)
  /\ ((forall docs, ev <> Ui.ScoresSnapshot docs) -> App.scores s' = App.scores s)
  /\ ((forall docs i, ev <> Ui.ScoresSnapshot docs /\ ev <> Ui.OpenResult i) ->
      Heap.resultArrays h' = Heap.resultArrays h).
Proof.
  intros Hreach Hstep.
  pose proof (reachable_invariant h s Hreach) as (_ & _ & Hev & Hsel & Hdet).
  destruct ev; simpl in Hstep.
  - destruct (perform_frame _ _ _ _ _ Hstep) as (He & Hn & Hs & _ & Hr & Hread).
    rewrite He, Hn, Hs, Hr, (Hread _ Hev). repeat split.
  - destruct (Ui.listening s); [|discriminate Hstep].
    unfold App.onEventsSnapshot, Heap.alloc in Hstep. injection Hstep as <- <-.
    split; [intros Hne; exfalso; exact (Hne docs eq_refl)|]. repeat split.
  - destruct (Ui.listening s); [|discriminate Hstep]. injection Hstep as <- <-.
    split; [reflexivity|]. split; [intros Hne; exfalso; exact (Hne docs eq_refl)|].
    repeat split.
  - destruct (Ui.listening s); [|discriminate Hstep].
    unfold App.onScoresSnapshot in Hstep.
    pose proof (scores_of_docs_heap docs h) as (_ & Harr & _).
    destruct (scores_of_docs h docs) as [h2 ss]. simpl in Harr. injection Hstep as <- <-.
    split; [intros _; unfold Heap.read; rewrite Harr; reflexivity|].
    split; [reflexivity|].
    split; [intros Hne; exfalso; exact (Hne docs eq_refl)|].
    intros Hne. exfalso. destruct (Hne docs 0%nat) as [Hne' _]. exact (Hne' eq_refl).
  - destruct (Ui.listening s); [|discriminate Hstep]. injection Hstep as <- <-.
    destruct c; repeat split.
  - destruct (App.has_db s); [|discriminate Hstep]. injection Hstep as <- <-.
    unfold App.authObserver. destruct user; [|destruct (App.signIn _ _ _)]; repeat split.
  - unfold App.subscribe in Hstep. destruct (App.db s); [|discriminate Hstep].
    destruct (App.isAuthReady s); [|discriminate Hstep]. injection Hstep as <- <-.
    repeat split.
  - destruct (App.renderView s) eqn:Hrender; injection Hstep as <- <-; try (repeat split).
    intros _. exact (proj2 (proj2 (details_selection_apart h s _ _ Hreach Hrender))).
  - destruct (App.renderView s); try discriminate Hstep.
    destruct (scores !! i); [|discriminate Hstep]. injection Hstep as <- <-.
    split; [reflexivity|]. split; [reflexivity|]. split; [reflexivity|].
    intros Hne. exfalso. destruct (Hne [] i) as [_ Hne']. exact (Hne' eq_refl).
Qed.

End UiFacts.

Lemma run_reachable (evs : list Ui.Event) :
  forall h s h' s',
    Ui.reachable JsDate.utc ViewResultsView.by_leading_number h s ->
    Sample.run evs h s = Some (h', s') ->
    Ui.reachable JsDate.utc ViewResultsView.by_leading_number h' s'.
Proof.
  induction evs as [|ev evs IH]; intros h s h' s' Hreach Hrun; simpl in Hrun.
  - injection Hrun as <- <-. exact Hreach.
  - destruct (Ui.step _ _ ev h s) as [[h1 s1]|] eqn:Hstep; [|discriminate Hrun].
    apply (IH h1 s1 h' s'); [|exact Hrun].
    exact (Ui.reachable_step _ _ ev h s h1 s1 Hreach Hstep).
Qed.

Lemma arrived_reachable :
  Ui.reachable JsDate.utc ViewResultsView.by_leading_number
    (fst Sample.arrived) (snd Sample.arrived).
Proof.
  apply (run_reachable Sample.journey App.initial_heap (App.initialize true App.initial)).
  - apply Ui.reachable_start.
  - vm_compute. reflexivity.
Qed.

Lemma reachable_never_denied_witness :
  App.renderView (snd Sample.arrived) <> App.AccessDenied
  /\ Ui.at_home (App.userRole (snd Sample.arrived)) (App.view (snd Sample.arrived)) = true.
Proof.
  exact (reachable_never_denied JsDate.utc ViewResultsView.by_leading_number
           (fst Sample.arrived) (snd Sample.arrived) arrived_reachable).
Defined.

Lemma reachable_details_selection_witness :
  App.selectedEvent (snd Sample.arrived) = Some 1%nat
  /\ 1%nat <> App.events (snd Sample.arrived)
  /\ Heap.read (fst (EventDetailsView.render (fst Sample.arrived) 1%nat))
       (App.events (snd Sample.arrived))
     = Heap.read (fst Sample.arrived) (App.events (snd Sample.arrived)).
Proof.
  apply (reachable_details_selection JsDate.utc ViewResultsView.by_leading_number
           (fst Sample.arrived) (snd Sample.arrived) 1%nat (Some Student)
           arrived_reachable).
  vm_compute. reflexivity.
Defined.

Lemma reachable_without_store_witness :
  App.renderView (App.initialize false App.initial)
  = App.ErrorScreen "Failed to initialize Firebase services.".
Proof.
  destruct (reachable_without_store JsDate.utc ViewResultsView.by_leading_number
              App.initial_heap (App.initialize false App.initial)
              (Ui.reachable_start _ _ false)) as [Hfailed _].
  destruct (Hfailed eq_refl) as (_ & Hscreen & _). exact Hscreen.
Defined.

Lemma caches_change_only_by_snapshot_witness :
  Heap.read (fst (EventDetailsView.render (fst Sample.arrived) 1%nat))
    (App.events (snd Sample.arrived))
  = Heap.read (fst Sample.arrived) (App.events (snd Sample.arrived)).
Proof.
  destruct (caches_change_only_by_snapshot JsDate.utc ViewResultsView.by_leading_number
              Ui.Render (fst Sample.arrived) (snd Sample.arrived)
              (fst (EventDetailsView.render (fst Sample.arrived) 1%nat))
              (snd Sample.arrived) arrived_reachable) as [Hevents _].
  - vm_compute. reflexivity.
  - apply Hevents. intros docs Heq. discriminate Heq.
Defined.

(** ** The forms that add a document *)

Section AddDocFacts.
Context {D : Type}.
Variable autoId : nat -> string.

Lemma addDoc_cases (data : D) (c : Collection.t D) :
  (exists c', Collection.addDoc autoId data c = (Retry.Fulfilled tt, c')
              /\ Collection.docs c'
                 = Collection.docs c
                   ++ [{| Doc.id := autoId (Collection.issued c); Doc.id_field := None;
                          Doc.data := data |}]
              /\ Firestore.goes_through 1 (Collection.faults c) = true)
  \/ (exists e c', Collection.addDoc autoId data c = (Retry.Rejected e, c')
                   /\ Collection.docs c' = Collection.docs c
                   /\ Collection.issued c' = S (Collection.issued c)
                   /\ Collection.faults c = true :: Collection.faults c').
Proof.
  unfold Collection.addDoc.
  destruct (Collection.faults c) as [|[|] rest] eqn:Hf.
  - left. eexists. repeat split.
  - right. eexists _, _. repeat split.
  - left. eexists. repeat split.
Qed.

Lemma loop_addDoc (data : D) (maxRetries : nat) :
  forall remaining i c,
    (i + remaining = maxRetries)%nat -> (0 < remaining)%nat ->
    exists r c' tr,
      Retry.loop (Collection.addDoc autoId data) maxRetries i remaining c = (r, c', tr)
      /\ ((Firestore.goes_through remaining (Collection.faults c) = true
           /\ r = Retry.Fulfilled (Some tt)
           /\ exists k, (Collection.issued c <= k < Collection.issued c + remaining)%nat
                /\ Collection.docs c'
                   = Collection.docs c
                     ++ [{| Doc.id := autoId k; Doc.id_field := None; Doc.data := data |}])
          \/ (Firestore.goes_through remaining (Collection.faults c) = false
              /\ (exists e, r = Retry.Rejected e)
              /\ Collection.docs c' = Collection.docs c
              /\ tr = Backoff.schedule i remaining)).
Proof.
  induction remaining as [|rem IH]; intros i c Hsum Hpos; [lia|].
  simpl Retry.loop.
  destruct (addDoc_cases data c) as [(c' & Hadd & Hdocs & Hgo)|(e & c' & Hadd & Hdocs & Hiss & Hf)];
    rewrite Hadd.
  - exists (Retry.Fulfilled (Some tt)), c', [Retry.Invoke]. split; [reflexivity|]. left.
    split; [|split; [reflexivity|]].
    + simpl in Hgo |- *. destruct (Collection.faults c) as [|[|] ?]; try reflexivity.
      discriminate Hgo.
    + exists (Collection.issued c). split; [lia | exact Hdocs].
  - destruct (Nat.eqb_spec i (maxRetries - 1)) as [Hlast|Hmore].
    + assert (rem = 0%nat) by lia. subst rem.
      exists (Retry.Rejected e), c', [Retry.Invoke]. split; [reflexivity|]. right.
      rewrite Hf. simpl. split; [reflexivity|]. split; [exists e; reflexivity|].
      split; [exact Hdocs | reflexivity].
    + destruct (IH (S i) c' ltac:(lia) ltac:(lia)) as (r & c'' & tr & Hloop & Hcases).
      rewrite Hloop. exists r, c'', (Retry.Invoke :: Retry.Sleep (Retry.delay i) :: tr).
      split; [reflexivity|]. rewrite Hf. cbn [Firestore.goes_through].
      destruct Hcases as [(Hgo & Hr & k & Hk & Hd)|(Hgo & Hr & Hd & Htr)].
      * left. split; [exact Hgo|]. split; [exact Hr|]. exists k.
        split; [lia|]. rewrite Hd, Hdocs. reflexivity.
      * right. split; [exact Hgo|]. split; [exact Hr|]. split; [congruence|].
        rewrite Htr. destruct rem as [|rem]; [lia | reflexivity].
Qed.

End AddDocFacts.

Section FormFacts.
Variable autoId : nat -> string.

(** A blank title, date or description stops the event form before any
    call to the store: nothing is written, no id is used up, the fields
    stay as typed and the form asks to fill in all fields. *)
Theorem addEvent_blank_never_writes (userRole : option Role) (now : string)
  (f : AddEventView.Form) (c : Collection.t Event.t) :
  AddEventView.title (AddEventView.formData f) = ""
  \/ AddEventView.date (AddEventView.formData f) = ""
  \/ AddEventView.description (AddEventView.formData f) = "" ->
  AddEventView.handleSubmit autoId userRole now f c
  = ({| AddEventView.formData := AddEventView.formData f; AddEventView.loading := false;
        AddEventView.message := AddEventView.fillIn |}, c, []).
Proof.
  intros Hblank. unfold AddEventView.handleSubmit.
  destruct Hblank as [H|[H|H]]; rewrite H; simpl;
    rewrite ?orb_true_r; reflexivity.
Qed.


(** The notice form: an empty notice is never sent (no call to the store);
    otherwise one document with the text, the time and the sender's id is
    added when one of the three writes goes through and the text box is
    cleared, and when all three are refused the collection is as it was and
    the text is kept. *)
Theorem sendNotice_outcome (userId : option string) (now : string)
  (f : NoticeBoardView.Form) (c : Collection.t Notice.t) :
  let r := NoticeBoardView.handleSendNotice autoId userId now f c in
  let f' := fst (fst r) in
  let c' := snd (fst r) in
  (NoticeBoardView.noticeText f = "" ->
     r = ({| NoticeBoardView.noticeText := ""; NoticeBoardView.loading := false;
             NoticeBoardView.message := NoticeBoardView.empty |}, c, []))
  /\ (NoticeBoardView.noticeText f <> "" ->
      if Firestore.goes_through 3 (Collection.faults c)
      then NoticeBoardView.message f' = NoticeBoardView.sent
           /\ NoticeBoardView.noticeText f' = ""
           /\ exists k added,
                Collection.docs c' = Collection.docs c ++ [added]
                /\ Notice.id (notice_of_doc added) = autoId k
                /\ Notice.content (notice_of_doc added) = NoticeBoardView.noticeText f
                /\ Notice.createdAt (notice_of_doc added) = now
      else NoticeBoardView.message f' = NoticeBoardView.failed
           /\ NoticeBoardView.noticeText f' = NoticeBoardView.noticeText f
           /\ Collection.docs c' = Collection.docs c
           /\ Retry.invocations (snd r) = 3%nat).
Proof.
  intros r f' c'. subst f' c' r. unfold NoticeBoardView.handleSendNotice. split.
  - intros ->. reflexivity.
  - intros Htext.
    assert (Js.truthy (NoticeBoardView.noticeText f) = true) as ->.
    { unfold Js.truthy. destruct (String.eqb_spec (NoticeBoardView.noticeText f) "");
        [contradiction | reflexivity]. }
    simpl negb. cbv iota.
    destruct (loop_addDoc autoId (NoticeBoardView.newNotice userId now f) 3 3 0 c
                eq_refl ltac:(lia))
      as (res & c' & tr & Hloop & [(Hgo & -> & k & Hk & Hdocs)|(Hgo & [e ->] & Hdocs & ->)]);
      unfold Retry.withRetry, Retry.default_maxRetries; rewrite Hloop, Hgo; simpl.
    + split; [reflexivity|]. split; [reflexivity|].
      eexists k, _. split; [exact Hdocs|]. repeat split.
    + repeat split. exact Hdocs.
Qed.

End FormFacts.

Lemma addEvent_blank_never_writes_witness :
  snd (AddEventView.handleSubmit Collection.numbered (Some Teacher)
         "2026-01-10T09:00:00.000Z" Sample.untitled_form (Collection.refusing 0))
  = [].
Proof.
  rewrite (addEvent_blank_never_writes Collection.numbered (Some Teacher)
             "2026-01-10T09:00:00.000Z" Sample.untitled_form (Collection.refusing 0));
    [reflexivity | left; reflexivity].
Defined.


Lemma sendNotice_outcome_witness :
  NoticeBoardView.message
    (fst (fst (NoticeBoardView.handleSendNotice Collection.numbered (Some "uid-1")
                 "2026-01-10T09:00:00.000Z" Sample.notice_form
                 {| Collection.docs := []; Collection.issued := 0;
                    Collection.faults := [true; true; true] |})))
  = NoticeBoardView.failed.
Proof.
  destruct (sendNotice_outcome Collection.numbered (Some "uid-1") "2026-01-10T09:00:00.000Z"
              Sample.notice_form
              {| Collection.docs := []; Collection.issued := 0;
                 Collection.faults := [true; true; true] |}) as [_ Hsent].
  specialize (Hsent ltac:(discriminate)).
  change (Firestore.goes_through 3 [true; true; true]) with false in Hsent.
  cbv iota in Hsent. apply Hsent.
Defined.

(** ** The score form *)

Section ScoreFormFacts.

Lemma loop_setDoc_refused (id : string) (p : ScorePayload.t) (maxRetries : nat) :
  forall remaining i fs,
    (i + remaining = maxRetries)%nat -> (0 < remaining)%nat ->
    Firestore.goes_through remaining (Firestore.faults fs) = false ->
    exists e fs',
      Retry.loop (Firestore.setDoc id p) maxRetries i remaining fs
        = (Retry.Rejected e, fs', Backoff.schedule i remaining)
      /\ Firestore.scores fs' = Firestore.scores fs.
Proof.
  induction remaining as [|rem IH]; intros i fs Hsum Hpos Hgo; [lia|].
  simpl Retry.loop.
  destruct (setDoc_scores id p fs) as [(fs' & Hset & _ & Hone)|(e & fs' & Hset & Hsc & Hf)].
  - simpl in Hgo, Hone. destruct (Firestore.faults fs) as [|[|] ?]; discriminate.
  - rewrite Hset. rewrite Hf in Hgo. cbn [Firestore.goes_through] in Hgo.
    destruct (Nat.eqb_spec i (maxRetries - 1)) as [Hlast|Hmore].
    + assert (rem = 0%nat) by lia. subst rem. exists e, fs'. split; [reflexivity | exact Hsc].
    + destruct (IH (S i) fs' ltac:(lia) ltac:(lia) Hgo) as (e' & fs'' & Hloop & Hsc').
      rewrite Hloop. exists e', fs''. split; [|congruence].
      destruct rem as [|rem]; [lia | reflexivity].
Qed.

(** When the store refuses all three writes of a publication, the score
    form reports the failure and keeps the selected event and the rows as
    typed; the collection is as it was; the wrapper made its three calls
    with waits of one and two seconds.  Without a selected event the form
    does nothing at all. *)
Theorem publishScores_refused (events : list Event.t) (userId : option string)
  (now : string) (f : AddScoresView.Form) (fs : Firestore.t) :
  let r := AddScoresView.handleSubmit events userId now f fs in
  (AddScoresView.selectedEventId f = "" -> r = (f, fs, []))
  /\ (AddScoresView.selectedEventId f <> "" ->
      Firestore.goes_through 3 (Firestore.faults fs) = false ->
      AddScoresView.message (fst (fst r)) = AddScoresView.failed
      /\ AddScoresView.selectedEventId (fst (fst r)) = AddScoresView.selectedEventId f
      /\ AddScoresView.scoreData (fst (fst r)) = AddScoresView.scoreData f
      /\ Firestore.scores (snd (fst r)) = Firestore.scores fs
      /\ snd r = [Retry.Invoke; Retry.Sleep 1000; Retry.Invoke; Retry.Sleep 2000;
                  Retry.Invoke]).
Proof.
  intros r. subst r. unfold AddScoresView.handleSubmit. split.
  - intros ->. reflexivity.
  - intros Hsel Hgo.
    assert (Js.truthy (AddScoresView.selectedEventId f) = true) as ->.
    { unfold Js.truthy. destruct (String.eqb_spec (AddScoresView.selectedEventId f) "");
        [contradiction | reflexivity]. }
    simpl negb. cbv iota.
    destruct (loop_setDoc_refused (AddScoresView.selectedEventId f)
                (AddScoresView.scorePayload events userId now f) 3 3 0 fs
                eq_refl ltac:(lia) Hgo) as (e & fs' & Hloop & Hsc).
    unfold Retry.withRetry, Retry.default_maxRetries. rewrite Hloop. simpl.
    repeat split. exact Hsc.
Qed.


(** Typing into a score or rank box changes that box only: the form keeps
    its students, in their order, and the selected event; the rows of the
    other students are as they were; in the rows of the student the box
    typed into holds the new text and the other box what it held. *)
Theorem handleScoreChange_one_box (studentId : string) (field : AddScoresView.Field)
  (value : string) (f : AddScoresView.Form) :
  let f' := AddScoresView.handleScoreChange studentId field value f in
  List.map Result.studentId (AddScoresView.scoreData f')
    = List.map Result.studentId (AddScoresView.scoreData f)
  /\ List.map Result.studentName (AddScoresView.scoreData f')
     = List.map Result.studentName (AddScoresView.scoreData f)
  /\ AddScoresView.selectedEventId f' = AddScoresView.selectedEventId f
  /\ (forall i r, AddScoresView.scoreData f !! i = Some r ->
        exists r', AddScoresView.scoreData f' !! i = Some r'
          /\ (Result.studentId r <> studentId -> r' = r)
          /\ (Result.studentId r = studentId ->
              match field with
              | AddScoresView.score =>
                  Result.score r' = value /\ Result.rank r' = Result.rank r
              | AddScoresView.rank =>
                  Result.rank r' = value /\ Result.score r' = Result.score r
              end))
  /\ ((forall r, In r (AddScoresView.scoreData f) -> Result.studentId r <> studentId) ->
      f' = f).
Proof.
  intros f'. subst f'. unfold AddScoresView.handleScoreChange. simpl.
  split; [|split; [|split; [reflexivity|split]]].
  - rewrite List.map_map. apply List.map_ext. intros r.
    destruct (String.eqb _ _); [destruct field|]; reflexivity.
  - rewrite List.map_map. apply List.map_ext. intros r.
    destruct (String.eqb _ _); [destruct field|]; reflexivity.
  - intros i r Hi. rewrite list_lookup_fmap, Hi. simpl. eexists. split; [reflexivity|].
    destruct (String.eqb_spec (Result.studentId r) studentId) as [Heq|Hne].
    + split; [intros Hne; contradiction|]. intros _. destruct field; split; reflexivity.
    + split; [reflexivity | intros Heq; contradiction].
  - intros Hnone. destruct f as [sel rows load msg]. simpl in *. f_equal.
    induction rows as [|r rows IH]; [reflexivity|]. simpl.
    destruct (String.eqb_spec (Result.studentId r) studentId) as [Heq|_].
    + exfalso. exact (Hnone r (or_introl eq_refl) Heq).
    + f_equal. apply IH. intros r' Hr'. apply Hnone. right. exact Hr'.
Qed.

End ScoreFormFacts.

Lemma publishScores_refused_witness :
  AddScoresView.message
    (fst (fst (AddScoresView.handleSubmit MOCK_EVENTS (Some "uid-1")
                 "2025-10-16T10:00:00.000Z" Sample.first_form Sample.down_store)))
  = AddScoresView.failed.
Proof.
  destruct (publishScores_refused MOCK_EVENTS (Some "uid-1") "2025-10-16T10:00:00.000Z"
              Sample.first_form Sample.down_store) as [_ Hrefused].
  apply Hrefused; [discriminate | reflexivity].
Defined.


(** ** White space around what is typed at the login form *)

Section PaddingFacts.

(** White space typed before or after the user name or the password does
    not change what the login form does: the same state follows and the
    same error is shown, whatever else the fields hold. *)
Theorem login_ignores_padding (role : Role) (f : LoginView.Form) (s : App.State)
  (pre1 post1 pre2 post2 : Js.ustring) :
  List.Forall (fun c => Js.isWhiteSpace c = true) (pre1 ++ post1 ++ pre2 ++ post2)%list ->
  let padded :=
    {| LoginView.username := (pre1 ++ LoginView.username f ++ post1)%list;
       LoginView.password := (pre2 ++ LoginView.password f ++ post2)%list;
       LoginView.error := LoginView.error f; LoginView.loading := LoginView.loading f |} in
  option_map snd (LoginView.handleSubmit (Some role) padded s)
    = option_map snd (LoginView.handleSubmit (Some role) f s)
  /\ option_map (fun r => LoginView.error (fst r)) (LoginView.handleSubmit (Some role) padded s)
     = option_map (fun r => LoginView.error (fst r)) (LoginView.handleSubmit (Some role) f s).
Proof.
  intros Hall padded.
  apply Forall_app in Hall as [Hpre1 Hall]. apply Forall_app in Hall as [Hpost1 Hall].
  apply Forall_app in Hall as [Hpre2 Hpost2].
  assert (Hacc : LoginView.accepts role padded = LoginView.accepts role f).
  { unfold LoginView.accepts, padded. simpl.
    rewrite (trim_ignores_padding pre1 _ post1 Hpre1 Hpost1).
    rewrite (trim_ignores_padding pre2 _ post2 Hpre2 Hpost2). reflexivity. }
  unfold LoginView.handleSubmit. rewrite Hacc.
  destruct (LoginView.accepts role f); split; reflexivity.
Qed.

End PaddingFacts.

Lemma login_ignores_padding_witness :
  option_map snd
    (LoginView.handleSubmit (Some Teacher)
       {| LoginView.username := Js.units "  Teacher ";
          LoginView.password := Js.units "pass  ";
          LoginView.error := ""; LoginView.loading := false |} Sample.at_login)
  = Some (App.handleLogin Teacher Sample.at_login).
Proof.
  assert (Hblank : List.Forall (fun c => Js.isWhiteSpace c = true)
                     (Js.units "  " ++ Js.units " " ++ [] ++ Js.units "  ")%list)
    by (repeat constructor).
  pose proof (proj1 (login_ignores_padding Teacher
                  {| LoginView.username := Js.units "Teacher";
                     LoginView.password := Js.units "pass";
                     LoginView.error := ""; LoginView.loading := false |} Sample.at_login
                  (Js.units "  ") (Js.units " ") [] (Js.units "  ") Hblank)) as Hsame.
  vm_compute in Hsame |- *. exact Hsame.
Defined.
